(** * CI/CD remediation workflow: a shallow embedding and its properties

    The development follows the Python package [cicd_agent]:
    - [state.py]            the workflow record [CICDState];
    - [nodes/discovery.py]  file classification and discovery;
    - [nodes/validators.py] the three validators;
    - [nodes/decision.py]   error aggregation and the decision function;
    - [nodes/fixers.py]     the fix budget and the three fixers;
    - [nodes/release.py]    the three release stages;
    - [utils/helm.py]       the guarded chart-directory search;
    - [utils/docker.py]     the base-image suggestion;
    - [graph.py], [main.py] the node table, the seeding of the budgets and
      the exit code.

    A Python [str] is a sequence of code points.  The texts covered here
    are those whose code points are below 256: a Rocq [string] holds one
    code point per character, and [isspace] and [lower] are Python's on
    that range.  Python [int]s are [Z], Python dicts are insertion-ordered
    association lists, and everything the code asks of its environment
    (file system, external tools, clock) goes through the interface [OS].
    [print] calls have no effect on the workflow state and are left out.

    [graph.invoke] belongs to an external library; how it schedules the
    nodes and merges what they return is not modelled.  Properties of the
    workflow as a whole are stated over every order in which the node
    functions can be applied. *)

From Stdlib Require Import String Ascii List ZArith Bool Lia Arith DecimalString Permutation.
Import ListNotations.
Open Scope string_scope.

(** ** Python string operations used by the package *)

Module PyStr.

Definition chr (n : nat) : string := String (ascii_of_nat n) EmptyString.

(** The two characters that cannot be written inside a literal. *)
Definition nl : string := chr 10.
Definition dquote : string := chr 34.

(** [s.startswith(p)] *)
Fixpoint startswith (s p : string) {struct p} : bool :=
  match p, s with
  | EmptyString, _ => true
  | String _ _, EmptyString => false
  | String a p', String b s' => Ascii.eqb a b && startswith s' p'
  end.

Fixpoint rev_acc (s acc : string) : string :=
  match s with
  | EmptyString => acc
  | String c t => rev_acc t (String c acc)
  end.

Definition rev (s : string) : string := rev_acc s EmptyString.

(** [s.endswith(p)] *)
Definition endswith (s p : string) : bool := startswith (rev s) (rev p).

(** [p in s] *)
Fixpoint contains (p s : string) : bool :=
  startswith s p ||
  match s with
  | EmptyString => false
  | String _ t => contains p t
  end.

(** [c.isspace()] for a code point below 256: TAB, LF, VT, FF, CR, the
    four separators 0x1c..0x1f, the space, NEL (0x85) and the no-break
    space (0xa0). *)
Definition isspace (c : ascii) : bool :=
  let n := nat_of_ascii c in
  (((9 <=? n) && (n <=? 13)) || ((28 <=? n) && (n <=? 32))
   || (n =? 133) || (n =? 160))%nat.

Fixpoint lstrip (s : string) : string :=
  match s with
  | EmptyString => EmptyString
  | String c t => if isspace c then lstrip t else s
  end.

(** [s.strip()] *)
Definition strip (s : string) : string := rev (lstrip (rev (lstrip s))).

Fixpoint split_ws_from (cur s : string) : list string :=
  match s with
  | EmptyString => if String.eqb cur "" then [] else [cur]
  | String c t =>
      if isspace c
      then (if String.eqb cur "" then split_ws_from "" t
            else cur :: split_ws_from "" t)
      else split_ws_from (cur ++ String c "") t
  end.

(** [s.split()] : split on runs of white space, no empty pieces. *)
Definition split_ws (s : string) : list string := split_ws_from "" s.

Fixpoint split_from (sep : string) (skip : nat) (cur s : string)
  : list string :=
  match s with
  | EmptyString => [cur]
  | String c t =>
      match skip with
      | S k => split_from sep k cur t
      | O =>
          if startswith s sep
          then cur :: split_from sep (String.length sep - 1) "" t
          else split_from sep 0 (cur ++ String c "") t
      end
  end.

(** [s.split(sep)] for a non-empty separator (Python raises [ValueError]
    on the empty one; every call site passes a non-empty literal). *)
Definition split (sep s : string) : list string := split_from sep 0 "" s.

Fixpoint replace_from (old new : string) (skip : nat) (s : string)
  : string :=
  match s with
  | EmptyString => EmptyString
  | String c t =>
      match skip with
      | S k => replace_from old new k t
      | O =>
          if startswith s old
          then new ++ replace_from old new (String.length old - 1) t
          else String c (replace_from old new 0 t)
      end
  end.

Fixpoint intersperse (new s : string) : string :=
  match s with
  | EmptyString => new
  | String c t => new ++ String c (intersperse new t)
  end.

(** [s.replace(old, new)] : every non-overlapping occurrence, left to
    right; an empty [old] matches before every character and at the end. *)
Definition replace (old new s : string) : string :=
  if String.eqb old "" then intersperse new s
  else replace_from old new 0 s.

(** [c.lower()] for a code point below 256: the letters A..Z and the
    accented capitals 0xc0..0xde, the multiplication sign 0xd7 apart, are
    32 below their small forms. *)
Definition lower_ascii (c : ascii) : ascii :=
  let n := nat_of_ascii c in
  if (((65 <=? n) && (n <=? 90))
      || ((192 <=? n) && (n <=? 222) && negb (n =? 215)))%nat
  then ascii_of_nat (n + 32) else c.

(** [s.lower()] *)
Fixpoint lower (s : string) : string :=
  match s with
  | EmptyString => EmptyString
  | String c t => String (lower_ascii c) (lower t)
  end.

(** [sep.join(xs)] *)
Definition join (sep : string) (xs : list string) : string :=
  String.concat sep xs.

End PyStr.

(** ** [os.path] (the POSIX flavour) *)

Module OsPath.
Import PyStr.

Definition is_slash (c : ascii) : bool := Ascii.eqb c "/"%char.

Fixpoint has_slash (s : string) : bool :=
  match s with
  | EmptyString => false
  | String c t => is_slash c || has_slash t
  end.

(** [p[:p.rfind('/') + 1]] *)
Fixpoint head_part (p : string) : string :=
  match p with
  | EmptyString => EmptyString
  | String c t => if has_slash p then String c (head_part t) else EmptyString
  end.

(** [p[p.rfind('/') + 1:]] *)
Fixpoint tail_part (p : string) : string :=
  match p with
  | EmptyString => EmptyString
  | String c t => if has_slash p then tail_part t else p
  end.

Fixpoint all_slash (s : string) : bool :=
  match s with
  | EmptyString => true
  | String c t => is_slash c && all_slash t
  end.

(** [s.rstrip('/')] *)
Fixpoint rstrip_slash (s : string) : string :=
  match s with
  | EmptyString => EmptyString
  | String c t =>
      let r := rstrip_slash t in
      if is_slash c && String.eqb r "" then EmptyString else String c r
  end.

(** [os.path.dirname] :
    [head = p[:i]; if head and head != sep*len(head): head = head.rstrip(sep)] *)
Definition dirname (p : string) : string :=
  let head := head_part p in
  if negb (String.eqb head "") && negb (all_slash head)
  then rstrip_slash head
  else head.

(** [os.path.basename] *)
Definition basename (p : string) : string := tail_part p.

(** [os.path.join(a, b)] with two arguments. *)
Definition join (a b : string) : string :=
  if startswith b "/" then b
  else if String.eqb a "" || endswith a "/" then a ++ b
  else a ++ "/" ++ b.

End OsPath.

(** ** Python dicts: association lists in insertion order *)

Module Dict.

Definition t (V : Type) : Type := list (string * V).

(** [d.get(k)] *)
Fixpoint get {V} (k : string) (d : t V) : option V :=
  match d with
  | [] => None
  | (k', v) :: r => if String.eqb k k' then Some v else get k r
  end.

(** [d[k] = v] : an existing key keeps its position, a new one goes last. *)
Fixpoint set {V} (k : string) (v : V) (d : t V) : t V :=
  match d with
  | [] => [(k, v)]
  | (k', v') :: r =>
      if String.eqb k k' then (k', v) :: r else (k', v') :: set k v r
  end.

(** [k in d] *)
Definition mem {V} (k : string) (d : t V) : bool :=
  match get k d with Some _ => true | None => false end.

(** [d.values()] *)
Definition values {V} (d : t V) : list V := map snd d.

End Dict.

(** ** [state.py] *)

Record ValidationResult : Type := mkValidationResult {
  file_path : string;
  tool : string;
  passed : bool;
  errors : list string;
  warnings : list string
}.

Record FixAttempt : Type := mkFixAttempt {
  file_type : string;
  attempts : Z;
  max_attempts : Z;
  last_fix_time : option string
}.

(** The values stored in [release_results]: a dict with a ["status"] key and,
    depending on the stage, ["images"], ["charts"] or ["error"]. *)
Record ReleaseResult : Type := mkReleaseResult {
  release_status : string;
  images : option (list string);
  charts : option (list string);
  error : option string
}.

Record CICDState : Type := mkCICDState {
  user_paths : list string;
  files : Dict.t (list string);
  validation_results : Dict.t (list ValidationResult);
  all_validations_complete : bool;
  collected_errors : Dict.t (list string);
  errors_by_file : Dict.t (list string);
  fix_attempts : Dict.t FixAttempt;
  files_fixed : list string;
  fix_applied : bool;
  release_ready : bool;
  release_results : Dict.t ReleaseResult;
  docker_images_built : list string;
  helm_charts_released : list string;
  terraform_applied : bool;
  status : string;
  error_message : option string
}.

Definition create_initial_state (paths : list string) : CICDState :=
  {| user_paths := paths;
     files := [("terraform", []); ("docker", []); ("helm", [])];
     validation_results := [];
     all_validations_complete := false;
     collected_errors := [];
     errors_by_file := [];
     fix_attempts := [];
     files_fixed := [];
     fix_applied := false;
     release_ready := false;
     release_results := [];
     docker_images_built := [];
     helm_charts_released := [];
     terraform_applied := false;
     status := "running";
     error_message := None |}.

(** Item assignment [state[key] = v], one function per key the nodes write. *)

Definition set_files (v : Dict.t (list string)) (s : CICDState) : CICDState :=
  mkCICDState s.(user_paths) v s.(validation_results)
    s.(all_validations_complete) s.(collected_errors) s.(errors_by_file)
    s.(fix_attempts) s.(files_fixed) s.(fix_applied) s.(release_ready)
    s.(release_results) s.(docker_images_built) s.(helm_charts_released)
    s.(terraform_applied) s.(status) s.(error_message).

Definition set_validation_results (v : Dict.t (list ValidationResult)) (s : CICDState) : CICDState :=
  mkCICDState s.(user_paths) s.(files) v s.(all_validations_complete)
    s.(collected_errors) s.(errors_by_file) s.(fix_attempts) s.(files_fixed)
    s.(fix_applied) s.(release_ready) s.(release_results)
    s.(docker_images_built) s.(helm_charts_released) s.(terraform_applied)
    s.(status) s.(error_message).

Definition set_all_validations_complete (v : bool) (s : CICDState) : CICDState :=
  mkCICDState s.(user_paths) s.(files) s.(validation_results) v
    s.(collected_errors) s.(errors_by_file) s.(fix_attempts) s.(files_fixed)
    s.(fix_applied) s.(release_ready) s.(release_results)
    s.(docker_images_built) s.(helm_charts_released) s.(terraform_applied)
    s.(status) s.(error_message).

Definition set_collected_errors (v : Dict.t (list string)) (s : CICDState) : CICDState :=
  mkCICDState s.(user_paths) s.(files) s.(validation_results)
    s.(all_validations_complete) v s.(errors_by_file) s.(fix_attempts)
    s.(files_fixed) s.(fix_applied) s.(release_ready) s.(release_results)
    s.(docker_images_built) s.(helm_charts_released) s.(terraform_applied)
    s.(status) s.(error_message).

Definition set_errors_by_file (v : Dict.t (list string)) (s : CICDState) : CICDState :=
  mkCICDState s.(user_paths) s.(files) s.(validation_results)
    s.(all_validations_complete) s.(collected_errors) v s.(fix_attempts)
    s.(files_fixed) s.(fix_applied) s.(release_ready) s.(release_results)
    s.(docker_images_built) s.(helm_charts_released) s.(terraform_applied)
    s.(status) s.(error_message).

Definition set_fix_attempts (v : Dict.t FixAttempt) (s : CICDState) : CICDState :=
  mkCICDState s.(user_paths) s.(files) s.(validation_results)
    s.(all_validations_complete) s.(collected_errors) s.(errors_by_file) v
    s.(files_fixed) s.(fix_applied) s.(release_ready) s.(release_results)
    s.(docker_images_built) s.(helm_charts_released) s.(terraform_applied)
    s.(status) s.(error_message).

Definition set_files_fixed (v : list string) (s : CICDState) : CICDState :=
  mkCICDState s.(user_paths) s.(files) s.(validation_results)
    s.(all_validations_complete) s.(collected_errors) s.(errors_by_file)
    s.(fix_attempts) v s.(fix_applied) s.(release_ready) s.(release_results)
    s.(docker_images_built) s.(helm_charts_released) s.(terraform_applied)
    s.(status) s.(error_message).

Definition set_fix_applied (v : bool) (s : CICDState) : CICDState :=
  mkCICDState s.(user_paths) s.(files) s.(validation_results)
    s.(all_validations_complete) s.(collected_errors) s.(errors_by_file)
    s.(fix_attempts) s.(files_fixed) v s.(release_ready) s.(release_results)
    s.(docker_images_built) s.(helm_charts_released) s.(terraform_applied)
    s.(status) s.(error_message).

Definition set_release_ready (v : bool) (s : CICDState) : CICDState :=
  mkCICDState s.(user_paths) s.(files) s.(validation_results)
    s.(all_validations_complete) s.(collected_errors) s.(errors_by_file)
    s.(fix_attempts) s.(files_fixed) s.(fix_applied) v s.(release_results)
    s.(docker_images_built) s.(helm_charts_released) s.(terraform_applied)
    s.(status) s.(error_message).

Definition set_release_results (v : Dict.t ReleaseResult) (s : CICDState) : CICDState :=
  mkCICDState s.(user_paths) s.(files) s.(validation_results)
    s.(all_validations_complete) s.(collected_errors) s.(errors_by_file)
    s.(fix_attempts) s.(files_fixed) s.(fix_applied) s.(release_ready) v
    s.(docker_images_built) s.(helm_charts_released) s.(terraform_applied)
    s.(status) s.(error_message).

Definition set_docker_images_built (v : list string) (s : CICDState) : CICDState :=
  mkCICDState s.(user_paths) s.(files) s.(validation_results)
    s.(all_validations_complete) s.(collected_errors) s.(errors_by_file)
    s.(fix_attempts) s.(files_fixed) s.(fix_applied) s.(release_ready)
    s.(release_results) v s.(helm_charts_released) s.(terraform_applied)
    s.(status) s.(error_message).

Definition set_helm_charts_released (v : list string) (s : CICDState) : CICDState :=
  mkCICDState s.(user_paths) s.(files) s.(validation_results)
    s.(all_validations_complete) s.(collected_errors) s.(errors_by_file)
    s.(fix_attempts) s.(files_fixed) s.(fix_applied) s.(release_ready)
    s.(release_results) s.(docker_images_built) v s.(terraform_applied)
    s.(status) s.(error_message).

Definition set_terraform_applied (v : bool) (s : CICDState) : CICDState :=
  mkCICDState s.(user_paths) s.(files) s.(validation_results)
    s.(all_validations_complete) s.(collected_errors) s.(errors_by_file)
    s.(fix_attempts) s.(files_fixed) s.(fix_applied) s.(release_ready)
    s.(release_results) s.(docker_images_built) s.(helm_charts_released) v
    s.(status) s.(error_message).

Definition set_status (v : string) (s : CICDState) : CICDState :=
  mkCICDState s.(user_paths) s.(files) s.(validation_results)
    s.(all_validations_complete) s.(collected_errors) s.(errors_by_file)
    s.(fix_attempts) s.(files_fixed) s.(fix_applied) s.(release_ready)
    s.(release_results) s.(docker_images_built) s.(helm_charts_released)
    s.(terraform_applied) v s.(error_message).

Definition set_error_message (v : option string) (s : CICDState) : CICDState :=
  mkCICDState s.(user_paths) s.(files) s.(validation_results)
    s.(all_validations_complete) s.(collected_errors) s.(errors_by_file)
    s.(fix_attempts) s.(files_fixed) s.(fix_applied) s.(release_ready)
    s.(release_results) s.(docker_images_built) s.(helm_charts_released)
    s.(terraform_applied) s.(status) v.

(** ** The environment

    Everything outside the interpreter that the nodes touch.  [W] is the
    state of the outside world (file system, image store, clock). *)

Inductive Exn : Type :=
| KeyError (key : string)
| IndexError
| OSError (msg : string).

(** [subprocess.run(...)] either completes, with a return code and the two
    captured streams, or raises (missing binary, bad working directory,
    time-out); the text of the exception is kept. *)
Definition ProcResult : Type := (Z * string * string) + string.

Class OS (W : Type) : Type := {
  (** [os.path.exists], [os.path.islink], [os.path.abspath] *)
  path_exists : string -> W -> bool;
  path_islink : string -> W -> bool;
  path_abspath : string -> W -> string;
  (** [os.scandir] as [os.walk] uses it: the sub-directory names and the
      other names of a directory, [None] when it cannot be listed. *)
  scandir : string -> W -> option (list string * list string);
  (** [open(p, 'r').read()] (text mode, newlines already translated) and
      [open(p, 'w').write(c)]; [None] when [open] raises. *)
  read_text : string -> W -> option string;
  write_text : string -> string -> W -> option W;
  (** [subprocess.run(cmd, cwd=cwd, ...)] *)
  subprocess_run : list string -> option string -> W -> ProcResult * W;
  (** [datetime.now()] and its two renderings *)
  datetime_now : W -> nat * W;
  isoformat : nat -> string;
  strftime : string -> nat -> string;
  (** The order in which a [set] built from a list is iterated. *)
  set_iter : list string -> list string;
  set_iter_nodup : forall l, NoDup (set_iter l);
  set_iter_in : forall l x, In x (set_iter l) <-> In x l
}.

(** Side effects are also recorded, in the order they happen: every
    external command with what came back, and every file written. *)
Inductive Event : Type :=
| EvRun (cmd : list string) (cwd : option string) (r : ProcResult)
| EvWrite (path content : string).

(** [returncode == 0] for a completed process, [False] for one that raised:
    the first component of what [run_command] returns. *)
Definition proc_passed (r : ProcResult) : bool :=
  match r with
  | inl (rc, _, _) => Z.eqb rc 0
  | inr _ => false
  end.

(** The second and third components of what [run_command] returns. *)
Definition proc_stdout (r : ProcResult) : string :=
  match r with
  | inl (_, out, _) => out
  | inr _ => ""
  end.

Definition proc_stderr (r : ProcResult) : string :=
  match r with
  | inl (_, _, err) => err
  | inr msg => msg
  end.

Record Sys (W : Type) : Type := mkSys {
  world : W;
  trace : list Event
}.
Arguments mkSys {W} _ _.
Arguments world {W} _.
Arguments trace {W} _.

(** A computation returns, raises, or is cut off when its loop budget is
    spent (the loops of the source carry no bound of their own). *)
Inductive Outcome (W A : Type) : Type :=
| Ok (a : A) (s : Sys W)
| Raise (e : Exn) (s : Sys W)
| OutOfFuel.
Arguments Ok {W A} _ _.
Arguments Raise {W A} _ _.
Arguments OutOfFuel {W A}.

Definition M (W A : Type) : Type := Sys W -> Outcome W A.

Definition ret {W A} (a : A) : M W A := fun s => Ok a s.

Definition bind {W A B} (c : M W A) (k : A -> M W B) : M W B :=
  fun s =>
    match c s with
    | Ok a s' => k a s'
    | Raise e s' => Raise e s'
    | OutOfFuel => OutOfFuel
    end.

Definition raise {W A} (e : Exn) : M W A := fun s => Raise e s.

Definition out_of_fuel {W A} : M W A := fun _ => OutOfFuel.

Declare Scope py_scope.
Delimit Scope py_scope with py.
Notation "x <- c ;; k" := (bind c (fun x => k))
  (at level 61, c at next level, right associativity) : py_scope.
Notation "' pat <- c ;; k" := (bind c (fun x => match x with pat => k end))
  (at level 61, pat pattern, c at next level, right associativity) : py_scope.
Notation "c ;;; k" := (bind c (fun _ => k))
  (at level 61, right associativity) : py_scope.
Open Scope py_scope.

(** [for x in xs: acc = f(acc, x)] *)
Fixpoint for_each {W A B} (f : A -> B -> M W A) (acc : A) (xs : list B)
  : M W A :=
  match xs with
  | [] => ret acc
  | x :: r => acc' <- f acc x ;; for_each f acc' r
  end.

(** A pure step that may raise. *)
Definition lift {W A} (r : Exn + A) : M W A :=
  match r with
  | inl e => raise e
  | inr a => ret a
  end.

Section Primitives.
Context {W : Type} {os : OS W}.

Definition exists_ (p : string) : M W bool :=
  fun s => Ok (path_exists p (world s)) s.

Definition islink (p : string) : M W bool :=
  fun s => Ok (path_islink p (world s)) s.

Definition abspath (p : string) : M W string :=
  fun s => Ok (path_abspath p (world s)) s.

Definition listdir (p : string) : M W (option (list string * list string)) :=
  fun s => Ok (scandir p (world s)) s.

Definition read_file (p : string) : M W string :=
  fun s =>
    match read_text p (world s) with
    | Some c => Ok c s
    | None => Raise (OSError p) s
    end.

Definition write_file (p c : string) : M W unit :=
  fun s =>
    match write_text p c (world s) with
    | Some w' => Ok tt (mkSys w' (trace s ++ [EvWrite p c])%list)
    | None => Raise (OSError p) s
    end.

Definition run_process (cmd : list string) (cwd : option string)
  : M W ProcResult :=
  fun s =>
    let '(r, w') := subprocess_run cmd cwd (world s) in
    Ok r (mkSys w' (trace s ++ [EvRun cmd cwd r])%list).

Definition now : M W nat :=
  fun s =>
    let '(t, w') := datetime_now (world s) in
    Ok t (mkSys w' (trace s)).

(** [run_command] of [validators.py] and [release.py]:
    [try: result = subprocess.run(...); return result.returncode == 0,
     result.stdout, result.stderr
     except Exception as e: return False, "", str(e)] *)
Definition run_command (cmd : list string) (cwd : option string)
  : M W (bool * string * string) :=
  r <- run_process cmd cwd ;;
  match r with
  | inl (rc, out, err) => ret (Z.eqb rc 0, out, err)
  | inr msg => ret (false, "", msg)
  end.

(** [subprocess.run] called without a handler, as [fix_terraform] does. *)
Definition run_unguarded (cmd : list string) (cwd : option string)
  : M W unit :=
  r <- run_process cmd cwd ;;
  match r with
  | inl _ => ret tt
  | inr msg => raise (OSError msg)
  end.

(** [os.walk(top)], top-down.  [prune] is what the caller does to [dirs]
    in place before the walk descends, [body] is the loop body. *)
Fixpoint walk {A} (fuel : nat) (prune : list string -> list string)
  (body : A -> string * list string * list string -> M W A)
  (top : string) (acc : A) : M W A :=
  match fuel with
  | O => out_of_fuel
  | S n =>
      listing <- listdir top ;;
      match listing with
      | None => ret acc
      | Some (dirs, nondirs) =>
          acc' <- body acc (top, prune dirs, nondirs) ;;
          for_each
            (fun a d =>
               let new_path := OsPath.join top d in
               l <- islink new_path ;;
               if l then ret a else walk n prune body new_path a)
            acc' (prune dirs)
      end
  end.

End Primitives.

(** ** [nodes/discovery.py] *)

Definition is_terraform_file (p : string) : bool :=
  PyStr.endswith p ".tf" || PyStr.endswith p ".tfvars".

Definition is_docker_file (p : string) : bool :=
  let basename := PyStr.lower (OsPath.basename p) in
  PyStr.startswith basename "dockerfile"
  || PyStr.contains "docker-compose" basename.

Definition is_helm_file (p : string) : bool :=
  let basename := OsPath.basename p in
  existsb (String.eqb (PyStr.lower basename))
    ["chart.yaml"; "values.yaml"; "requirements.yaml"]
  || PyStr.contains "/templates/" (PyStr.lower p).

(** [d[k].append(x)] *)
Definition dict_append (k x : string) (d : Dict.t (list string))
  : Exn + Dict.t (list string) :=
  match Dict.get k d with
  | Some l => inr (Dict.set k (l ++ [x])%list d)
  | None => inl (KeyError k)
  end.

(** The [if]/[elif] chain of [discover_files] for one path. *)
Definition classify (full_path : string) (discovered : Dict.t (list string))
  : Exn + Dict.t (list string) :=
  if is_terraform_file full_path then dict_append "terraform" full_path discovered
  else if is_docker_file full_path then dict_append "docker" full_path discovered
  else if is_helm_file full_path then dict_append "helm" full_path discovered
  else inr discovered.

Definition keep_dir (d : string) : bool :=
  negb (PyStr.startswith d ".") && negb (String.eqb d "node_modules").

(** [state["files"][k]] *)
Definition files_of (k : string) (state : CICDState) : Exn + list string :=
  match Dict.get k state.(files) with
  | Some l => inr l
  | None => inl (KeyError k)
  end.

Section Nodes.
Context {W : Type} {os : OS W}.

Definition discover_files (fuel : nat) (state : CICDState)
  : M W CICDState :=
  discovered <-
    for_each
      (fun discovered path =>
         e <- exists_ path ;;
         if negb e then ret discovered
         else
           walk fuel (filter keep_dir)
             (fun discovered '(root, _, fs) =>
                for_each
                  (fun discovered file =>
                     lift (classify (OsPath.join root file) discovered))
                  discovered fs)
             path discovered)
      [("terraform", []); ("docker", []); ("helm", [])]
      state.(user_paths) ;;
  ret (set_files discovered state).

(** ** Chart directories

    [validate_helm], [fix_helm] and [release_helm] each carry the same
    loop:
    [chart_dir = os.path.dirname(f)
     while chart_dir and not os.path.exists(os.path.join(chart_dir, "Chart.yaml")):
         chart_dir = os.path.dirname(chart_dir)
     if chart_dir: chart_dirs.add(chart_dir)]
    One unit of [fuel] pays for one test of the loop condition. *)
Fixpoint nearest_chart_dir (fuel : nat) (chart_dir : string) : M W string :=
  match fuel with
  | O => out_of_fuel
  | S n =>
      if String.eqb chart_dir "" then ret chart_dir
      else
        e <- exists_ (OsPath.join chart_dir "Chart.yaml") ;;
        if e then ret chart_dir
        else nearest_chart_dir n (OsPath.dirname chart_dir)
  end.

Definition chart_dirs_of (fuel : nat) (fs : list string)
  : M W (list string) :=
  found <-
    for_each
      (fun chart_dirs f =>
         chart_dir <- nearest_chart_dir fuel (OsPath.dirname f) ;;
         if String.eqb chart_dir "" then ret chart_dirs
         else ret (chart_dirs ++ [chart_dir])%list)
      [] fs ;;
  ret (set_iter found).

(** [find_chart_dirs] of [utils/helm.py], the same search with a guard:
    [parent = os.path.dirname(chart_dir)
     if parent == chart_dir: break] *)
Fixpoint guarded_chart_dir (fuel : nat) (chart_dir : string) : M W string :=
  match fuel with
  | O => out_of_fuel
  | S n =>
      if String.eqb chart_dir "" then ret chart_dir
      else
        e <- exists_ (OsPath.join chart_dir "Chart.yaml") ;;
        if e then ret chart_dir
        else
          let parent := OsPath.dirname chart_dir in
          if String.eqb parent chart_dir then ret chart_dir
          else guarded_chart_dir n parent
  end.

Definition find_chart_dirs (fuel : nat) (fs : list string)
  : M W (list string) :=
  found <-
    for_each
      (fun chart_dirs f =>
         chart_dir <- guarded_chart_dir fuel (OsPath.dirname f) ;;
         if String.eqb chart_dir "" then ret chart_dirs
         else
           e <- exists_ (OsPath.join chart_dir "Chart.yaml") ;;
           if e then ret (chart_dirs ++ [chart_dir])%list else ret chart_dirs)
      [] fs ;;
  ret (set_iter found).

(** ** [nodes/validators.py] *)

(** [stderr or stdout] *)
Definition or_else (stderr stdout : string) : string :=
  if String.eqb stderr "" then stdout else stderr.

Definition set_validation (k : string) (results : list ValidationResult)
  (state : CICDState) : CICDState :=
  set_validation_results (Dict.set k results state.(validation_results))
    state.

Definition validate_terraform (state : CICDState) : M W CICDState :=
  fs <- lift (files_of "terraform" state) ;;
  match fs with
  | [] => ret (set_validation "terraform" [] state)
  | _ =>
      let tf_dirs := set_iter (map OsPath.dirname fs) in
      results <-
        for_each
          (fun results tf_dir =>
             '(passed, stdout, stderr) <-
               run_command ["terraform"; "validate"] (Some tf_dir) ;;
             let r1 :=
               mkValidationResult tf_dir "terraform_validate" passed
                 (if passed then [] else [or_else stderr stdout]) [] in
             '(passed, stdout, stderr) <-
               run_command ["tflint"] (Some tf_dir) ;;
             let r2 :=
               mkValidationResult tf_dir "tflint" passed
                 (if passed then [] else [or_else stderr stdout])
                 (if passed then [] else [stdout]) in
             '(passed, stdout, stderr) <-
               run_command
                 ["checkov"; "-d"; "."; "--framework"; "terraform"; "--quiet"]
                 (Some tf_dir) ;;
             let r3 :=
               mkValidationResult tf_dir "checkov" passed
                 (if passed then [] else [or_else stderr stdout]) [] in
             ret (results ++ [r1; r2; r3])%list)
          [] tf_dirs ;;
      ret (set_validation "terraform" results state)
  end.

(** [os.path.dirname(dockerfile) or "."] *)
Definition docker_dir_of (dockerfile : string) : string :=
  let d := OsPath.dirname dockerfile in
  if String.eqb d "" then "." else d.

Definition validate_docker (state : CICDState) : M W CICDState :=
  fs <- lift (files_of "docker" state) ;;
  match fs with
  | [] => ret (set_validation "docker" [] state)
  | _ =>
      results <-
        for_each
          (fun results dockerfile =>
             let docker_dir := docker_dir_of dockerfile in
             '(passed, stdout, stderr) <-
               run_command ["hadolint"; dockerfile] None ;;
             let r1 :=
               mkValidationResult dockerfile "hadolint" passed
                 (if passed then [] else [or_else stderr stdout])
                 (if passed then [] else [stdout]) in
             '(passed, stdout, stderr) <-
               run_command
                 ["docker"; "build"; "--no-cache"; "-t"; "test-build"; "."]
                 (Some docker_dir) ;;
             let r2 :=
               mkValidationResult dockerfile "docker_build" passed
                 (if passed then [] else [or_else stderr stdout]) [] in
             (if passed
              then run_command ["docker"; "rmi"; "test-build"]
                     (Some docker_dir) ;;; ret tt
              else ret tt) ;;;
             ret (results ++ [r1; r2])%list)
          [] fs ;;
      ret (set_validation "docker" results state)
  end.

Definition validate_helm (fuel : nat) (state : CICDState) : M W CICDState :=
  fs <- lift (files_of "helm" state) ;;
  match fs with
  | [] => ret (set_validation "helm" [] state)
  | _ =>
      chart_dirs <- chart_dirs_of fuel fs ;;
      results <-
        for_each
          (fun results chart_dir =>
             '(passed, stdout, stderr) <-
               run_command ["helm"; "lint"; chart_dir] None ;;
             let r1 :=
               mkValidationResult chart_dir "helm_lint" passed
                 (if passed then [] else [or_else stderr stdout])
                 (if passed then [] else [stdout]) in
             '(passed, stdout, stderr) <-
               run_command ["helm"; "template"; chart_dir] None ;;
             let r2 :=
               mkValidationResult chart_dir "helm_template" passed
                 (if passed then [] else [or_else stderr stdout]) [] in
             ret (results ++ [r1; r2])%list)
          [] chart_dirs ;;
      ret (set_validation "helm" results state)
  end.

End Nodes.

(** ** [nodes/decision.py] *)

(** [f"[{tool}] {file_path}: {', '.join(errors)}"] *)
Definition error_line (result : ValidationResult) : string :=
  "[" ++ result.(tool) ++ "] " ++ result.(file_path) ++ ": "
  ++ PyStr.join ", " result.(errors).

(** [if p not in d: d[p] = []] followed by [d[p].extend(xs)] *)
Definition dict_extend (p : string) (xs : list string)
  (d : Dict.t (list string)) : Dict.t (list string) :=
  match Dict.get p d with
  | Some l => Dict.set p (l ++ xs)%list d
  | None => Dict.set p xs d
  end.

(** The body of the inner loop of [collect_errors]; the accumulator is the
    pair [(collected, errors_by_file)]. *)
Definition collect_result (file_type : string)
  (acc : Dict.t (list string) * Dict.t (list string))
  (result : ValidationResult)
  : Exn + (Dict.t (list string) * Dict.t (list string)) :=
  let '(collected, by_file) := acc in
  if negb result.(passed) then
    match dict_append file_type (error_line result) collected with
    | inl e => inl e
    | inr collected' =>
        inr (collected', dict_extend result.(file_path) result.(errors) by_file)
    end
  else inr acc.

(** A [for] loop whose body may raise. *)
Fixpoint fold_exn {A B} (f : A -> B -> Exn + A) (acc : A) (xs : list B)
  : Exn + A :=
  match xs with
  | [] => inr acc
  | x :: r =>
      match f acc x with
      | inl e => inl e
      | inr acc' => fold_exn f acc' r
      end
  end.

(** The two dicts [collect_errors] builds from [validation_results]. *)
Definition aggregate (vr : Dict.t (list ValidationResult))
  : Exn + (Dict.t (list string) * Dict.t (list string)) :=
  fold_exn
    (fun acc '(file_type, results) =>
       fold_exn (collect_result file_type) acc results)
    ([("terraform", []); ("docker", []); ("helm", [])], [])
    vr.

Definition collect_errors (state : CICDState) : Exn + CICDState :=
  match aggregate state.(validation_results) with
  | inl e => inl e
  | inr (collected, by_file) =>
      inr (set_all_validations_complete true
             (set_errors_by_file by_file
                (set_collected_errors collected state)))
  end.

(** [sum(len(errs) for errs in state["collected_errors"].values())] *)
Definition total_errors (state : CICDState) : nat :=
  list_sum (map (@List.length string) (Dict.values state.(collected_errors))).

(** [state["collected_errors"].get(file_type, [])] *)
Definition errors_of (file_type : string) (state : CICDState) : list string :=
  match Dict.get file_type state.(collected_errors) with
  | Some l => l
  | None => []
  end.

(** [state["fix_attempts"].get(file_type, {}).get("attempts", 0)] and
    [... .get("max_attempts", 3)] *)
Definition attempts_of (file_type : string) (state : CICDState) : Z :=
  match Dict.get file_type state.(fix_attempts) with
  | Some a => a.(attempts)
  | None => 0
  end.

Definition max_attempts_of (file_type : string) (state : CICDState) : Z :=
  match Dict.get file_type state.(fix_attempts) with
  | Some a => a.(max_attempts)
  | None => 3
  end.

(** One round of the loop over the three categories: the new [needs_fix]. *)
Definition check_category (state : CICDState) (needs_fix : bool)
  (file_type : string) : bool :=
  match errors_of file_type state with
  | [] => needs_fix
  | _ :: _ =>
      if (attempts_of file_type state <? max_attempts_of file_type state)%Z
      then true
      else needs_fix
  end.

Definition categories : list string := ["terraform"; "docker"; "helm"].

Definition str_of_nat (n : nat) : string :=
  NilZero.string_of_uint (Nat.to_uint n).

(** [decide_next_action] : the label it returns and the state it leaves. *)
Definition decide_next_action (state : CICDState) : string * CICDState :=
  let total := total_errors state in
  if Nat.eqb total 0 then ("release", set_release_ready true state)
  else
    let needs_fix := fold_left (check_category state) categories false in
    if needs_fix then ("fix", set_status "fixing" state)
    else
      ("fail",
       set_error_message
         (Some ("Max fix attempts reached. Errors remain: " ++ str_of_nat total))
         (set_status "failed" state)).

Definition prepare_release (state : CICDState) : CICDState :=
  set_status "releasing" (set_release_ready true state).

Definition fail_workflow (state : CICDState) : CICDState :=
  set_status "failed" state.

(** ** [nodes/fixers.py] : the budget *)

Definition get_or_create_fix_attempt (state : CICDState) (ft : string)
  : FixAttempt * CICDState :=
  match Dict.get ft state.(fix_attempts) with
  | Some a => (a, state)
  | None =>
      let a := mkFixAttempt ft 0 3 None in
      (a, set_fix_attempts (Dict.set ft a state.(fix_attempts)) state)
  end.

Definition can_attempt_fix (state : CICDState) (ft : string)
  : bool * CICDState :=
  let '(attempt, state') := get_or_create_fix_attempt state ft in
  ((attempt.(attempts) <? attempt.(max_attempts))%Z, state').

(** ** [nodes/fixers.py] : the text edits *)

(** [if 'required_providers' not in content and 'provider ' in content:
       content = content.replace('provider "', 'terraform {...}\n\nprovider "')] *)
Definition fix_tf_content (content : string) : string :=
  if negb (PyStr.contains "required_providers" content)
     && PyStr.contains "provider " content
  then
    PyStr.replace ("provider " ++ PyStr.dquote)
      ("terraform {" ++ PyStr.nl ++ "  required_providers {" ++ PyStr.nl
       ++ "    # Providers will be auto-detected" ++ PyStr.nl ++ "  }"
       ++ PyStr.nl ++ "}" ++ PyStr.nl ++ PyStr.nl ++ "provider "
       ++ PyStr.dquote)
      content
  else content.

Definition base_image_updates : list (string * string) :=
  [("FROM python:", "FROM python:3.11-slim");
   ("FROM node:", "FROM node:20-alpine");
   ("FROM ubuntu:", "FROM ubuntu:22.04");
   ("FROM alpine:", "FROM alpine:3.18")].

(** [xs[i]] *)
Definition item {A} (xs : list A) (i : nat) : Exn + A :=
  match nth_error xs i with
  | Some x => inr x
  | None => inl IndexError
  end.

(** One round of the loop over [base_image_updates.items()]:
    [if line.strip().startswith('FROM') and old in line:
         if 'latest' not in line and ':' not in line.split(old)[1].split()[0]:
             line = line.replace(old.split(':')[0] + ':', new)] *)
Definition update_base_image (line : string) (entry : string * string)
  : Exn + string :=
  let '(old, new) := entry in
  if PyStr.startswith (PyStr.strip line) "FROM" && PyStr.contains old line
  then
    if negb (PyStr.contains "latest" line) then
      match item (PyStr.split old line) 1 with
      | inl e => inl e
      | inr rest =>
          match item (PyStr.split_ws rest) 0 with
          | inl e => inl e
          | inr tag =>
              if negb (PyStr.contains ":" tag) then
                match item (PyStr.split ":" old) 0 with
                | inl e => inl e
                | inr name => inr (PyStr.replace (name ++ ":") new line)
                end
              else inr line
          end
      end
    else inr line
  else inr line.

Definition is_from (line : string) : bool :=
  PyStr.startswith (PyStr.strip line) "FROM".

Definition is_cmd (line : string) : bool :=
  PyStr.startswith (PyStr.strip line) "CMD"
  || PyStr.startswith (PyStr.strip line) "ENTRYPOINT".

(** The body of [for line in lines] in [fix_docker]: what is appended to
    [fixed_lines] for one line of the file [lines]. *)
Definition fix_docker_line (lines : list string) (fixed_lines : list string)
  (line : string) : Exn + list string :=
  match fold_exn update_base_image line base_image_updates with
  | inl e => inl e
  | inr line =>
      if is_from line && negb (existsb (PyStr.contains "WORKDIR") lines)
      then inr (fixed_lines ++ [line; ("WORKDIR /app" ++ PyStr.nl)%string])%list
      else
        let fixed_lines :=
          if is_cmd line && negb (existsb (PyStr.contains "USER") lines)
          then (fixed_lines ++ [("USER 1000" ++ PyStr.nl)%string])%list
          else fixed_lines in
        inr (fixed_lines ++ [line])%list
  end.

(** [f.readlines()] : the lines of a text, each with its line feed. *)
Fixpoint readlines_from (cur s : string) : list string :=
  match s with
  | EmptyString => if String.eqb cur "" then [] else [cur]
  | String c t =>
      if Ascii.eqb c (ascii_of_nat 10)
      then (cur ++ String c "") :: readlines_from "" t
      else readlines_from (cur ++ String c "") t
  end.

Definition readlines (content : string) : list string :=
  readlines_from "" content.

(** [f.writelines(xs)] writes the concatenation. *)
Definition fix_dockerfile (content : string) : Exn + string :=
  let lines := readlines content in
  match fold_exn (fix_docker_line lines) [] lines with
  | inl e => inl e
  | inr fixed_lines => inr (String.concat "" fixed_lines)
  end.

(** The loop over [required_fields] in [fix_helm], unrolled in its order
    [apiVersion:], [name:], [version:]. *)
Definition fix_chart_content (chart_dir content : string) : string :=
  let content :=
    if negb (PyStr.contains "apiVersion:" content)
    then "apiVersion: v2" ++ PyStr.nl ++ content
    else content in
  let content :=
    if negb (PyStr.contains "name:" content)
    then content ++ PyStr.nl ++ "name: " ++ OsPath.basename chart_dir
         ++ PyStr.nl
    else content in
  let content :=
    if negb (PyStr.contains "version:" content)
    then content ++ PyStr.nl ++ "version: 0.1.0" ++ PyStr.nl
    else content in
  content.

Section Effects.
Context {W : Type} {os : OS W}.

(** ** [nodes/fixers.py] : the nodes *)

Definition increment_fix_attempt (state : CICDState) (ft : string)
  : M W CICDState :=
  let '(attempt, state) := get_or_create_fix_attempt state ft in
  t <- now ;;
  let attempt' :=
    mkFixAttempt attempt.(file_type) (attempt.(attempts) + 1)
      attempt.(max_attempts) (Some (isoformat t)) in
  ret (set_fix_attempts (Dict.set ft attempt' state.(fix_attempts)) state).

(** The tail shared by the three fixers:
    [increment_fix_attempt(state, ft); state["files_fixed"].extend(files);
     state["fix_applied"] = True] *)
Definition finish_fix (ft : string) (fs : list string) (state : CICDState)
  : M W CICDState :=
  state <- increment_fix_attempt state ft ;;
  ret (set_fix_applied true
         (set_files_fixed (state.(files_fixed) ++ fs) state)).

(** In [fix_terraform] the name [files] is bound again by
    [for root, dirs, files in os.walk(tf_dir)], so the list that reaches
    [files_fixed] is the one of the last directory visited; the loops
    thread it as their accumulator. *)
Definition fix_terraform (fuel : nat) (state : CICDState) : M W CICDState :=
  let '(can, state) := can_attempt_fix state "terraform" in
  if negb can then ret state
  else
    fs <- lift (files_of "terraform" state) ;;
    match fs with
    | [] => ret state
    | _ =>
        let tf_dirs := set_iter (map OsPath.dirname fs) in
        fs <-
          for_each
            (fun fs tf_dir =>
               run_unguarded ["terraform"; "fmt"; "-recursive"]
                 (Some tf_dir) ;;;
               walk fuel (fun dirs => dirs)
                 (fun _ '(root, _, fs) =>
                    for_each
                      (fun _ file =>
                         if PyStr.endswith file ".tf" then
                           let file_path := OsPath.join root file in
                           content <- read_file file_path ;;
                           write_file file_path (fix_tf_content content)
                         else ret tt)
                      tt fs ;;;
                    ret fs)
                 tf_dir fs)
            fs tf_dirs ;;
        finish_fix "terraform" fs state
    end.

Definition fix_docker (state : CICDState) : M W CICDState :=
  let '(can, state) := can_attempt_fix state "docker" in
  if negb can then ret state
  else
    fs <- lift (files_of "docker" state) ;;
    match fs with
    | [] => ret state
    | _ =>
        for_each
          (fun _ dockerfile =>
             content <- read_file dockerfile ;;
             fixed <- lift (fix_dockerfile content) ;;
             write_file dockerfile fixed)
          tt fs ;;;
        finish_fix "docker" fs state
    end.

Definition fix_helm (fuel : nat) (state : CICDState) : M W CICDState :=
  let '(can, state) := can_attempt_fix state "helm" in
  if negb can then ret state
  else
    fs <- lift (files_of "helm" state) ;;
    match fs with
    | [] => ret state
    | _ =>
        chart_dirs <- chart_dirs_of fuel fs ;;
        for_each
          (fun _ chart_dir =>
             let chart_yaml := OsPath.join chart_dir "Chart.yaml" in
             e <- exists_ chart_yaml ;;
             if e then
               content <- read_file chart_yaml ;;
               write_file chart_yaml (fix_chart_content chart_dir content)
             else ret tt)
          tt chart_dirs ;;;
        finish_fix "helm" fs state
    end.

(** ** [nodes/release.py] *)

Definition set_release (k : string) (r : ReleaseResult) (state : CICDState)
  : CICDState :=
  set_release_results (Dict.set k r state.(release_results)) state.

Definition skipped : ReleaseResult :=
  mkReleaseResult "skipped" None None None.

(** ["success" if xs else "failed"] *)
Definition success_if_any (xs : list string) : string :=
  match xs with
  | [] => "failed"
  | _ :: _ => "success"
  end.

(** The body of [for dockerfile in files] in [release_docker]. *)
Definition build_image (timestamp : string) (built_images : list string)
  (dockerfile : string) : M W (list string) :=
  let docker_dir := docker_dir_of dockerfile in
  abs <- abspath docker_dir ;;
  let image_name := PyStr.lower (OsPath.basename abs) in
  let tag := (image_name ++ ":" ++ timestamp)%string in
  '(passed, _, _) <-
    run_command ["docker"; "build"; "-t"; tag; "."] (Some docker_dir) ;;
  if passed then ret (built_images ++ [tag])%list
  else ret built_images.

Definition release_docker (state : CICDState) : M W CICDState :=
  fs <- lift (files_of "docker" state) ;;
  match fs with
  | [] => ret (set_release "docker" skipped state)
  | _ =>
      t <- now ;;
      let timestamp := strftime "%Y%m%d_%H%M%S" t in
      built_images <- for_each (build_image timestamp) [] fs ;;
      ret (set_release "docker"
             (mkReleaseResult (success_if_any built_images)
                (Some built_images) None None)
             (set_docker_images_built built_images state))
  end.

(** The body of [for chart_dir in chart_dirs] in [release_helm]. *)
Definition package_chart (released_charts : list string)
  (chart_dir : string) : M W (list string) :=
  let chart_name := OsPath.basename chart_dir in
  '(passed, _, _) <-
    run_command ["helm"; "package"; chart_dir; "--destination"; "./dist"]
      None ;;
  if passed then ret (released_charts ++ [chart_name])%list
  else ret released_charts.

Definition release_helm (fuel : nat) (state : CICDState) : M W CICDState :=
  fs <- lift (files_of "helm" state) ;;
  match fs with
  | [] => ret (set_release "helm" skipped state)
  | _ =>
      chart_dirs <- chart_dirs_of fuel fs ;;
      released_charts <- for_each package_chart [] chart_dirs ;;
      ret (set_release "helm"
             (mkReleaseResult (success_if_any released_charts)
                None (Some released_charts) None)
             (set_helm_charts_released released_charts state))
  end.

Definition tf_failed (stderr : string) : ReleaseResult :=
  mkReleaseResult "failed" None None (Some stderr).

Definition tf_success : ReleaseResult :=
  mkReleaseResult "success" None None None.

(** The loop [for tf_dir in tf_dirs] of [release_terraform]; [inl] is the
    state at one of the two [return state] inside the loop, [inr] the
    state when the loop runs to its end. *)
Fixpoint release_tf_dirs (tf_dirs : list string) (state : CICDState)
  : M W (CICDState + CICDState) :=
  match tf_dirs with
  | [] => ret (inr state)
  | tf_dir :: rest =>
      '(passed, _, stderr) <-
        run_command ["terraform"; "plan"; "-out=tfplan"] (Some tf_dir) ;;
      if passed then
        '(passed, _, stderr) <-
          run_command ["terraform"; "apply"; "-auto-approve"; "tfplan"]
            (Some tf_dir) ;;
        if passed then
          release_tf_dirs rest (set_terraform_applied true state)
        else ret (inl (set_release "terraform" (tf_failed stderr) state))
      else ret (inl (set_release "terraform" (tf_failed stderr) state))
  end.

Definition release_terraform (state : CICDState) : M W CICDState :=
  fs <- lift (files_of "terraform" state) ;;
  match fs with
  | [] => ret (set_release "terraform" skipped state)
  | _ =>
      let tf_dirs := set_iter (map OsPath.dirname fs) in
      r <- release_tf_dirs tf_dirs state ;;
      match r with
      | inl state => ret state
      | inr state => ret (set_release "terraform" tf_success state)
      end
  end.

End Effects.

(** ** [graph.py]

    The nodes that [build_cicd_graph] registers, each with its function. *)

Inductive Node : Type :=
| n_discover
| n_validate_terraform
| n_validate_docker
| n_validate_helm
| n_collect_errors
| n_decide
| n_fix_terraform
| n_fix_docker
| n_fix_helm
| n_prepare_release
| n_release_docker
| n_release_helm
| n_release_terraform
| n_fail.

Section Graph.
Context {W : Type} {os : OS W}.

(** What the function behind each node makes of the state it is called
    on.  [decide_next_action] returns a label; what it leaves in the
    state dict is what is kept here. *)
Definition run_node (fuel : nat) (n : Node) (state : CICDState)
  : M W CICDState :=
  match n with
  | n_discover => discover_files fuel state
  | n_validate_terraform => validate_terraform state
  | n_validate_docker => validate_docker state
  | n_validate_helm => validate_helm fuel state
  | n_collect_errors => lift (collect_errors state)
  | n_decide => ret (snd (decide_next_action state))
  | n_fix_terraform => fix_terraform fuel state
  | n_fix_docker => fix_docker state
  | n_fix_helm => fix_helm fuel state
  | n_prepare_release => ret (prepare_release state)
  | n_release_docker => release_docker state
  | n_release_helm => release_helm fuel state
  | n_release_terraform => release_terraform state
  | n_fail => ret (fail_workflow state)
  end.

(** The loop of [run_cicd_agent] over the three categories:
    [initial_state["fix_attempts"][ft] = {"file_type": ft, "attempts": 0,
     "max_attempts": max_fix_attempts, "last_fix_time": None}] *)
Definition seed_fix_attempts (max_fix_attempts : Z) (state : CICDState)
  : CICDState :=
  fold_left
    (fun s ft =>
       set_fix_attempts
         (Dict.set ft (mkFixAttempt ft 0 max_fix_attempts None)
            s.(fix_attempts)) s)
    categories state.

(** ** [main.py]

    [try: result = run_cicd_agent(...); ...
          sys.exit(0 if result['status'] == 'success' else 1)
     except Exception as e: sys.exit(1)]
    as a function of how the call ended; a computation that is cut off has
    no exit code. *)
Definition exit_code (r : Outcome W CICDState) : option Z :=
  match r with
  | Ok result _ =>
      Some (if String.eqb result.(status) "success" then 0%Z else 1%Z)
  | Raise _ _ => Some 1%Z
  | OutOfFuel => None
  end.

End Graph.

(** ** [utils/docker.py] *)

(** The dict [updates] of [suggest_base_image_update], in its order. *)
Definition image_updates : list (string * string) :=
  [("python:3.8", "python:3.11-slim");
   ("python:3.9", "python:3.11-slim");
   ("python:3.10", "python:3.11-slim");
   ("node:14", "node:20-alpine");
   ("node:16", "node:20-alpine");
   ("node:18", "node:20-alpine");
   ("ubuntu:18.04", "ubuntu:22.04");
   ("ubuntu:20.04", "ubuntu:22.04");
   ("alpine:3.12", "alpine:3.18");
   ("alpine:3.14", "alpine:3.18");
   ("alpine:3.16", "alpine:3.18")].

(** [for old, new in updates.items(): if old in current_image: return new]
    and [return current_image] after the loop. *)
Fixpoint first_update (updates : list (string * string))
  (current_image : string) : string :=
  match updates with
  | [] => current_image
  | (old, new) :: rest =>
      if PyStr.contains old current_image then new
      else first_update rest current_image
  end.

Definition suggest_base_image_update (current_image : string) : string :=
  first_update image_updates current_image.


(** ** A concrete environment

    A flat file system (path, content) whose directories are the ancestors
    of its files, a verdict for every external command, and a clock that
    counts its readings.  The process runs in [/work]. *)

Module SimpleOS.

Record World : Type := mkWorld {
  fs : list (string * string);
  tools : list string -> option string -> bool;
  clock : nat
}.

Fixpoint dedup_str (l : list string) : list string :=
  match l with
  | [] => []
  | x :: r =>
      x :: filter (fun y => negb (String.eqb y x)) (dedup_str r)
  end.

Definition exists_in (p : string) (w : World) : bool :=
  existsb
    (fun e => String.eqb (fst e) p
              || PyStr.startswith (fst e) (p ++ "/"))
    w.(fs).

(** What follows the prefix [p/] in the paths below [p]. *)
Definition below (p : string) (w : World) : list string :=
  flat_map
    (fun e =>
       let q := (p ++ "/")%string in
       if PyStr.startswith (fst e) q
       then [String.substring (String.length q)
               (String.length (fst e) - String.length q) (fst e)]
       else [])
    w.(fs).

Fixpoint first_component (s : string) : string :=
  match s with
  | EmptyString => EmptyString
  | String c t =>
      if OsPath.is_slash c then EmptyString
      else String c (first_component t)
  end.

Definition scandir_in (p : string) (w : World)
  : option (list string * list string) :=
  match below p w with
  | [] => None
  | rests =>
      Some (dedup_str (map first_component
                         (filter OsPath.has_slash rests)),
            filter (fun r => negb (OsPath.has_slash r)) rests)
  end.

Definition abspath_in (p : string) (w : World) : string :=
  if String.eqb p "." then "/work"
  else if PyStr.startswith p "/" then p
  else "/work/" ++ p.

Definition write_in (p c : string) (w : World) : option World :=
  Some (mkWorld (Dict.set p c w.(fs)) w.(tools) w.(clock)).

Definition run_in (cmd : list string) (cwd : option string) (w : World)
  : ProcResult * World :=
  (inl ((if w.(tools) cmd cwd then 0 else 1)%Z, "", "tool failed"), w).

Definition now_in (w : World) : nat * World :=
  (w.(clock), mkWorld w.(fs) w.(tools) (S w.(clock))).

#[global] Instance simple_os : OS World.
Proof.
  refine {|
    path_exists := exists_in;
    path_islink := fun _ _ => false;
    path_abspath := abspath_in;
    scandir := scandir_in;
    read_text := fun p w => Dict.get p w.(fs);
    write_text := write_in;
    subprocess_run := run_in;
    datetime_now := now_in;
    isoformat := str_of_nat;
    strftime := fun _ t => str_of_nat t;
    set_iter := dedup_str
  |}.
  - induction l as [|x r IH]; simpl.
    + constructor.
    + constructor.
      * rewrite filter_In, String.eqb_refl. simpl. intros [_ H]. discriminate.
      * apply NoDup_filter, IH.
  - assert (forall l x, In x (dedup_str l) <-> In x l) as H.
    { induction l as [|y r IH]; intros x; simpl.
      - tauto.
      - rewrite filter_In, IH.
        destruct (String.eqb_spec x y) as [->|Hne]; simpl.
        + split; auto.
        + split.
          * intros [->|[Hin _]]; auto.
          * intros [->|Hin]; auto. }
    exact H.
Defined.

(** The same file system on a machine where no command can be started:
    [subprocess.run] raises [FileNotFoundError]. *)
Definition no_tools_os : OS World := {|
  path_exists := exists_in;
  path_islink := fun _ _ => false;
  path_abspath := abspath_in;
  scandir := scandir_in;
  read_text := fun p w => Dict.get p w.(fs);
  write_text := write_in;
  subprocess_run :=
    fun cmd _ w =>
      (inr ("No such file or directory: '" ++ hd "" cmd ++ "'"), w);
  datetime_now := now_in;
  isoformat := str_of_nat;
  strftime := fun _ t => str_of_nat t;
  set_iter := dedup_str;
  set_iter_nodup := @set_iter_nodup _ simple_os;
  set_iter_in := @set_iter_in _ simple_os
|}.

(** A world with the given files in which every tool gives [verdict]. *)
Definition uniform (files : list (string * string)) (verdict : bool)
  : Sys World :=
  mkSys (mkWorld files (fun _ _ => verdict) 0) [].

End SimpleOS.

(** ** Vocabulary of the properties

    Predicates in which the properties below are stated, and the sample
    states and worlds on which they are exercised. *)

(** [x] does not occur in [p]. *)
Fixpoint avoids (x : ascii) (p : string) : bool :=
  match p with
  | EmptyString => true
  | String c t => negb (Ascii.eqb c x) && avoids x t
  end.

(** Category [c] has errors and budget left. *)
Definition fixable (state : CICDState) (c : string) : Prop :=
  errors_of c state <> [] /\
  (attempts_of c state < max_attempts_of c state)%Z.

Definition fixableb (state : CICDState) (c : string) : bool :=
  match errors_of c state with
  | [] => false
  | _ :: _ => (attempts_of c state <? max_attempts_of c state)%Z
  end.

(** A state with one docker error and an untouched budget of three. *)
Definition one_docker_error : CICDState :=
  set_collected_errors
    [("terraform", []); ("docker", ["[hadolint] Dockerfile: DL3006"]);
     ("helm", [])]
    (create_initial_state ["."]).

(** The three category keys are in the dict. *)
Definition has_categories {V} (d : Dict.t V) : Prop :=
  forall c, In c categories -> Dict.get c d <> None.

(** Validation results with one failure in each of two categories, both
    for the same directory. *)
Definition two_failures : CICDState :=
  set_validation_results
    [("terraform",
      [mkValidationResult "svc" "tflint" false ["unused variable"] []]);
     ("docker", []);
     ("helm",
      [mkValidationResult "svc" "helm_lint" false ["icon missing"] [];
       mkValidationResult "svc" "helm_template" true [] []])]
    (create_initial_state ["svc"]).

Definition two_failures_collected : CICDState :=
  set_all_validations_complete true
    (set_errors_by_file [("svc", ["unused variable"; "icon missing"])]
       (set_collected_errors
          [("terraform", ["[tflint] svc: unused variable"]);
           ("docker", []);
           ("helm", ["[helm_lint] svc: icon missing"])]
          two_failures)).

(** The state of a run whose docker budget of two is spent. *)
Definition docker_budget_spent : CICDState :=
  set_fix_attempts
    [("terraform", mkFixAttempt "terraform" 0 2 None);
     ("docker", mkFixAttempt "docker" 2 2 (Some "1"));
     ("helm", mkFixAttempt "helm" 0 2 None)]
    (set_files
       [("terraform", []); ("docker", ["app/Dockerfile"]); ("helm", [])]
       (create_initial_state ["app"])).

Definition api_version_line : string := "apiVersion: v2" ++ PyStr.nl.

Definition name_line (chart_dir : string) : string :=
  PyStr.nl ++ "name: " ++ OsPath.basename chart_dir ++ PyStr.nl.

Definition version_line : string := PyStr.nl ++ "version: 0.1.0" ++ PyStr.nl.

(** The claim read literally: every absent field is put in with its
    default. *)
Definition inserted_defaults (chart_dir content fixed : string) : Prop :=
  (PyStr.contains "apiVersion:" content = false ->
   PyStr.contains "apiVersion: v2" fixed = true) /\
  (PyStr.contains "name:" content = false ->
   PyStr.contains ("name: " ++ OsPath.basename chart_dir) fixed = true) /\
  (PyStr.contains "version:" content = false ->
   PyStr.contains "version: 0.1.0" fixed = true).

(** The state after a fix round of category [ft] that records the time
    [t] and the file list [fs]. *)
Definition fixed_state (ft t : string) (fs : list string) (state : CICDState)
  : CICDState :=
  let '(attempt, state) := get_or_create_fix_attempt state ft in
  let state :=
    set_fix_attempts
      (Dict.set ft
         (mkFixAttempt attempt.(file_type) (attempt.(attempts) + 1)
            attempt.(max_attempts) (Some t))
         state.(fix_attempts))
      state in
  set_fix_applied true (set_files_fixed (state.(files_fixed) ++ fs) state).

(** The writes a node may leave in the state. *)
Inductive node_effect : CICDState -> CICDState -> Prop :=
| eff_files d st :
    node_effect st (set_files d st)
| eff_validation k rs st :
    node_effect st (set_validation k rs st)
| eff_collect c b st :
    node_effect st
      (set_all_validations_complete true
         (set_errors_by_file b (set_collected_errors c st)))
| eff_decide st :
    node_effect st (snd (decide_next_action st))
| eff_fix_skip ft st :
    node_effect st (snd (can_attempt_fix st ft))
| eff_fix ft t fs st :
    fst (can_attempt_fix st ft) = true ->
    node_effect st (fixed_state ft t fs (snd (can_attempt_fix st ft)))
| eff_prepare st :
    node_effect st (prepare_release st)
| eff_fail st :
    node_effect st (fail_workflow st)
| eff_release k r st :
    node_effect st (set_release k r st)
| eff_release_docker r imgs st :
    node_effect st (set_release "docker" r (set_docker_images_built imgs st))
| eff_release_helm r cs st :
    node_effect st (set_release "helm" r (set_helm_charts_released cs st))
| eff_release_terraform r st :
    node_effect st (set_release "terraform" r (set_terraform_applied true st)).

Definition plan_cmd : list string := ["terraform"; "plan"; "-out=tfplan"].

Definition apply_cmd : list string :=
  ["terraform"; "apply"; "-auto-approve"; "tfplan"].

(** The record of a directory whose plan and apply both ran. *)
Definition planned_applied (e : string * (ProcResult * ProcResult))
  : list Event :=
  let '(d, (rp, ra)) := e in
  [EvRun plan_cmd (Some d) rp; EvRun apply_cmd (Some d) ra].

Definition both_passed (r : ProcResult * ProcResult) : Prop :=
  proc_passed (fst r) = true /\ proc_passed (snd r) = true.

(** [state["terraform_applied"]] once [n] directories have been applied. *)
Definition applied_after (n : nat) (state : CICDState) : CICDState :=
  match n with
  | O => state
  | S _ => set_terraform_applied true state
  end.

(** What a run of the loop over [dirs] looks like when its first [n]
    directories went through with the results [rs]: [evs] is what it added
    to the record of side effects and [r] what it returned. *)
Definition tf_outcome (dirs : list string) (n : nat)
  (rs : list (ProcResult * ProcResult)) (state : CICDState)
  (evs : list Event) (r : CICDState + CICDState) : Prop :=
  let done := flat_map planned_applied (combine (firstn n dirs) rs) in
  (n = List.length dirs /\ evs = done /\ r = inr (applied_after n state))
  \/
  (exists d rp,
      nth_error dirs n = Some d /\ proc_passed rp = false
      /\ evs = (done ++ [EvRun plan_cmd (Some d) rp])%list
      /\ r = inl (set_release "terraform" (tf_failed (proc_stderr rp))
                    (applied_after n state)))
  \/
  (exists d rp ra,
      nth_error dirs n = Some d
      /\ proc_passed rp = true /\ proc_passed ra = false
      /\ evs = (done ++ [EvRun plan_cmd (Some d) rp;
                         EvRun apply_cmd (Some d) ra])%list
      /\ r = inl (set_release "terraform" (tf_failed (proc_stderr ra))
                    (applied_after n state))).

(** Three Terraform files in two directories; every tool passes except in
    directory [b]. *)
Definition two_tf_dirs : CICDState :=
  set_files
    [("terraform", ["a/main.tf"; "b/main.tf"; "a/vars.tf"]);
     ("docker", []); ("helm", [])]
    (create_initial_state ["."]).

Definition fails_in_b : Sys SimpleOS.World :=
  mkSys
    (SimpleOS.mkWorld
       [("a/main.tf", ""); ("b/main.tf", ""); ("a/vars.tf", "")]
       (fun _ cwd =>
          match cwd with
          | Some d => negb (String.eqb d "b")
          | None => true
          end)
       0)
    [].

Definition ev_passed (ev : Event) : bool :=
  match ev with
  | EvRun _ _ r => proc_passed r
  | EvWrite _ _ => false
  end.

Definition all_failed (evs : list Event) : Prop :=
  Forall (fun ev => ev_passed ev = false) evs.

Definition relative (p : string) : Prop := PyStr.startswith p "/" = false.

(** Two Dockerfiles and a chart, with every tool failing. *)
Definition docker_and_chart : CICDState :=
  set_error_message (Some "left over")
    (set_status "releasing"
       (set_files
          [("terraform", []);
           ("docker", ["api/Dockerfile"; "web/Dockerfile"]);
           ("helm", ["charts/web/values.yaml"])]
          (create_initial_state ["."]))).

Definition all_tools_fail : Sys SimpleOS.World :=
  SimpleOS.uniform
    [("api/Dockerfile", "FROM alpine:3.18");
     ("web/Dockerfile", "FROM node:20-alpine");
     ("charts/web/Chart.yaml", "name: web");
     ("charts/web/values.yaml", "")]
    false.

(** A repository with one Terraform file, one Dockerfile and one chart,
    and tools that all pass. *)
Definition healthy_repo : Sys SimpleOS.World :=
  SimpleOS.uniform
    [("infra/main.tf", "resource {}");
     ("app/Dockerfile", "FROM python:3.11-slim");
     ("charts/web/Chart.yaml", "name: web");
     ("charts/web/values.yaml", "replicas: 1")]
    true.

(** A validation result that did not pass. *)
Definition failed (r : ValidationResult) : bool := negb r.(passed).

(** Every result of [validation_results], in the order of iteration, and
    those recorded under the key [c]. *)
Definition all_results (vr : Dict.t (list ValidationResult))
  : list ValidationResult :=
  flat_map snd vr.

Definition results_of (c : string) (vr : Dict.t (list ValidationResult))
  : list ValidationResult :=
  flat_map snd (filter (fun kv => String.eqb (fst kv) c) vr).

(** The failed results about the path [p]. *)
Definition failed_for (p : string) (rs : list ValidationResult)
  : list ValidationResult :=
  filter (fun r => failed r && String.eqb r.(file_path) p) rs.

(** An entry of [errors_by_file] after the failed results [frs] about its
    path have been added. *)
Definition extended (o : option (list string)) (frs : list ValidationResult)
  : option (list string) :=
  match frs with
  | [] => o
  | _ :: _ =>
      Some ((match o with Some l => l | None => [] end)
            ++ flat_map errors frs)%list
  end.

(** A failed result filed under a key that is no category. *)
Definition foreign_key_failure : CICDState :=
  set_validation_results
    [("terraform", []);
     ("kustomize", [mkValidationResult "base" "kustomize" false ["bad"] []])]
    (create_initial_state ["."]).

(** The number of strings a dict of lists holds. *)
Definition values_total (d : Dict.t (list string)) : nat :=
  list_sum (map (@List.length string) (Dict.values d)).

(** The category [discover_files] files a path under: the first test of its
    [if]/[elif] chain that the path passes. *)
Definition category_of (p : string) : option string :=
  if is_terraform_file p then Some "terraform"
  else if is_docker_file p then Some "docker"
  else if is_helm_file p then Some "helm"
  else None.

(** What holds of a computation that does not raise: [P] of its result if
    it returns. *)
Definition holds {W A} (P : A -> Sys W -> Prop) (o : Outcome W A) : Prop :=
  match o with
  | Ok a s => P a s
  | Raise _ _ => False
  | OutOfFuel => True
  end.

(** The record of one [docker build]: the Dockerfile, the tag and what the
    command gave. *)
Definition build_run (e : string * (string * ProcResult)) : Event :=
  let '(dockerfile, (tag, r)) := e in
  EvRun ["docker"; "build"; "-t"; tag; "."] (Some (docker_dir_of dockerfile))
    r.

(** The record of one [helm package]. *)
Definition package_run (e : string * ProcResult) : Event :=
  let '(chart_dir, r) := e in
  EvRun ["helm"; "package"; chart_dir; "--destination"; "./dist"] None r.

(** The entries whose command passed. *)
Definition passing {A} (xs : list (A * ProcResult)) : list (A * ProcResult) :=
  filter (fun x => proc_passed (snd x)) xs.

(** ["success"] as soon as one command passed. *)
Definition stage_status {A} (xs : list (A * ProcResult)) : string :=
  if existsb (fun x => proc_passed (snd x)) xs then "success" else "failed".

Fixpoint cmd_eqb (a b : list string) : bool :=
  match a, b with
  | [], [] => true
  | x :: a', y :: b' => String.eqb x y && cmd_eqb a' b'
  | _, _ => false
  end.

(** A [terraform apply] that passed. *)
Definition is_passed_apply (ev : Event) : bool :=
  match ev with
  | EvRun cmd _ r => cmd_eqb cmd apply_cmd && proc_passed r
  | EvWrite _ _ => false
  end.

(** The three field names are in the text. *)
Definition has_chart_fields (content : string) : bool :=
  PyStr.contains "apiVersion:" content
  && PyStr.contains "name:" content
  && PyStr.contains "version:" content.

(** The images [suggest_base_image_update] suggests. *)
Definition suggested_images : list string :=
  ["python:3.11-slim"; "node:20-alpine"; "ubuntu:22.04"; "alpine:3.18"].

(** A Dockerfile none of whose lines the Docker fixer edits: every [FROM]
    line mentions [latest] or none of the four images of the fixer's
    table, [WORKDIR] is somewhere in the file if it has a [FROM] line, and
    [USER] is somewhere if it has a [CMD] or [ENTRYPOINT] line. *)
Definition settled_dockerfile (lines : list string) : bool :=
  forallb
    (fun line =>
       (negb (is_from line)
        || PyStr.contains "latest" line
        || forallb (fun e => negb (PyStr.contains (fst e) line))
             base_image_updates)
       && (negb (is_from line) || existsb (PyStr.contains "WORKDIR") lines)
       && (negb (is_cmd line) || existsb (PyStr.contains "USER") lines))
    lines.

(** A Dockerfile on another base image, with [WORKDIR] and [USER]. *)
Definition go_dockerfile : string :=
  "FROM golang:1.21" ++ PyStr.nl ++ "WORKDIR /src" ++ PyStr.nl
  ++ "USER 1000" ++ PyStr.nl ++ "CMD app" ++ PyStr.nl.

(** A Helm file in the chart directory [charts/version:], whose
    [Chart.yaml] has none of the three fields, and tools that pass. *)
Definition version_named_chart : CICDState :=
  set_files
    [("terraform", []); ("docker", []);
     ("helm", ["charts/version:/values.yaml"])]
    (create_initial_state ["charts"]).

Definition version_named_world : Sys SimpleOS.World :=
  SimpleOS.uniform
    [("charts/version:/Chart.yaml", "description: demo");
     ("charts/version:/values.yaml", "replicas: 1")]
    true.

(** Some line of the text starts with [field]. *)
Definition has_field_line (field content : string) : bool :=
  existsb (fun line => PyStr.startswith line field)
    (PyStr.split PyStr.nl content).

(** The result a validator records for a tool that gave [r]:
    ["passed": passed, "errors": [] if passed else [stderr or stdout],
     "warnings": []], and for [hadolint], [tflint] and [helm lint]
    ["warnings": [] if passed else [stdout]]. *)
Definition reported (path tool : string) (r : ProcResult)
  : ValidationResult :=
  mkValidationResult path tool (proc_passed r)
    (if proc_passed r then []
     else [or_else (proc_stderr r) (proc_stdout r)])
    [].

Definition reported_with_output (path tool : string) (r : ProcResult)
  : ValidationResult :=
  mkValidationResult path tool (proc_passed r)
    (if proc_passed r then []
     else [or_else (proc_stderr r) (proc_stdout r)])
    (if proc_passed r then [] else [proc_stdout r]).

(** What the tools gave for one Dockerfile: [hadolint], the test build,
    and the removal of the test image where it was run. *)
Definition DockerCheck : Type :=
  (ProcResult * ProcResult * option ProcResult)%type.

(** The test image is removed exactly when the test build passed. *)
Definition cleaned_up (c : DockerCheck) : Prop :=
  let '(_, r2, o3) := c in
  match o3 with
  | Some _ => proc_passed r2 = true
  | None => proc_passed r2 = false
  end.

Definition docker_results (e : string * DockerCheck)
  : list ValidationResult :=
  let '(dockerfile, (r1, r2, _)) := e in
  [reported_with_output dockerfile "hadolint" r1;
   reported dockerfile "docker_build" r2].

Definition docker_runs (e : string * DockerCheck) : list Event :=
  let '(dockerfile, (r1, r2, o3)) := e in
  ([EvRun ["hadolint"; dockerfile] None r1;
    EvRun ["docker"; "build"; "--no-cache"; "-t"; "test-build"; "."]
      (Some (docker_dir_of dockerfile)) r2]
   ++ match o3 with
      | Some r3 =>
          [EvRun ["docker"; "rmi"; "test-build"]
             (Some (docker_dir_of dockerfile)) r3]
      | None => []
      end)%list.

(** What the three tools gave for one Terraform directory. *)
Definition TfCheck : Type := (ProcResult * ProcResult * ProcResult)%type.

Definition tf_results (e : string * TfCheck) : list ValidationResult :=
  let '(tf_dir, (r1, r2, r3)) := e in
  [reported tf_dir "terraform_validate" r1;
   reported_with_output tf_dir "tflint" r2;
   reported tf_dir "checkov" r3].

Definition tf_runs (e : string * TfCheck) : list Event :=
  let '(tf_dir, (r1, r2, r3)) := e in
  [EvRun ["terraform"; "validate"] (Some tf_dir) r1;
   EvRun ["tflint"] (Some tf_dir) r2;
   EvRun ["checkov"; "-d"; "."; "--framework"; "terraform"; "--quiet"]
     (Some tf_dir) r3].

(** What the two tools gave for one chart directory. *)
Definition HelmCheck : Type := (ProcResult * ProcResult)%type.

Definition helm_results (e : string * HelmCheck) : list ValidationResult :=
  let '(chart_dir, (r1, r2)) := e in
  [reported_with_output chart_dir "helm_lint" r1;
   reported chart_dir "helm_template" r2].

Definition helm_runs (e : string * HelmCheck) : list Event :=
  let '(chart_dir, (r1, r2)) := e in
  [EvRun ["helm"; "lint"; chart_dir] None r1;
   EvRun ["helm"; "template"; chart_dir] None r2].

(** The directories [validate_terraform] visits. *)
Definition tf_dirs_of {W : Type} {os : OS W} (fs : list string)
  : list string :=
  match fs with
  | [] => []
  | _ :: _ => set_iter (map OsPath.dirname fs)
  end.

(** [p] is of category [c] and is the path of a file seen: [seen root file]
    says which files of which directories have been looked at. *)
Definition found (seen : string -> string -> Prop) (c p : string) : Prop :=
  category_of p = Some c
  /\ exists root file, seen root file /\ p = OsPath.join root file.

(** The dict holds the three category lists, and each list holds exactly
    the paths of its category among the files seen. *)
Definition sorted_by (seen : string -> string -> Prop)
  (d : Dict.t (list string)) : Prop :=
  exists tf dk hl,
    d = [("terraform", tf); ("docker", dk); ("helm", hl)]
    /\ (forall p, In p tf <-> found seen "terraform" p)
    /\ (forall p, In p dk <-> found seen "docker" p)
    /\ (forall p, In p hl <-> found seen "helm" p).

Definition fmt_cmd : list string := ["terraform"; "fmt"; "-recursive"].

(** The record of a [terraform fmt -recursive] that was started in
    [tf_dir] and came back. *)
Definition fmt_run (e : string * (Z * string * string)) : Event :=
  let '(tf_dir, r) := e in EvRun fmt_cmd (Some tf_dir) (inl r).

Definition is_command (ev : Event) : bool :=
  match ev with
  | EvRun _ _ _ => true
  | EvWrite _ _ => false
  end.

Section Vocabulary.
Context {W : Type} {os : OS W}.

(** No [Chart.yaml] in [p] nor in any directory above it. *)
Definition no_chart_above (p : string) (w : W) : Prop :=
  forall k,
    path_exists (OsPath.join (Nat.iter k OsPath.dirname p) "Chart.yaml") w
    = false.

(** The states of a workflow started with [--max-fix-attempts m]: the
    seeded initial state and whatever the nodes make of it, in any
    order and in any world. *)
Inductive reachable (m : Z) : CICDState -> Prop :=
| reach_init paths :
    reachable m (seed_fix_attempts m (create_initial_state paths))
| reach_step st fuel n (s : Sys W) st' s' :
    reachable m st ->
    run_node fuel n st s = Ok st' s' ->
    reachable m st'.

(** [d] is the nearest directory at or above [p] that holds a
    [Chart.yaml]: it is reached from [p] by [k] steps of [dirname], and
    none of the directories passed on the way is empty or holds one. *)
Definition nearest_chart (w : W) (p d : string) : Prop :=
  exists k,
    d = Nat.iter k OsPath.dirname p
    /\ d <> ""
    /\ path_exists (OsPath.join d "Chart.yaml") w = true
    /\ forall j, j < k ->
         Nat.iter j OsPath.dirname p <> ""
         /\ path_exists (OsPath.join (Nat.iter j OsPath.dirname p) "Chart.yaml")
              w = false.

(** The directories [os.walk(top)] visits once their parents are pruned
    with [keep_dir]: [top], and the kept, non-link subdirectories listed
    in a visited directory. *)
Inductive walked (w : W) (top : string) : string -> Prop :=
| walked_top : walked w top top
| walked_sub root dirs nondirs d :
    walked w top root ->
    scandir root w = Some (dirs, nondirs) ->
    In d dirs -> keep_dir d = true ->
    path_islink (OsPath.join root d) w = false ->
    walked w top (OsPath.join root d).

(** [file] is listed, not as a directory, in the directory [root]. *)
Definition listed (w : W) (root file : string) : Prop :=
  exists dirs nondirs, scandir root w = Some (dirs, nondirs) /\ In file nondirs.

(** [file] is listed in a directory [root] that the walk visits from one
    of [tops] that exists. *)
Definition seen_below (w : W) (tops : list string) (root file : string)
  : Prop :=
  exists top,
    In top tops /\ path_exists top w = true /\ walked w top root
    /\ listed w root file.

(** [p] is the path of a file listed in a directory visited from one of
    [tops] that exists. *)
Definition listed_below (w : W) (tops : list string) (p : string) : Prop :=
  exists root file, seen_below w tops root file /\ p = OsPath.join root file.

(** [state["files"]] holds the three category lists, and a path is in a
    list exactly when it is of that category and was found in the walk. *)
Definition sorted_files (w : W) (tops : list string)
  (d : Dict.t (list string)) : Prop :=
  exists tf dk hl,
    d = [("terraform", tf); ("docker", dk); ("helm", hl)]
    /\ (forall p, In p tf <->
                  category_of p = Some "terraform" /\ listed_below w tops p)
    /\ (forall p, In p dk <->
                  category_of p = Some "docker" /\ listed_below w tops p)
    /\ (forall p, In p hl <->
                  category_of p = Some "helm" /\ listed_below w tops p).

(** The loop of [fix_docker] over the Dockerfiles, from the world [w]:
    each file in turn is read, edited by [fix_dockerfile] and written
    back; [evs] are the writes and the last world is where it ends. *)
Inductive dockerfiles_rewritten : list string -> W -> list Event -> W -> Prop :=
| rewritten_none w :
    dockerfiles_rewritten [] w [] w
| rewritten_next dockerfile rest w content fixed w1 evs w' :
    read_text dockerfile w = Some content ->
    fix_dockerfile content = inr fixed ->
    write_text dockerfile fixed w = Some w1 ->
    dockerfiles_rewritten rest w1 evs w' ->
    dockerfiles_rewritten (dockerfile :: rest) w
      (EvWrite dockerfile fixed :: evs) w'.

(** The loop of [fix_helm] over the chart directories: where a
    [Chart.yaml] exists it is read, edited by [fix_chart_content] and
    written back. *)
Inductive charts_rewritten : list string -> W -> list Event -> W -> Prop :=
| charts_none w :
    charts_rewritten [] w [] w
| charts_skip chart_dir rest w evs w' :
    path_exists (OsPath.join chart_dir "Chart.yaml") w = false ->
    charts_rewritten rest w evs w' ->
    charts_rewritten (chart_dir :: rest) w evs w'
| charts_next chart_dir rest w content w1 evs w' :
    path_exists (OsPath.join chart_dir "Chart.yaml") w = true ->
    read_text (OsPath.join chart_dir "Chart.yaml") w = Some content ->
    write_text (OsPath.join chart_dir "Chart.yaml")
      (fix_chart_content chart_dir content) w = Some w1 ->
    charts_rewritten rest w1 evs w' ->
    charts_rewritten (chart_dir :: rest) w
      (EvWrite (OsPath.join chart_dir "Chart.yaml")
         (fix_chart_content chart_dir content) :: evs) w'.

(** What a round of the Terraform fixer does, step by step from the world
    [w]: it runs [terraform fmt -recursive] in one of [dirs], or it reads
    a file whose name ends in [.tf] and writes it back with
    [fix_tf_content] applied to what it has read. *)
Inductive tf_fixed (dirs : list string) : W -> list Event -> W -> Prop :=
| tf_fixed_done w :
    tf_fixed dirs w [] w
| tf_fixed_fmt tf_dir r w w1 evs w' :
    In tf_dir dirs ->
    subprocess_run fmt_cmd (Some tf_dir) w = (inl r, w1) ->
    tf_fixed dirs w1 evs w' ->
    tf_fixed dirs w (EvRun fmt_cmd (Some tf_dir) (inl r) :: evs) w'
| tf_fixed_write root file content w w1 evs w' :
    PyStr.endswith file ".tf" = true ->
    read_text (OsPath.join root file) w = Some content ->
    write_text (OsPath.join root file) (fix_tf_content content) w = Some w1 ->
    tf_fixed dirs w1 evs w' ->
    tf_fixed dirs w
      (EvWrite (OsPath.join root file) (fix_tf_content content) :: evs) w'.

(** The commands of [evs] were run one after the other from the world
    [w], each gave what [evs] records for it, and [w'] is the world they
    left. *)
Inductive commands_ran : W -> list Event -> W -> Prop :=
| ran_none w :
    commands_ran w [] w
| ran_next cmd cwd r w w1 evs w' :
    subprocess_run cmd cwd w = (r, w1) ->
    commands_ran w1 evs w' ->
    commands_ran w (EvRun cmd cwd r :: evs) w'.

(** The tag [release_docker] gives the image of a Dockerfile in the world
    [w]: the lower-cased last component of the absolute path of the
    directory of the file, and the timestamp. *)
Definition image_tag (timestamp dockerfile : string) (w : W) : string :=
  PyStr.lower (OsPath.basename (path_abspath (docker_dir_of dockerfile) w))
  ++ ":" ++ timestamp.

(** The builds of [release_docker], one Dockerfile after the other from
    the world [w]: each runs [docker build -t tag .] in the directory of
    the file, with the tag of the file in the world of that moment, and is
    listed with its tag and with what the command gave. *)
Inductive images_built (timestamp : string)
  : list string -> W -> list (string * ProcResult) -> W -> Prop :=
| built_none w :
    images_built timestamp [] w [] w
| built_next dockerfile fs r w w1 brs w' :
    subprocess_run
      ["docker"; "build"; "-t"; image_tag timestamp dockerfile w; "."]
      (Some (docker_dir_of dockerfile)) w = (r, w1) ->
    images_built timestamp fs w1 brs w' ->
    images_built timestamp (dockerfile :: fs) w
      ((image_tag timestamp dockerfile w, r) :: brs) w'.

End Vocabulary.

(** * Properties *)
Module PyStrExamples.
Import PyStr OsPath.

Example dirname_nested : dirname "/srv/app/values.yaml" = "/srv/app".
Proof. reflexivity. Qed.
Example dirname_top : dirname "/srv" = "/".
Proof. reflexivity. Qed.
Example dirname_root : dirname "/" = "/".
Proof. reflexivity. Qed.
Example dirname_bare : dirname "main.tf" = "".
Proof. reflexivity. Qed.
Example dirname_double : dirname "a//b" = "a".
Proof. reflexivity. Qed.
Example basename_nested : basename "charts/web" = "web".
Proof. reflexivity. Qed.
Example join_plain : join "charts/web" "Chart.yaml" = "charts/web/Chart.yaml".
Proof. reflexivity. Qed.
Example join_root : join "/" "Chart.yaml" = "/Chart.yaml".
Proof. reflexivity. Qed.
Example split_sep_ex :
  split "FROM python:" ("FROM python:3.9" ++ nl) = [""; "3.9" ++ nl].
Proof. reflexivity. Qed.
Example split_ws_ex : split_ws ("  3.9  as   base" ++ nl) = ["3.9"; "as"; "base"].
Proof. reflexivity. Qed.
Example replace_ex : replace "ab" "X" "cababab!" = "cXXX!".
Proof. reflexivity. Qed.
Example strip_ex : strip ("  FROM x " ++ nl) = "FROM x".
Proof. reflexivity. Qed.
Example lower_ex : lower "Dockerfile.PROD" = "dockerfile.prod".
Proof. reflexivity. Qed.
Example endswith_ex : endswith "main.tf" ".tf" = true.
Proof. reflexivity. Qed.
End PyStrExamples.

(** ** Strings and paths *)

Module PyStrFacts.
Import PyStr OsPath.

Lemma startswith_refl (p : string) : startswith p p = true.
Proof.
  induction p as [|c p IH]; simpl; [reflexivity|].
  now rewrite Ascii.eqb_refl, IH.
Qed.

Lemma startswith_app (a b p : string) :
  startswith a p = true -> startswith (a ++ b) p = true.
Proof.
  revert a; induction p as [|c p IH]; intros a H; [reflexivity|].
  destruct a as [|d a]; simpl in *; [discriminate|].
  apply andb_true_iff in H as [-> H]. simpl. now apply IH.
Qed.

Lemma startswith_prefix (p b : string) : startswith (p ++ b) p = true.
Proof. apply startswith_app, startswith_refl. Qed.

Lemma contains_app_l (p a b : string) :
  contains p a = true -> contains p (a ++ b) = true.
Proof.
  induction a as [|c a IH]; simpl; intros H.
  - rewrite orb_false_r in H. destruct p; [|discriminate].
    destruct b; reflexivity.
  - apply orb_true_iff in H as [H|H].
    + change (String c (a ++ b)) with (String c a ++ b).
      now rewrite (startswith_app _ _ _ H).
    + rewrite (IH H). apply orb_true_r.
Qed.

Lemma contains_app_r (p a b : string) :
  contains p b = true -> contains p (a ++ b) = true.
Proof.
  intros H. induction a as [|c a IH]; simpl; [exact H|].
  rewrite IH. apply orb_true_r.
Qed.

Lemma contains_prefix (p b : string) : contains p (p ++ b) = true.
Proof.
  destruct (p ++ b) eqn:E; simpl.
  - destruct p; [reflexivity | discriminate].
  - rewrite <- E, startswith_prefix. reflexivity.
Qed.

Lemma append_assoc (a b c : string) : (a ++ b) ++ c = a ++ b ++ c.
Proof. induction a as [|x a IH]; simpl; [reflexivity | now rewrite IH]. Qed.

Lemma append_empty_r (a : string) : a ++ "" = a.
Proof. induction a as [|x a IH]; simpl; [reflexivity | now rewrite IH]. Qed.

Lemma contains_refl (p : string) : contains p p = true.
Proof.
  destruct p as [|c p]; [reflexivity|].
  cbn [contains]. now rewrite startswith_refl.
Qed.

Lemma startswith_sep (x : ascii) (p a b : string) :
  avoids x p = true ->
  startswith (a ++ String x b) p = startswith a p.
Proof.
  revert a; induction p as [|c p IH]; intros a H; [reflexivity|].
  simpl in H. apply andb_true_iff in H as [Hc Hp].
  destruct a as [|d a]; simpl.
  - apply negb_true_iff in Hc. now rewrite Hc.
  - now rewrite IH.
Qed.

(** A needle that avoids [x] cannot straddle an [x]. *)
Lemma contains_sep (x : ascii) (p a b : string) :
  p <> "" -> avoids x p = true ->
  contains p (a ++ String x b) = contains p a || contains p b.
Proof.
  intros Hne Hav. induction a as [|c a IH].
  - assert (startswith (String x b) p = false) as E.
    { destruct p as [|d p]; [congruence|]. simpl in *.
      apply andb_true_iff in Hav as [Hd _].
      apply negb_true_iff in Hd. now rewrite Hd. }
    change ("" ++ String x b) with (String x b).
    change (contains p (String x b))
      with (startswith (String x b) p || contains p b).
    rewrite E. destruct p; [congruence | reflexivity].
  - change (String c a ++ String x b) with (String c (a ++ String x b)).
    change (contains p (String c (a ++ String x b)))
      with (startswith (String c a ++ String x b) p
            || contains p (a ++ String x b)).
    rewrite startswith_sep, IH by assumption.
    simpl. now rewrite orb_assoc.
Qed.

Lemma head_part_empty (p : string) :
  head_part p = "" <-> has_slash p = false.
Proof.
  destruct p as [|c t]; simpl; [tauto|].
  destruct (is_slash c || has_slash t); split; congruence.
Qed.

Lemma head_part_length (p : string) :
  String.length (head_part p) <= String.length p.
Proof.
  induction p as [|c t IH]; [reflexivity|].
  cbn [head_part]. destruct (has_slash (String c t)); simpl; lia.
Qed.

Lemma head_part_full (p : string) :
  String.length (head_part p) = String.length p -> head_part p = p.
Proof.
  induction p as [|c t IH]; [reflexivity|].
  cbn [head_part]. destruct (has_slash (String c t)); simpl; intros H.
  - f_equal. apply IH. lia.
  - discriminate.
Qed.

Lemma rstrip_slash_length (s : string) :
  String.length (rstrip_slash s) <= String.length s.
Proof.
  induction s as [|c t IH]; [reflexivity|].
  simpl. destruct (is_slash c && (rstrip_slash t =? "")); simpl; lia.
Qed.

Lemma rstrip_slash_empty (s : string) :
  rstrip_slash s = "" <-> all_slash s = true.
Proof.
  induction s as [|c t IH]; simpl; [tauto|].
  destruct (is_slash c); simpl.
  - destruct (String.eqb_spec (rstrip_slash t) "") as [E|E].
    + split; intros _; [now apply IH | reflexivity].
    + split; [discriminate|]. intros H. apply IH in H. contradiction.
  - split; discriminate.
Qed.

Lemma rstrip_head_shorter (p : string) :
  head_part p <> "" ->
  String.length (rstrip_slash (head_part p)) < String.length (head_part p).
Proof.
  induction p as [|c t IH]; [simpl; congruence|].
  cbn [head_part]. destruct (has_slash (String c t)) eqn:Hs; [|congruence].
  intros _. simpl in Hs.
  destruct (String.eqb_spec (head_part t) "") as [E|E].
  - rewrite E. apply head_part_empty in E. rewrite E, orb_false_r in Hs.
    simpl. rewrite Hs. simpl. lia.
  - specialize (IH E). cbn [rstrip_slash].
    destruct (is_slash c && (rstrip_slash (head_part t) =? "")); simpl; lia.
Qed.

Lemma all_slash_head_part (p : string) :
  all_slash p = true -> head_part p = p.
Proof.
  induction p as [|c t IH]; [reflexivity|].
  simpl. intros H. apply andb_true_iff in H as [Hc Ht].
  rewrite Hc. simpl. now rewrite IH.
Qed.

(** [dirname] is the identity exactly on the strings made of slashes
    only, the root among them; everywhere else it is strictly shorter. *)
Lemma dirname_all_slash (p : string) :
  all_slash p = true -> dirname p = p.
Proof.
  intros H. unfold dirname. rewrite (all_slash_head_part p H), H.
  now rewrite andb_false_r.
Qed.

Lemma dirname_shorter (p : string) :
  all_slash p = false -> String.length (dirname p) < String.length p.
Proof.
  intros H. unfold dirname.
  pose proof (head_part_length p) as Hle.
  destruct (String.eqb_spec (head_part p) "") as [E|E]; simpl.
  - rewrite E. destruct p; [discriminate | simpl; lia].
  - destruct (all_slash (head_part p)) eqn:Ha; simpl.
    + assert (String.length (head_part p) <> String.length p) as Hneq.
      { intros Hl. apply head_part_full in Hl. congruence. }
      lia.
    + pose proof (rstrip_head_shorter p E). lia.
Qed.

Lemma dirname_length (p : string) :
  String.length (dirname p) <= String.length p.
Proof.
  destruct (all_slash p) eqn:H.
  - now rewrite dirname_all_slash.
  - pose proof (dirname_shorter p H). lia.
Qed.

Lemma startswith_slash (c : ascii) (t : string) :
  startswith (String c t) "/" = is_slash c.
Proof.
  cbn [startswith]. unfold is_slash.
  rewrite andb_true_r. apply Ascii.eqb_sym.
Qed.

Lemma dirname_absolute (p : string) :
  startswith p "/" = true -> startswith (dirname p) "/" = true.
Proof.
  destruct p as [|c t]; [discriminate|].
  rewrite startswith_slash. intros Hc. unfold dirname.
  cbn [head_part has_slash]. rewrite Hc. cbn [orb].
  cbn [String.eqb all_slash negb andb]. rewrite Hc. cbn [andb].
  destruct (all_slash (head_part t)) eqn:Ha; cbn [negb].
  - now rewrite startswith_slash.
  - cbn [rstrip_slash]. rewrite Hc. cbn [andb].
    destruct (String.eqb_spec (rstrip_slash (head_part t)) "") as [E|E].
    + apply rstrip_slash_empty in E. congruence.
    + now rewrite startswith_slash.
Qed.

Lemma dirname_relative (p : string) :
  startswith p "/" = false -> startswith (dirname p) "/" = false.
Proof.
  destruct p as [|c t]; [reflexivity|].
  rewrite startswith_slash. intros Hc. unfold dirname. cbn [head_part].
  destruct (has_slash (String c t)); [|reflexivity].
  cbn [String.eqb all_slash negb]. rewrite Hc. cbn [andb negb rstrip_slash].
  rewrite Hc. cbn [andb]. now rewrite startswith_slash.
Qed.

Lemma relative_not_all_slash (p : string) :
  p <> "" -> startswith p "/" = false -> all_slash p = false.
Proof.
  destruct p as [|c t]; [congruence|].
  rewrite startswith_slash. intros _ Hc. cbn [all_slash]. now rewrite Hc.
Qed.

End PyStrFacts.

(** ** Computations *)

Lemma bind_ok {W A B} (c : M W A) (k : A -> M W B) s b s2 :
  bind c k s = Ok b s2 ->
  exists a s1, c s = Ok a s1 /\ k a s1 = Ok b s2.
Proof.
  unfold bind. destruct (c s) as [a s1| |]; try discriminate.
  intros H. now exists a, s1.
Qed.

Lemma ret_ok {W A} (a b : A) (s s' : Sys W) :
  ret a s = Ok b s' -> b = a /\ s' = s.
Proof. unfold ret. intros H. now inversion H. Qed.

Lemma lift_ok {W A} (r : Exn + A) (a : A) (s s' : Sys W) :
  lift r s = Ok a s' -> r = inr a /\ s' = s.
Proof.
  destruct r as [e|x]; simpl; [discriminate|].
  unfold ret. intros H. now inversion H.
Qed.

Lemma bind_out_of_fuel {W A B} (c : M W A) (k : A -> M W B) (s : Sys W) :
  c s = OutOfFuel -> bind c k s = OutOfFuel.
Proof. unfold bind. now intros ->. Qed.

(** Peel the outcome of a sequence of steps. *)
Ltac inv_ok :=
  repeat match goal with
    | H : bind _ _ _ = Ok _ _ |- _ =>
        let a := fresh "a" in
        let s := fresh "s" in
        let E := fresh "E" in
        apply bind_ok in H; destruct H as (a & s & E & H)
    | H : ret _ _ = Ok _ _ |- _ =>
        apply ret_ok in H; destruct H as [? ?]; subst
    | H : lift _ _ = Ok _ _ |- _ =>
        apply lift_ok in H; destruct H as [? ?]; subst
    end.

(** A loop keeps what each of its rounds keeps. *)
Lemma for_each_inv {W A B} (P : A -> Sys W -> Prop)
  (f : A -> B -> M W A) (xs : list B) :
  (forall a x s a' s', In x xs -> P a s -> f a x s = Ok a' s' -> P a' s') ->
  forall a s a' s', P a s -> for_each f a xs s = Ok a' s' -> P a' s'.
Proof.
  induction xs as [|x r IH]; intros Hf a s a' s' Hp H; simpl in H.
  - apply ret_ok in H as [-> ->]. exact Hp.
  - apply bind_ok in H as (a1 & s1 & E & H).
    eapply IH; [| |exact H].
    + intros; eapply Hf; eauto. now right.
    + eapply Hf; eauto. now left.
Qed.

(** ** The search for a chart directory *)

Section ChartSearch.
Context {W : Type} {os : OS W}.

Lemma no_chart_above_dirname (p : string) (w : W) :
  no_chart_above p w -> no_chart_above (OsPath.dirname p) w.
Proof.
  intros H k. specialize (H (S k)).
  now rewrite Nat.iter_succ_r in H.
Qed.

(** The search reads the world and leaves it as it is; what it returns is
    empty or holds a [Chart.yaml]. *)
Lemma nearest_chart_dir_ok (fuel : nat) (p : string) (s : Sys W) d s' :
  nearest_chart_dir fuel p s = Ok d s' ->
  s' = s /\
  (d = "" \/ path_exists (OsPath.join d "Chart.yaml") (world s) = true).
Proof.
  revert p; induction fuel as [|n IH]; intros p H; simpl in H.
  - discriminate.
  - destruct (String.eqb_spec p "") as [E0|Hne]; [subst p|].
    + apply ret_ok in H as [-> ->]. auto.
    + unfold bind, exists_ in H.
      destruct (path_exists (OsPath.join p "Chart.yaml") (world s)) eqn:E.
      * apply ret_ok in H as [-> ->]. auto.
      * now apply IH in H.
Qed.

(** On a relative path the search ends within [length p + 1] tests. *)
Lemma nearest_chart_dir_relative (fuel : nat) (p : string) (s : Sys W) :
  String.length p < fuel ->
  PyStr.startswith p "/" = false ->
  exists d, nearest_chart_dir fuel p s = Ok d s.
Proof.
  revert p; induction fuel as [|n IH]; intros p Hlen Hrel; [lia|].
  simpl. destruct (String.eqb_spec p "") as [E0|Hne]; [subst p|].
  - now exists "".
  - unfold bind, exists_.
    destruct (path_exists (OsPath.join p "Chart.yaml") (world s)).
    + now exists p.
    + apply IH.
      * pose proof (PyStrFacts.dirname_shorter p
                      (PyStrFacts.relative_not_all_slash p Hne Hrel)).
        lia.
      * now apply PyStrFacts.dirname_relative.
Qed.

(** On an absolute path with no chart above it the search never ends:
    it reaches the root, whose [dirname] is the root. *)
Lemma nearest_chart_dir_diverges (fuel : nat) (p : string) (s : Sys W) :
  PyStr.startswith p "/" = true ->
  no_chart_above p (world s) ->
  nearest_chart_dir fuel p s = OutOfFuel.
Proof.
  revert p; induction fuel as [|n IH]; intros p Habs Hno; [reflexivity|].
  simpl. destruct (String.eqb_spec p "") as [E0|Hne]; [subst p|]; [discriminate|].
  pose proof (Hno 0) as H0.
  change (Nat.iter 0 OsPath.dirname p) with p in H0.
  unfold bind, exists_. rewrite H0.
  apply IH.
  - now apply PyStrFacts.dirname_absolute.
  - now apply no_chart_above_dirname.
Qed.

(** The guarded search of [utils/helm.py] ends on every path. *)
Lemma guarded_chart_dir_total (fuel : nat) (p : string) (s : Sys W) :
  String.length p < fuel ->
  exists d, guarded_chart_dir fuel p s = Ok d s.
Proof.
  revert p; induction fuel as [|n IH]; intros p Hlen; [lia|].
  simpl. destruct (String.eqb_spec p "") as [E0|Hne]; [subst p|].
  - now exists "".
  - unfold bind, exists_.
    destruct (path_exists (OsPath.join p "Chart.yaml") (world s)).
    + now exists p.
    + destruct (String.eqb_spec (OsPath.dirname p) p) as [E|E].
      * now exists p.
      * apply IH.
        destruct (OsPath.all_slash p) eqn:Ha.
        -- now rewrite PyStrFacts.dirname_all_slash in E.
        -- pose proof (PyStrFacts.dirname_shorter p Ha). lia.
Qed.

Lemma chart_dirs_of_diverges (fuel : nat) (f : string) (rest : list string)
  (s : Sys W) :
  PyStr.startswith f "/" = true ->
  no_chart_above (OsPath.dirname f) (world s) ->
  chart_dirs_of fuel (f :: rest) s = OutOfFuel.
Proof.
  intros Habs Hno. unfold chart_dirs_of. simpl. unfold bind at 1 2 3.
  rewrite nearest_chart_dir_diverges; auto.
  now apply PyStrFacts.dirname_absolute.
Qed.

End ChartSearch.

Section HelmStagesLoop.
Context {W : Type} {os : OS W}.
Variables (f : string) (rest : list string) (state : CICDState) (s : Sys W).
Hypothesis helm_files : files_of "helm" state = inr (f :: rest).
Hypothesis absolute : PyStr.startswith f "/" = true.
Hypothesis no_chart : no_chart_above (OsPath.dirname f) (world s).

Lemma validate_helm_diverges (fuel : nat) :
  validate_helm fuel state s = OutOfFuel.
Proof.
  unfold validate_helm. rewrite helm_files.
  unfold bind at 1. cbn [lift]. unfold ret at 1.
  apply bind_out_of_fuel. now apply chart_dirs_of_diverges.
Qed.

Lemma release_helm_diverges (fuel : nat) :
  release_helm fuel state s = OutOfFuel.
Proof.
  unfold release_helm. rewrite helm_files.
  unfold bind at 1. cbn [lift]. unfold ret at 1.
  apply bind_out_of_fuel. now apply chart_dirs_of_diverges.
Qed.

Lemma fix_helm_diverges (fuel : nat) :
  fst (can_attempt_fix state "helm") = true ->
  fix_helm fuel state s = OutOfFuel.
Proof.
  intros Hcan. unfold fix_helm.
  assert (files_of "helm" (snd (can_attempt_fix state "helm"))
          = inr (f :: rest)) as Hf.
  { unfold can_attempt_fix, get_or_create_fix_attempt.
    destruct (Dict.get "helm" (fix_attempts state)); exact helm_files. }
  destruct (can_attempt_fix state "helm") as [can st1].
  simpl in Hcan, Hf. subst can. simpl negb. cbv iota.
  rewrite Hf.
  unfold bind at 1. cbn [lift]. unfold ret at 1.
  apply bind_out_of_fuel.
  now apply chart_dirs_of_diverges.
Qed.

End HelmStagesLoop.

Lemma iter_dirname_root (k : nat) : Nat.iter k OsPath.dirname "/" = "/".
Proof. induction k as [|k IH]; simpl; [reflexivity | now rewrite IH]. Qed.

(** C3 (the code departs from the claim).  A helm-classified file under an
    absolute root with no [Chart.yaml] above it: discovery finds it, and
    then the chart search of [validate_helm], [fix_helm] and
    [release_helm] never ends, whatever the loop budget, because
    [os.path.dirname("/")] is ["/"].  [find_chart_dirs] of [utils/helm.py]
    carries the guard the three nodes lack: it ends and yields no chart
    directory for the same file. *)
Theorem C3_chart_search_loops_on_absolute_path :
  let f := "/srv/app/templates/deploy.yaml" in
  let w := SimpleOS.uniform [(f, "kind: Deployment")] true in
  let state :=
    set_files [("terraform", []); ("docker", []); ("helm", [f])]
      (create_initial_state ["/srv/app"]) in
  is_helm_file f = true /\
  discover_files 5 (create_initial_state ["/srv/app"]) w = Ok state w /\
  (forall fuel, validate_helm fuel state w = OutOfFuel) /\
  (forall fuel, fix_helm fuel state w = OutOfFuel) /\
  (forall fuel, release_helm fuel state w = OutOfFuel) /\
  find_chart_dirs 20 [f] w = Ok [] w.
Proof.
  intros f w state.
  assert (no_chart_above (OsPath.dirname f) (world w)) as Hno.
  { intros k. destruct k as [|[|[|k]]]; try reflexivity.
    rewrite 3 Nat.iter_succ_r.
    change (OsPath.dirname (OsPath.dirname (OsPath.dirname (OsPath.dirname f))))
      with "/".
    now rewrite iter_dirname_root. }
  split; [reflexivity|]. split; [reflexivity|].
  split; [|split; [|split]].
  - intros fuel. now apply (validate_helm_diverges f []).
  - intros fuel. now apply (fix_helm_diverges f []).
  - intros fuel. now apply (release_helm_diverges f []).
  - reflexivity.
Qed.

(** ** The decision function *)

Lemma fixableb_spec (state : CICDState) (c : string) :
  fixableb state c = true <-> fixable state c.
Proof.
  unfold fixableb, fixable. destruct (errors_of c state); split.
  - discriminate.
  - intros [H _]. congruence.
  - intros H. apply Z.ltb_lt in H. split; [discriminate | exact H].
  - intros [_ H]. now apply Z.ltb_lt.
Qed.

Lemma check_category_fold (state : CICDState) (cs : list string) (b : bool) :
  fold_left (check_category state) cs b = b || existsb (fixableb state) cs.
Proof.
  revert b; induction cs as [|c cs IH]; intros b; simpl.
  - now rewrite orb_false_r.
  - rewrite IH. unfold check_category, fixableb.
    destruct (errors_of c state); simpl.
    + reflexivity.
    + destruct (attempts_of c state <? max_attempts_of c state)%Z; simpl.
      * now rewrite orb_true_r.
      * reflexivity.
Qed.

Lemma needs_fix_iff (state : CICDState) :
  fold_left (check_category state) categories false = true <->
  exists c, In c categories /\ fixable state c.
Proof.
  rewrite check_category_fold, orb_false_l, existsb_exists.
  split; intros (c & Hin & H); exists c; split; auto;
    now apply fixableb_spec.
Qed.

(** C2.  [decide_next_action] is a three-way split on every state: no
    collected error gives ["release"]; errors and a category with errors
    whose attempts are below its maximum give ["fix"] and status
    ["fixing"]; errors and no such category give ["fail"], status
    ["failed"] and an error message that ends with the error count. *)
Theorem C2_decide_three_way (state : CICDState) :
  (total_errors state = 0 ->
   fst (decide_next_action state) = "release") /\
  (total_errors state <> 0 ->
   (exists c, In c categories /\ fixable state c) ->
   fst (decide_next_action state) = "fix" /\
   status (snd (decide_next_action state)) = "fixing") /\
  (total_errors state <> 0 ->
   ~ (exists c, In c categories /\ fixable state c) ->
   fst (decide_next_action state) = "fail" /\
   status (snd (decide_next_action state)) = "failed" /\
   error_message (snd (decide_next_action state))
   = Some ("Max fix attempts reached. Errors remain: "
           ++ str_of_nat (total_errors state)) /\
   forall msg,
     error_message (snd (decide_next_action state)) = Some msg ->
     PyStr.contains (str_of_nat (total_errors state)) msg = true).
Proof.
  unfold decide_next_action.
  destruct (Nat.eqb_spec (total_errors state) 0) as [E|E].
  - split; [reflexivity|]. split; intros H; contradiction.
  - split; [intros H; contradiction|].
    destruct (fold_left (check_category state) categories false) eqn:F.
    + split; [intros _ _; now split|].
      intros _ Hno. apply needs_fix_iff in F. contradiction.
    + split.
      * intros _ Hex. apply needs_fix_iff in Hex. congruence.
      * intros _ _. do 3 (split; [reflexivity|]).
        intros msg Hmsg.
        assert (msg = ("Max fix attempts reached. Errors remain: "
                       ++ str_of_nat (total_errors state))%string) as ->.
        { cbv [snd set_error_message error_message] in Hmsg. congruence. }
        apply PyStrFacts.contains_app_r, PyStrFacts.contains_refl.
Qed.

Lemma C2_decide_three_way_witness :
  fst (decide_next_action one_docker_error) = "fix" /\
  status (snd (decide_next_action one_docker_error)) = "fixing".
Proof.
  apply (C2_decide_three_way one_docker_error).
  - discriminate.
  - exists "docker". split; [simpl; auto|].
    split; [discriminate | reflexivity].
Defined.

(** ** The aggregator *)

Lemma dict_get_set_same {V} (k : string) (v : V) (d : Dict.t V) :
  Dict.get k (Dict.set k v d) = Some v.
Proof.
  induction d as [|[k' v'] r IH]; simpl.
  - now rewrite String.eqb_refl.
  - destruct (String.eqb_spec k k') as [->|Hne]; simpl.
    + now rewrite String.eqb_refl.
    + apply String.eqb_neq in Hne. now rewrite Hne.
Qed.

Lemma dict_get_set_other {V} (k k' : string) (v : V) (d : Dict.t V) :
  k' <> k -> Dict.get k' (Dict.set k v d) = Dict.get k' d.
Proof.
  intros Hne. induction d as [|[k0 v0] r IH]; simpl.
  - apply String.eqb_neq in Hne. now rewrite Hne.
  - destruct (String.eqb_spec k k0) as [->|Hk]; simpl.
    + apply String.eqb_neq in Hne. now rewrite Hne.
    + now rewrite IH.
Qed.

Lemma dict_append_keeps {k x d d'} :
  dict_append k x d = inr d' -> has_categories d -> has_categories d'.
Proof.
  unfold dict_append. destruct (Dict.get k d) eqn:E; [|discriminate].
  intros H Hd c Hc. injection H as <-.
  destruct (String.eqb_spec c k) as [->|Hne].
  - rewrite dict_get_set_same. discriminate.
  - rewrite dict_get_set_other by assumption. now apply Hd.
Qed.

Lemma collect_result_total (c : string) acc (r : ValidationResult) :
  In c categories -> has_categories (fst acc) ->
  exists acc', collect_result c acc r = inr acc' /\ has_categories (fst acc').
Proof.
  intros Hc Hacc. destruct acc as [collected by_file].
  unfold collect_result. destruct (negb (passed r)); [|eauto].
  destruct (dict_append c (error_line r) collected) as [e|d'] eqn:E.
  - unfold dict_append in E. specialize (Hacc c Hc). simpl in Hacc.
    destruct (Dict.get c collected); [discriminate | congruence].
  - eexists; split; [reflexivity|]. simpl.
    exact (dict_append_keeps E Hacc).
Qed.

Lemma collect_results_total (c : string) (rs : list ValidationResult) acc :
  In c categories -> has_categories (fst acc) ->
  exists acc',
    fold_exn (collect_result c) acc rs = inr acc'
    /\ has_categories (fst acc').
Proof.
  intros Hc. revert acc. induction rs as [|r rs IH]; intros acc Hacc; simpl.
  - eauto.
  - destruct (collect_result_total c acc r Hc Hacc) as (acc1 & -> & H1).
    now apply IH.
Qed.

Lemma aggregate_total (vr : Dict.t (list ValidationResult)) :
  Forall (fun kv => In (fst kv) categories) vr ->
  exists r, aggregate vr = inr r.
Proof.
  unfold aggregate.
  assert (has_categories
            (fst ([("terraform", @nil string); ("docker", []); ("helm", [])],
                  @nil (string * list string)))) as H0.
  { intros c [<-|[<-|[<-|[]]]]; discriminate. }
  revert H0.
  generalize ([("terraform", @nil string); ("docker", []); ("helm", [])],
              @nil (string * list string)).
  induction vr as [|[c rs] vr IH]; intros acc Hacc Hall; simpl.
  - eauto.
  - inversion Hall as [|? ? Hc Hrest]; subst.
    destruct (collect_results_total c rs acc Hc Hacc) as (acc1 & -> & H1).
    now apply IH.
Qed.

Lemma collect_errors_reads_results (s s1 : CICDState) :
  collect_errors s = inr s1 ->
  aggregate (validation_results s)
  = inr (collected_errors s1, errors_by_file s1)
  /\ validation_results s1 = validation_results s.
Proof.
  unfold collect_errors.
  destruct (aggregate (validation_results s)) as [e|[c b]]; [discriminate|].
  intros H. injection H as <-. now split.
Qed.

Lemma dict_set_keys {V} (k : string) (v : V) (d : Dict.t V) :
  Dict.get k d <> None -> map fst (Dict.set k v d) = map fst d.
Proof.
  induction d as [|[k' v'] r IH]; simpl; [congruence|].
  destruct (String.eqb k k'); simpl; [reflexivity|].
  intros H. now rewrite IH.
Qed.

Lemma collect_result_keys (c : string) acc acc' (r : ValidationResult) :
  collect_result c acc r = inr acc' -> map fst (fst acc') = map fst (fst acc).
Proof.
  destruct acc as [collected by_file]. unfold collect_result.
  destruct (negb (passed r)); [|now intros [= <-]].
  unfold dict_append.
  destruct (Dict.get c collected) eqn:E; [|discriminate].
  intros [= <-]. cbn [fst]. apply dict_set_keys. congruence.
Qed.

(** What the aggregator leaves in [collected_errors] has the three
    category keys and no other, so the total that [decide_next_action]
    takes over all values is the total over the categories. *)
Lemma collect_errors_keys (s s1 : CICDState) :
  collect_errors s = inr s1 -> map fst (collected_errors s1) = categories.
Proof.
  intros H. apply collect_errors_reads_results in H as [H _].
  unfold aggregate in H.
  change categories
    with (map fst (fst ([("terraform", @nil string); ("docker", []);
                         ("helm", [])], @nil (string * list string)))).
  change (collected_errors s1)
    with (fst (collected_errors s1, errors_by_file s1)).
  revert H.
  generalize (collected_errors s1, errors_by_file s1).
  generalize ([("terraform", @nil string); ("docker", []); ("helm", [])],
              @nil (string * list string)).
  induction (validation_results s) as [|[c rs] vr IH]; intros acc out H.
  - simpl in H. now injection H as <-.
  - cbn [fold_exn] in H.
    destruct (fold_exn (collect_result c) acc rs) as [e|acc1] eqn:E;
      [discriminate|].
    rewrite (IH _ _ H). clear IH H. revert acc acc1 E.
    induction rs as [|r rs IHr]; intros acc acc1 E.
    + simpl in E. now injection E as <-.
    + cbn [fold_exn] in E.
      destruct (collect_result c acc r) as [e|acc2] eqn:E2; [discriminate|].
      rewrite (IHr _ _ E). now apply collect_result_keys in E2.
Qed.

Lemma total_errors_by_category (st : CICDState) :
  map fst (collected_errors st) = categories ->
  total_errors st
  = List.length (errors_of "terraform" st)
    + List.length (errors_of "docker" st)
    + List.length (errors_of "helm" st).
Proof.
  unfold total_errors, errors_of, Dict.values.
  destruct (collected_errors st) as [|[k1 x] [|[k2 y] [|[k3 z] [|? ?]]]];
    try discriminate.
  intros H. injection H as -> -> ->. simpl. lia.
Qed.

(** C8.  The aggregator is a function of [validation_results] alone: a
    second run on its own output changes nothing, what a state held in
    [collected_errors] and [errors_by_file] before does not matter, and two
    states with the same results get the same two dicts.  It returns
    whenever the keys of [validation_results] are categories. *)
Theorem C8_collect_errors_idempotent :
  (forall s s1, collect_errors s = inr s1 -> collect_errors s1 = inr s1) /\
  (forall s ce ebf,
     collect_errors (set_collected_errors ce (set_errors_by_file ebf s))
     = collect_errors s) /\
  (forall s t s1 t1,
     validation_results s = validation_results t ->
     collect_errors s = inr s1 -> collect_errors t = inr t1 ->
     collected_errors s1 = collected_errors t1
     /\ errors_by_file s1 = errors_by_file t1) /\
  (forall s,
     Forall (fun kv => In (fst kv) categories) (validation_results s) ->
     exists s1, collect_errors s = inr s1).
Proof.
  split; [|split; [|split]].
  - intros s s1 H. unfold collect_errors in *.
    destruct (aggregate (validation_results s)) as [e|[c b]] eqn:E;
      [discriminate|].
    injection H as <-. cbn [validation_results set_all_validations_complete
      set_errors_by_file set_collected_errors]. now rewrite E.
  - intros s ce ebf. unfold collect_errors.
    cbn [validation_results set_errors_by_file set_collected_errors].
    destruct (aggregate (validation_results s)) as [e|[c b]]; reflexivity.
  - intros s t s1 t1 Hvr Hs Ht.
    apply collect_errors_reads_results in Hs as [Hs _].
    apply collect_errors_reads_results in Ht as [Ht _].
    rewrite Hvr in Hs. rewrite Hs in Ht. now injection Ht as -> ->.
  - intros s Hkeys. unfold collect_errors.
    destruct (aggregate_total _ Hkeys) as ([c b] & ->). eauto.
Qed.

Lemma C8_collect_errors_idempotent_witness :
  collect_errors two_failures = inr two_failures_collected /\
  collect_errors two_failures_collected = inr two_failures_collected.
Proof.
  assert (collect_errors two_failures = inr two_failures_collected) as H
    by reflexivity.
  split; [exact H|].
  exact (proj1 C8_collect_errors_idempotent _ _ H).
Defined.

(** ** The Docker fixer *)

(** C7 (the code departs from the claim).  On the line [FROM python:3.9]
    the fixer replaces the text [FROM python:] by the whole table entry
    [FROM python:3.11-slim] and leaves the old tag behind it: the line
    becomes [FROM python:3.11-slim3.9], not [FROM python:3.11-slim].  The
    same happens through [fix_dockerfile] on a two-line file, and on
    [FROM node:18] for the second table entry; on a [FROM python:] with
    nothing after the colon the indexing [split()[0]] raises. *)
Theorem C7_from_line_keeps_old_tag :
  fold_exn update_base_image ("FROM python:3.9" ++ PyStr.nl) base_image_updates
  = inr ("FROM python:3.11-slim3.9" ++ PyStr.nl) /\
  fold_exn update_base_image ("FROM python:3.9" ++ PyStr.nl) base_image_updates
  <> inr ("FROM python:3.11-slim" ++ PyStr.nl) /\
  fold_exn update_base_image ("FROM node:18" ++ PyStr.nl) base_image_updates
  = inr ("FROM node:20-alpine18" ++ PyStr.nl) /\
  fix_dockerfile
    ("FROM python:3.9" ++ PyStr.nl ++ "WORKDIR /srv" ++ PyStr.nl
     ++ "USER app" ++ PyStr.nl ++ "CMD [run]" ++ PyStr.nl)
  = inr ("FROM python:3.11-slim3.9" ++ PyStr.nl ++ "WORKDIR /srv" ++ PyStr.nl
         ++ "USER app" ++ PyStr.nl ++ "CMD [run]" ++ PyStr.nl) /\
  fold_exn update_base_image ("FROM python:" ++ PyStr.nl) base_image_updates
  = inl IndexError.
Proof.
  repeat split; try reflexivity.
  intros H. discriminate H.
Qed.

(** ** The fix budget *)

(** C5.  A fixer called when its category's entry has [attempts] equal to
    [max_attempts] returns the state it was given and leaves the world and
    the record of side effects as they were: no file is written, no command
    is run, the clock is not read, no field changes. *)
Theorem C5_exhausted_fixer_is_noop
  {W : Type} {os : OS W} (fuel : nat) (state : CICDState) (s : Sys W)
  (c : string) (a : FixAttempt) :
  Dict.get c (fix_attempts state) = Some a ->
  attempts a = max_attempts a ->
  (c = "terraform" -> fix_terraform fuel state s = Ok state s) /\
  (c = "docker" -> fix_docker state s = Ok state s) /\
  (c = "helm" -> fix_helm fuel state s = Ok state s).
Proof.
  intros Hget Heq.
  assert (can_attempt_fix state c = (false, state)) as Hcan.
  { unfold can_attempt_fix, get_or_create_fix_attempt.
    rewrite Hget, Heq, Z.ltb_irrefl. reflexivity. }
  repeat split; intros ->.
  - unfold fix_terraform. now rewrite Hcan.
  - unfold fix_docker. now rewrite Hcan.
  - unfold fix_helm. now rewrite Hcan.
Qed.

Lemma C5_exhausted_fixer_is_noop_witness :
  let s := SimpleOS.uniform [("app/Dockerfile", "FROM python:3.9")] false in
  fix_docker docker_budget_spent s = Ok docker_budget_spent s.
Proof.
  intros s.
  exact (proj1 (proj2 (C5_exhausted_fixer_is_noop 0 docker_budget_spent s
                         "docker" (mkFixAttempt "docker" 2 2 (Some "1"))
                         eq_refl eq_refl)) eq_refl).
Defined.

(** ** The Helm fixer *)

Lemma nl_cons (t : string) : PyStr.nl ++ t = String (ascii_of_nat 10) t.
Proof. reflexivity. Qed.

Lemma contains_api_prefix (p content : string) :
  p = "name:" \/ p = "version:" ->
  PyStr.contains p (api_version_line ++ content) = PyStr.contains p content.
Proof. intros [->| ->]; reflexivity. Qed.

Lemma contains_name_prefix (t : string) :
  PyStr.contains "version:" ("name: " ++ t) = PyStr.contains "version:" t.
Proof. reflexivity. Qed.

Lemma contains_version_name_line (c chart_dir : string) :
  PyStr.contains "version:" (c ++ name_line chart_dir)
  = PyStr.contains "version:" c
    || PyStr.contains "version:" (OsPath.basename chart_dir).
Proof.
  unfold name_line. rewrite nl_cons.
  rewrite PyStrFacts.contains_sep by (reflexivity || discriminate).
  rewrite contains_name_prefix.
  change PyStr.nl with (String (ascii_of_nat 10) "").
  rewrite PyStrFacts.contains_sep by (reflexivity || discriminate).
  change (PyStr.contains "version:" "") with false.
  now rewrite orb_false_r.
Qed.

Lemma fix_chart_content_eq (chart_dir content : string) :
  fix_chart_content chart_dir content
  = let c1 := if negb (PyStr.contains "apiVersion:" content)
              then api_version_line ++ content else content in
    let c2 := if negb (PyStr.contains "name:" c1)
              then c1 ++ name_line chart_dir else c1 in
    if negb (PyStr.contains "version:" c2)
    then c2 ++ version_line else c2.
Proof.
  unfold fix_chart_content, api_version_line, name_line, version_line.
  cbv zeta.
  destruct (negb (PyStr.contains "apiVersion:" content)); reflexivity.
Qed.

(** [X26] After the edit of [fix_helm] the three field names are in the
    text.  An absent [apiVersion:] is put in front as [apiVersion: v2], an
    absent [name:] is appended with the basename of the chart directory,
    and an absent [version:] is appended as [version: 0.1.0] provided the
    text [version:] has not come in with the name line, that is when
    [name:] was there already or the basename does not contain it. *)
Theorem fix_chart_content_fields (chart_dir content : string) :
  (PyStr.contains "apiVersion:" (fix_chart_content chart_dir content) = true
   /\ PyStr.contains "name:" (fix_chart_content chart_dir content) = true
   /\ PyStr.contains "version:" (fix_chart_content chart_dir content) = true)
  /\
  (PyStr.contains "apiVersion:" content = false ->
   exists rest,
     fix_chart_content chart_dir content = api_version_line ++ rest)
  /\
  (PyStr.contains "name:" content = false ->
   exists pre post,
     fix_chart_content chart_dir content
     = pre ++ name_line chart_dir ++ post)
  /\
  (PyStr.contains "version:" content = false ->
   PyStr.contains "name:" content = true
   \/ PyStr.contains "version:" (OsPath.basename chart_dir) = false ->
   exists pre,
     fix_chart_content chart_dir content = pre ++ version_line).
Proof.
  rewrite fix_chart_content_eq. cbv zeta.
  set (c1 := if negb (PyStr.contains "apiVersion:" content)
             then api_version_line ++ content else content).
  assert (PyStr.contains "apiVersion:" c1 = true) as H1a.
  { subst c1. destruct (PyStr.contains "apiVersion:" content) eqn:E; simpl.
    - exact E.
    - reflexivity. }
  assert (forall p, p = "name:" \/ p = "version:" ->
                    PyStr.contains p c1 = PyStr.contains p content) as H1.
  { intros p Hp. subst c1.
    destruct (PyStr.contains "apiVersion:" content); cbn [negb].
    - reflexivity.
    - now apply contains_api_prefix. }
  assert (content = c1 \/ c1 = api_version_line ++ content) as Hc1.
  { subst c1. destruct (PyStr.contains "apiVersion:" content); auto. }
  assert (PyStr.contains "apiVersion:" content = false ->
          c1 = api_version_line ++ content) as Hc1'.
  { intros E. subst c1. now rewrite E. }
  clearbody c1.
  set (c2 := if negb (PyStr.contains "name:" c1)
             then c1 ++ name_line chart_dir else c1).
  assert (PyStr.contains "apiVersion:" c2 = true) as H2a.
  { subst c2. destruct (PyStr.contains "name:" c1); cbn [negb].
    - exact H1a.
    - now apply PyStrFacts.contains_app_l. }
  assert (PyStr.contains "name:" c2 = true) as H2n.
  { subst c2. destruct (PyStr.contains "name:" c1) eqn:E; cbn [negb].
    - exact E.
    - apply PyStrFacts.contains_app_r. reflexivity. }
  assert (PyStr.contains "version:" c2
          = PyStr.contains "version:" c1
            || (negb (PyStr.contains "name:" c1)
                && PyStr.contains "version:" (OsPath.basename chart_dir)))
    as H2v.
  { subst c2. destruct (PyStr.contains "name:" c1); cbn [negb andb].
    - now rewrite orb_false_r.
    - apply contains_version_name_line. }
  assert (PyStr.contains "name:" c1 = false ->
          c2 = c1 ++ name_line chart_dir) as Hc2'.
  { intros E. subst c2. now rewrite E. }
  assert (c2 = c1 \/ c2 = c1 ++ name_line chart_dir) as Hc2.
  { subst c2. destruct (PyStr.contains "name:" c1); auto. }
  clearbody c2.
  rewrite (H1 "name:") in * by auto.
  rewrite (H1 "version:") in H2v by auto.
  split; [|split; [|split]].
  - destruct (PyStr.contains "version:" c2) eqn:V; cbn [negb].
    + auto.
    + repeat split.
      * now apply PyStrFacts.contains_app_l.
      * now apply PyStrFacts.contains_app_l.
      * apply PyStrFacts.contains_app_r. reflexivity.
  - intros E. rewrite (Hc1' E) in Hc2.
    destruct (negb (PyStr.contains "version:" c2));
      destruct Hc2 as [->| ->];
      rewrite ?PyStrFacts.append_assoc; eauto.
  - intros E. rewrite (Hc2' E).
    destruct (negb (PyStr.contains "version:" (c1 ++ name_line chart_dir))).
    + exists c1, version_line. now rewrite PyStrFacts.append_assoc.
    + exists c1, "". now rewrite PyStrFacts.append_empty_r.
  - intros E Hside. rewrite E in H2v. cbn [orb] in H2v.
    assert (PyStr.contains "version:" c2 = false) as V.
    { rewrite H2v. destruct Hside as [-> | ->]; [reflexivity|].
      apply andb_false_r. }
    rewrite V. cbn [negb]. eauto.
Qed.

Lemma fix_chart_content_fields_witness :
  exists pre,
    fix_chart_content "charts/web" ("apiVersion: v2" ++ PyStr.nl ++ "name: web")
    = pre ++ version_line.
Proof.
  apply (fix_chart_content_fields "charts/web"
           ("apiVersion: v2" ++ PyStr.nl ++ "name: web")).
  - reflexivity.
  - left. reflexivity.
Defined.

(** C6 (the code departs from the claim).  The chart directory
    [charts/version:] holds a [Chart.yaml] with neither [apiVersion:],
    [name:] nor [version:].  The Helm fixer, run with budget left, writes
    the file back with [apiVersion: v2] in front and the name line
    [name: version:] at the end, and no version: its test
    [field not in content] for [version:] reads the text to which the
    name line has just been added.  The file it leaves has no line that
    starts with [version:] and does not mention [version: 0.1.0]. *)
Theorem C6_fix_helm_leaves_out_version :
  exists st' s' fixed,
    fix_helm 30 version_named_chart version_named_world = Ok st' s'
    /\ read_text "charts/version:/Chart.yaml" (world s') = Some fixed
    /\ fixed = "apiVersion: v2" ++ PyStr.nl ++ "description: demo"
               ++ PyStr.nl ++ "name: version:" ++ PyStr.nl
    /\ has_field_line "apiVersion:" fixed = true
    /\ has_field_line "name:" fixed = true
    /\ has_field_line "version:" fixed = false
    /\ PyStr.contains "version: 0.1.0" fixed = false
    /\ ~ inserted_defaults "charts/version:" "description: demo" fixed.
Proof.
  destruct (fix_helm 30 version_named_chart version_named_world)
    as [st' s'| |] eqn:E; vm_compute in E; try discriminate.
  injection E as <- <-.
  eexists _, _, _. split; [reflexivity|]. split; [reflexivity|].
  split; [reflexivity|]. repeat (split; [reflexivity|]).
  intros (_ & _ & Hv). specialize (Hv eq_refl). discriminate Hv.
Qed.

(** ** What each node writes *)

Ltac split_match :=
  match goal with
  | H : (match ?x with _ => _ end) _ = Ok _ _ |- _ => destruct x
  end.

Ltac shape := inv_ok; repeat (split_match; inv_ok).

Section EffectFacts.
Context {W : Type} {os : OS W}.

Lemma finish_fix_ok ft fs (state : CICDState) (s : Sys W) st' s' :
  finish_fix ft fs state s = Ok st' s' ->
  exists t, st' = fixed_state ft t fs state.
Proof.
  unfold finish_fix, increment_fix_attempt, fixed_state.
  destruct (get_or_create_fix_attempt state ft) as [attempt st1].
  intros H. inv_ok. eexists. reflexivity.
Qed.

Lemma discover_files_effect fuel st (s : Sys W) st' s' :
  discover_files fuel st s = Ok st' s' -> node_effect st st'.
Proof. unfold discover_files. intros H. shape. constructor. Qed.

Lemma validate_terraform_effect st (s : Sys W) st' s' :
  validate_terraform st s = Ok st' s' -> node_effect st st'.
Proof. unfold validate_terraform. intros H. shape; constructor. Qed.

Lemma validate_docker_effect st (s : Sys W) st' s' :
  validate_docker st s = Ok st' s' -> node_effect st st'.
Proof. unfold validate_docker. intros H. shape; constructor. Qed.

Lemma validate_helm_effect fuel st (s : Sys W) st' s' :
  validate_helm fuel st s = Ok st' s' -> node_effect st st'.
Proof. unfold validate_helm. intros H. shape; constructor. Qed.

Lemma collect_errors_effect st st' :
  collect_errors st = inr st' -> node_effect st st'.
Proof.
  unfold collect_errors.
  destruct (aggregate (validation_results st)) as [e|[c b]]; [discriminate|].
  intros H. injection H as <-. constructor.
Qed.

Lemma fix_terraform_effect fuel st (s : Sys W) st' s' :
  fix_terraform fuel st s = Ok st' s' -> node_effect st st'.
Proof.
  unfold fix_terraform. pose proof (eff_fix_skip "terraform" st) as Hskip.
  pose proof (eff_fix "terraform") as Hfix. specialize (Hfix) with (st := st).
  destruct (can_attempt_fix st "terraform") as [[|] st1]; simpl in *;
    intros H; shape; auto.
  match goal with
  | H : finish_fix _ _ _ _ = Ok _ _ |- _ =>
      apply finish_fix_ok in H as (t & ->)
  end.
  now apply Hfix.
Qed.

Lemma fix_docker_effect st (s : Sys W) st' s' :
  fix_docker st s = Ok st' s' -> node_effect st st'.
Proof.
  unfold fix_docker. pose proof (eff_fix_skip "docker" st) as Hskip.
  pose proof (eff_fix "docker") as Hfix. specialize (Hfix) with (st := st).
  destruct (can_attempt_fix st "docker") as [[|] st1]; simpl in *;
    intros H; shape; auto.
  match goal with
  | H : finish_fix _ _ _ _ = Ok _ _ |- _ =>
      apply finish_fix_ok in H as (t & ->)
  end.
  now apply Hfix.
Qed.

Lemma fix_helm_effect fuel st (s : Sys W) st' s' :
  fix_helm fuel st s = Ok st' s' -> node_effect st st'.
Proof.
  unfold fix_helm. pose proof (eff_fix_skip "helm" st) as Hskip.
  pose proof (eff_fix "helm") as Hfix. specialize (Hfix) with (st := st).
  destruct (can_attempt_fix st "helm") as [[|] st1]; simpl in *;
    intros H; shape; auto.
  match goal with
  | H : finish_fix _ _ _ _ = Ok _ _ |- _ =>
      apply finish_fix_ok in H as (t & ->)
  end.
  now apply Hfix.
Qed.

Lemma release_docker_effect st (s : Sys W) st' s' :
  release_docker st s = Ok st' s' -> node_effect st st'.
Proof. unfold release_docker. intros H. shape; constructor. Qed.

Lemma release_helm_effect fuel st (s : Sys W) st' s' :
  release_helm fuel st s = Ok st' s' -> node_effect st st'.
Proof. unfold release_helm. intros H. shape; constructor. Qed.

End EffectFacts.

(** ** The Terraform release stage *)

Section TerraformRelease.
Context {W : Type} {os : OS W}.

Lemma run_command_eq (cmd : list string) (cwd : option string) (s : Sys W) :
  run_command cmd cwd s
  = let '(r, w') := subprocess_run cmd cwd (world s) in
    Ok (proc_passed r, proc_stdout r, proc_stderr r)
      (mkSys w' (trace s ++ [EvRun cmd cwd r])).
Proof.
  unfold run_command, run_process, bind.
  destruct (subprocess_run cmd cwd (world s)) as [[[[rc out] err]|msg] w'];
    reflexivity.
Qed.

Lemma release_tf_dirs_spec (dirs : list string) :
  forall (state : CICDState) (s : Sys W),
  exists n rs r s' evs,
    release_tf_dirs dirs state s = Ok r s'
    /\ trace s' = (trace s ++ evs)%list
    /\ List.length rs = n /\ n <= List.length dirs
    /\ Forall both_passed rs
    /\ tf_outcome dirs n rs state evs r.
Proof.
  induction dirs as [|d rest IH]; intros state s.
  - exists 0, [], (inr state), s, [].
    repeat split; auto using app_nil_r. left. repeat split.
  - cbn [release_tf_dirs]. unfold bind at 1. rewrite run_command_eq.
    destruct (subprocess_run plan_cmd (Some d) (world s)) as [rp w1] eqn:Ep.
    fold plan_cmd. rewrite Ep.
    destruct (proc_passed rp) eqn:Pp.
    + unfold bind at 1. rewrite run_command_eq. cbn [world trace].
      fold apply_cmd.
      destruct (subprocess_run apply_cmd (Some d) w1) as [ra w2] eqn:Ea.
      destruct (proc_passed ra) eqn:Pa.
      * destruct (IH (set_terraform_applied true state)
                    (mkSys w2 ((trace s ++ [EvRun plan_cmd (Some d) rp])
                               ++ [EvRun apply_cmd (Some d) ra])))
          as (n & rs & r & s' & evs & Hrun & Htr & Hlen & Hle & Hall & Hout).
        exists (S n), ((rp, ra) :: rs), r, s',
          (EvRun plan_cmd (Some d) rp :: EvRun apply_cmd (Some d) ra :: evs).
        split; [exact Hrun|]. split.
        { rewrite Htr. cbn [trace]. now rewrite <- !app_assoc. }
        split; [simpl; lia|]. split; [simpl; lia|].
        split; [constructor; [now split | exact Hall]|].
        assert (applied_after n (set_terraform_applied true state)
                = applied_after (S n) state) as Happ
          by (destruct n; reflexivity).
        unfold tf_outcome in *. rewrite Happ in Hout.
        destruct Hout as [(Hn & Hev & Hr)
                         |[(d' & rp' & Hd & Hp & Hev & Hr)
                          |(d' & rp' & ra' & Hd & Hp & Ha & Hev & Hr)]].
        -- left. repeat split; [simpl; lia | | exact Hr].
           now rewrite Hev.
        -- right. left. exists d', rp'.
           repeat split; auto. now rewrite Hev.
        -- right. right. exists d', rp', ra'.
           repeat split; auto. now rewrite Hev.
      * exists 0, []. do 2 eexists.
        exists [EvRun plan_cmd (Some d) rp; EvRun apply_cmd (Some d) ra].
        split; [reflexivity|]. split.
        { cbn [trace]. now rewrite <- app_assoc. }
        repeat split; auto; [simpl; lia|].
        right. right. exists d, rp, ra. repeat split; auto.
    + exists 0, []. do 2 eexists. exists [EvRun plan_cmd (Some d) rp].
      split; [reflexivity|]. split; [reflexivity|].
      repeat split; auto; [simpl; lia|].
      right. left. exists d, rp. repeat split; auto.
Qed.

End TerraformRelease.



(** ** The Docker and Helm release stages *)

Section DockerHelmRelease.
Context {W : Type} {os : OS W}.

Lemma build_images_spec (timestamp : string) (fs : list string) :
  forall (acc : list string) (s : Sys W),
  exists acc' s' evs,
    for_each (build_image timestamp) acc fs s = Ok acc' s'
    /\ trace s' = (trace s ++ evs)%list
    /\ List.length evs = List.length fs
    /\ (all_failed evs -> acc' = acc).
Proof.
  induction fs as [|f fs IH]; intros acc s.
  - exists acc, s, []. repeat split; auto using app_nil_r.
  - cbn [for_each]. unfold bind at 1. unfold build_image at 1.
    unfold bind at 1. unfold abspath at 1. unfold bind at 1.
    rewrite run_command_eq.
    match goal with
    | |- context [subprocess_run ?c ?d ?w] =>
        destruct (subprocess_run c d w) as [r w1] eqn:E;
        set (cmd := c) in *; set (cwd := d) in *
    end.
    destruct (IH (if proc_passed r
                  then (acc ++ [(PyStr.lower
                                   (OsPath.basename
                                      (path_abspath (docker_dir_of f)
                                         (world s)))
                                 ++ ":" ++ timestamp)%string])%list
                  else acc)
                (mkSys w1 (trace s ++ [EvRun cmd cwd r])))
      as (acc' & s' & evs & Hrun & Htr & Hlen & Hfail).
    exists acc', s', (EvRun cmd cwd r :: evs).
    split.
    { destruct (proc_passed r); exact Hrun. }
    split; [rewrite Htr; cbn [trace]; now rewrite <- app_assoc|].
    split; [simpl; lia|].
    intros Hall. inversion Hall as [|? ? Hr Hrest]; subst.
    simpl in Hr. rewrite Hr in Hfail. now apply Hfail.
Qed.

Lemma package_charts_spec (dirs : list string) :
  forall (acc : list string) (s : Sys W),
  exists acc' s' evs,
    for_each package_chart acc dirs s = Ok acc' s'
    /\ trace s' = (trace s ++ evs)%list
    /\ List.length evs = List.length dirs
    /\ (all_failed evs -> acc' = acc).
Proof.
  induction dirs as [|d dirs IH]; intros acc s.
  - exists acc, s, []. repeat split; auto using app_nil_r.
  - cbn [for_each]. unfold bind at 1. unfold package_chart at 1.
    unfold bind at 1. rewrite run_command_eq.
    match goal with
    | |- context [subprocess_run ?c ?d ?w] =>
        destruct (subprocess_run c d w) as [r w1] eqn:E;
        set (cmd := c) in *; set (cwd := d) in *
    end.
    destruct (IH (if proc_passed r
                  then (acc ++ [OsPath.basename d])%list else acc)
                (mkSys w1 (trace s ++ [EvRun cmd cwd r])))
      as (acc' & s' & evs & Hrun & Htr & Hlen & Hfail).
    exists acc', s', (EvRun cmd cwd r :: evs).
    split.
    { destruct (proc_passed r); exact Hrun. }
    split; [rewrite Htr; cbn [trace]; now rewrite <- app_assoc|].
    split; [simpl; lia|].
    intros Hall. inversion Hall as [|? ? Hr Hrest]; subst.
    simpl in Hr. rewrite Hr in Hfail. now apply Hfail.
Qed.

(** The chart search reads the world and changes nothing. *)
Lemma chart_dirs_of_ok (fuel : nat) (fs : list string) (s : Sys W) dirs s' :
  chart_dirs_of fuel fs s = Ok dirs s' -> s' = s.
Proof.
  unfold chart_dirs_of. intros H. inv_ok.
  revert E. apply (for_each_inv (fun _ s1 => s1 = s)); [|reflexivity].
  intros acc f s1 acc' s2 _ -> H. inv_ok.
  apply nearest_chart_dir_ok in E as [-> _].
  match goal with
  | H : (if ?b then _ else _) _ = Ok _ _ |- _ => destruct b
  end; inv_ok; reflexivity.
Qed.

(** On relative paths the chart search ends. *)
Lemma chart_dirs_of_relative (fuel : nat) (fs : list string) (s : Sys W) :
  Forall (fun f => relative f /\ String.length f < fuel) fs ->
  exists dirs, chart_dirs_of fuel fs s = Ok dirs s.
Proof.
  intros Hall. unfold chart_dirs_of.
  assert (forall acc, exists found,
             for_each
               (fun chart_dirs f =>
                  chart_dir <- nearest_chart_dir fuel (OsPath.dirname f) ;;
                  if String.eqb chart_dir "" then ret chart_dirs
                  else ret (chart_dirs ++ [chart_dir])%list)
               acc fs s = Ok found s) as H.
  { induction Hall as [|f fs [Hrel Hlen] _ IH]; intros acc.
    - now exists acc.
    - cbn [for_each]. unfold bind at 1. unfold bind at 1.
      destruct (nearest_chart_dir_relative fuel (OsPath.dirname f) s)
        as (d & ->).
      + pose proof (PyStrFacts.dirname_length f). lia.
      + now apply PyStrFacts.dirname_relative.
      + destruct (String.eqb d ""); apply IH. }
  destruct (H []) as (found & Hf).
  exists (set_iter found). unfold bind at 1. now rewrite Hf.
Qed.

End DockerHelmRelease.



(** ** Every node, and what it keeps *)

Section RunNode.
Context {W : Type} {os : OS W}.

Lemma release_terraform_effect st (s : Sys W) st' s' :
  release_terraform st s = Ok st' s' -> node_effect st st'.
Proof.
  unfold release_terraform. intros H.
  apply bind_ok in H as (fs & s1 & E & H).
  apply lift_ok in E as [_ ->].
  destruct fs as [|f fs']; [inv_ok; constructor|].
  apply bind_ok in H as (r & s1 & E & H).
  destruct (release_tf_dirs_spec
              (set_iter (map OsPath.dirname (f :: fs'))) st s)
    as (n & rs & r0 & s2 & evs & Hrun & _ & _ & _ & _ & Hout).
  rewrite Hrun in E. injection E as -> ->.
  assert (forall v, node_effect st
                      (set_release "terraform" v (applied_after n st)))
    as Heff.
  { intros v. destruct n; [apply eff_release|].
    apply eff_release_terraform. }
  destruct Hout as [(_ & _ & ->)|[(d & rp & _ & _ & _ & ->)
                                 |(d & rp & ra & _ & _ & _ & _ & ->)]];
    inv_ok; apply Heff.
Qed.
Lemma run_node_effect fuel n st (s : Sys W) st' s' :
  run_node fuel n st s = Ok st' s' -> node_effect st st'.
Proof.
  destruct n; cbn [run_node]; intros H.
  - eapply discover_files_effect; eauto.
  - eapply validate_terraform_effect; eauto.
  - eapply validate_docker_effect; eauto.
  - eapply validate_helm_effect; eauto.
  - apply lift_ok in H as [H _]. now apply collect_errors_effect.
  - apply ret_ok in H as [-> _]. constructor.
  - eapply fix_terraform_effect; eauto.
  - eapply fix_docker_effect; eauto.
  - eapply fix_helm_effect; eauto.
  - apply ret_ok in H as [-> _]. constructor.
  - eapply release_docker_effect; eauto.
  - eapply release_helm_effect; eauto.
  - eapply release_terraform_effect; eauto.
  - apply ret_ok in H as [-> _]. constructor.
Qed.

End RunNode.

(** ** The budget across the workflow *)

Lemma decide_keeps_budget (st : CICDState) :
  fix_attempts (snd (decide_next_action st)) = fix_attempts st.
Proof.
  unfold decide_next_action.
  destruct (Nat.eqb (total_errors st) 0); [reflexivity|].
  destruct (fold_left (check_category st) categories false); reflexivity.
Qed.

Lemma get_or_create_budget (st : CICDState) (ft c : string) :
  attempts_of c (snd (get_or_create_fix_attempt st ft)) = attempts_of c st
  /\ max_attempts_of c (snd (get_or_create_fix_attempt st ft))
     = max_attempts_of c st.
Proof.
  unfold get_or_create_fix_attempt, attempts_of, max_attempts_of.
  destruct (Dict.get ft (fix_attempts st)) eqn:E; [now split|].
  cbn [snd fix_attempts set_fix_attempts].
  destruct (String.eqb_spec c ft) as [->|Hne].
  - rewrite dict_get_set_same, E. now split.
  - rewrite dict_get_set_other by assumption. now split.
Qed.

Lemma get_or_create_entry (st : CICDState) (ft : string) :
  Dict.get ft (fix_attempts (snd (get_or_create_fix_attempt st ft)))
  = Some (fst (get_or_create_fix_attempt st ft)).
Proof.
  unfold get_or_create_fix_attempt.
  destruct (Dict.get ft (fix_attempts st)) eqn:E; [exact E|].
  cbn [snd fst fix_attempts set_fix_attempts]. apply dict_get_set_same.
Qed.

Lemma can_attempt_fix_snd (st : CICDState) (ft : string) :
  snd (can_attempt_fix st ft) = snd (get_or_create_fix_attempt st ft).
Proof.
  unfold can_attempt_fix.
  now destruct (get_or_create_fix_attempt st ft).
Qed.

Lemma can_attempt_fix_fst (st : CICDState) (ft : string) :
  fst (can_attempt_fix st ft)
  = (attempts_of ft st <? max_attempts_of ft st)%Z.
Proof.
  unfold can_attempt_fix, get_or_create_fix_attempt, attempts_of,
    max_attempts_of.
  destruct (Dict.get ft (fix_attempts st)); reflexivity.
Qed.

Lemma fixed_state_budget (st : CICDState) (ft t : string) fs (c : string) :
  attempts_of c (fixed_state ft t fs st)
  = (if String.eqb c ft then attempts_of ft st + 1 else attempts_of c st)%Z
  /\ max_attempts_of c (fixed_state ft t fs st) = max_attempts_of c st.
Proof.
  unfold fixed_state.
  pose proof (get_or_create_entry st ft) as He.
  pose proof (get_or_create_budget st ft) as Hb.
  destruct (get_or_create_fix_attempt st ft) as [a st1].
  cbn [fst snd] in He, Hb.
  unfold attempts_of, max_attempts_of in *.
  cbn [fix_attempts set_fix_applied set_files_fixed set_fix_attempts].
  destruct (String.eqb_spec c ft) as [->|Hne].
  - rewrite dict_get_set_same. cbn [attempts max_attempts].
    destruct (Hb ft) as [Ha Hm]. rewrite He in Ha, Hm. now rewrite Ha, Hm.
  - rewrite dict_get_set_other by assumption. apply Hb.
Qed.

(** A node never lowers an attempt count nor touches a maximum, and a fix
    round raises a count only where it was below its maximum. *)
Lemma node_effect_budget (st st' : CICDState) (c : string) :
  node_effect st st' ->
  max_attempts_of c st' = max_attempts_of c st
  /\ (attempts_of c st <= attempts_of c st')%Z
  /\ (attempts_of c st' = attempts_of c st
      \/ (attempts_of c st < max_attempts_of c st)%Z
         /\ attempts_of c st' = (attempts_of c st + 1)%Z).
Proof.
  assert (forall a b : CICDState,
             fix_attempts b = fix_attempts a ->
             max_attempts_of c b = max_attempts_of c a
             /\ (attempts_of c a <= attempts_of c b)%Z
             /\ (attempts_of c b = attempts_of c a
                 \/ (attempts_of c a < max_attempts_of c a)%Z
                    /\ attempts_of c b = (attempts_of c a + 1)%Z)) as Hsame.
  { intros a b E. unfold attempts_of, max_attempts_of. rewrite E.
    repeat split; [lia | now left]. }
  intros H. destruct H; try (apply Hsame; reflexivity).
  - apply Hsame, decide_keeps_budget.
  - rewrite can_attempt_fix_snd.
    destruct (get_or_create_budget st ft c) as [-> ->].
    repeat split; [lia | now left].
  - rewrite can_attempt_fix_fst in H. apply Z.ltb_lt in H.
    destruct (fixed_state_budget (snd (can_attempt_fix st ft)) ft t fs c)
      as [Ha ->].
    rewrite Ha, can_attempt_fix_snd.
    destruct (get_or_create_budget st ft c) as [-> ->].
    destruct (get_or_create_budget st ft ft) as [-> _].
    destruct (String.eqb_spec c ft) as [->|Hne].
    + repeat split; [lia | right; split; [exact H | reflexivity]].
    + repeat split; [lia | now left].
Qed.

Section Reachable.
Context {W : Type} {os : OS W}.

Lemma seeded_budget (m : Z) (paths : list string) (c : string) :
  attempts_of c (seed_fix_attempts m (create_initial_state paths)) = 0%Z
  /\ (max_attempts_of c (seed_fix_attempts m (create_initial_state paths))
      = m
      \/ max_attempts_of c (seed_fix_attempts m (create_initial_state paths))
         = 3%Z).
Proof.
  assert (fix_attempts (seed_fix_attempts m (create_initial_state paths))
          = [("terraform", mkFixAttempt "terraform" 0 m None);
             ("docker", mkFixAttempt "docker" 0 m None);
             ("helm", mkFixAttempt "helm" 0 m None)]) as E by reflexivity.
  unfold attempts_of, max_attempts_of. rewrite E. cbn [Dict.get].
  destruct (String.eqb c "terraform"); [split; [reflexivity | now left]|].
  destruct (String.eqb c "docker"); [split; [reflexivity | now left]|].
  destruct (String.eqb c "helm"); [split; [reflexivity | now left]|].
  split; [reflexivity | now right].
Qed.

Lemma reachable_budget (m : Z) (st : CICDState) (c : string) :
  reachable m st ->
  (0 <= attempts_of c st <= Z.max 0 (max_attempts_of c st))%Z
  /\ (max_attempts_of c st = m \/ max_attempts_of c st = 3%Z).
Proof.
  induction 1 as [paths|st fuel n s st' s' _ IH Hrun].
  - destruct (seeded_budget m paths c) as [-> Hm]. split; [lia | exact Hm].
  - apply run_node_effect in Hrun.
    destruct (node_effect_budget st st' c Hrun) as (-> & Hle & Hstep).
    destruct IH as [IH Hm]. split; [|exact Hm].
    destruct Hstep as [->|[Hlt ->]]; lia.
Qed.

End Reachable.

(** C4 (amended).  In every state the workflow can reach, and for every
    category, [attempts] never exceeds [max(0, max_attempts)], hence never
    exceeds [max_attempts] when the run was started with a non-negative
    [--max-fix-attempts]; and no node lowers [attempts] or changes
    [max_attempts].  ([attempts_of] and [max_attempts_of] read an entry
    the way the decision function does.) *)
Theorem C4_fix_budget_monotone_bounded
  {W : Type} {os : OS W} (m : Z) (st : CICDState) (c : string) :
  reachable (W := W) m st ->
  (attempts_of c st <= Z.max 0 (max_attempts_of c st))%Z
  /\ (forall a,
         Dict.get c (fix_attempts st) = Some a ->
         (attempts a <= Z.max 0 (max_attempts a))%Z)
  /\ ((0 <= m)%Z -> (attempts_of c st <= max_attempts_of c st)%Z)
  /\ (forall fuel n (s : Sys W) st' s',
         run_node fuel n st s = Ok st' s' ->
         (attempts_of c st <= attempts_of c st')%Z
         /\ max_attempts_of c st' = max_attempts_of c st).
Proof.
  intros Hreach.
  destruct (reachable_budget m st c Hreach) as [Hb Hm].
  split; [lia|]. split.
  { intros a Ha. unfold attempts_of, max_attempts_of in Hb.
    rewrite Ha in Hb. lia. }
  split; [destruct Hm; lia|].
  intros fuel n s st' s' Hrun. apply run_node_effect in Hrun.
  destruct (node_effect_budget st st' c Hrun) as (Hmax & Hle & _).
  now split.
Qed.

Lemma C4_fix_budget_monotone_bounded_witness :
  exists st,
    reachable (W := SimpleOS.World) 1 st
    /\ attempts_of "docker" st = 1%Z
    /\ (attempts_of "docker" st <= max_attempts_of "docker" st)%Z.
Proof.
  pose (s := SimpleOS.uniform [("app/Dockerfile", "FROM alpine:3.18")] false).
  pose (st0 := seed_fix_attempts 1 (create_initial_state ["app"])).
  assert (exists st1 s1, run_node 5 n_discover st0 s = Ok st1 s1)
    as (st1 & s1 & H1) by (vm_compute; eauto).
  assert (exists st2 s2, run_node 5 n_fix_docker st1 s1 = Ok st2 s2)
    as (st2 & s2 & H2).
  { vm_compute in H1. injection H1 as <- <-. vm_compute. eauto. }
  assert (reachable (W := SimpleOS.World) 1 st2) as Hreach.
  { eapply reach_step; [|exact H2].
    eapply reach_step; [|exact H1]. apply reach_init. }
  exists st2. split; [exact Hreach|].
  split.
  - vm_compute in H1. injection H1 as <- <-.
    vm_compute in H2. injection H2 as <- <-. reflexivity.
  - apply (proj1 (proj2 (proj2
             (C4_fix_budget_monotone_bounded 1 st2 "docker" Hreach)))).
    lia.
Defined.

(** As stated the bound fails: started with [--max-fix-attempts -1] the
    seeded state already has [attempts = 0] above [max_attempts = -1]. *)
Lemma C4_attempts_above_negative_max :
  exists st,
    reachable (W := SimpleOS.World) (-1) st
    /\ ~ (attempts_of "docker" st <= max_attempts_of "docker" st)%Z.
Proof.
  exists (seed_fix_attempts (-1) (create_initial_state ["."])).
  split; [apply reach_init|].
  change (~ (0 <= -1)%Z). lia.
Qed.

(** ** The terminal status and the exit code *)

Lemma get_or_create_status (st : CICDState) (ft : string) :
  status (snd (get_or_create_fix_attempt st ft)) = status st
  /\ error_message (snd (get_or_create_fix_attempt st ft))
     = error_message st.
Proof.
  unfold get_or_create_fix_attempt.
  destruct (Dict.get ft (fix_attempts st)); now split.
Qed.

(** The only values a node writes to [status]. *)
Lemma node_effect_status (st st' : CICDState) :
  node_effect st st' ->
  status st' = status st
  \/ In (status st') ["fixing"; "failed"; "releasing"].
Proof.
  intros H. destruct H; try (left; reflexivity).
  - unfold decide_next_action.
    destruct (Nat.eqb (total_errors st) 0); [now left|].
    destruct (fold_left (check_category st) categories false);
      right; simpl; auto.
  - left. rewrite can_attempt_fix_snd. apply get_or_create_status.
  - left. unfold fixed_state.
    pose proof (get_or_create_status (snd (can_attempt_fix st ft)) ft) as Hs.
    destruct (get_or_create_fix_attempt (snd (can_attempt_fix st ft)) ft)
      as [a st1].
    cbn [snd] in Hs.
    cbn [status set_fix_applied set_files_fixed set_fix_attempts].
    rewrite (proj1 Hs), can_attempt_fix_snd. apply get_or_create_status.
  - right. simpl. auto.
  - right. simpl. auto.
Qed.

(** The exit code of [main] as a function of how the run ended. *)
Lemma exit_code_spec {W : Type} (r : Outcome W CICDState) :
  (exit_code r = Some 0%Z <->
   exists st s, r = Ok st s /\ status st = "success")
  /\ (exit_code r = Some 1%Z <->
      (exists st s, r = Ok st s /\ status st <> "success")
      \/ (exists e s, r = Raise e s)).
Proof.
  destruct r as [st s|e s|]; simpl.
  - destruct (String.eqb_spec (status st) "success") as [E|E]; split; split.
    + intros _. now exists st, s.
    + reflexivity.
    + discriminate.
    + intros [(st' & s' & H & Hne)|(e & s' & H)]; [|discriminate].
      injection H as <- <-. contradiction.
    + discriminate.
    + intros (st' & s' & H & Hs). injection H as <- <-. contradiction.
    + intros _. left. now exists st, s.
    + reflexivity.
  - split; split; try discriminate.
    + intros (st & s' & H & _). discriminate.
    + intros _. right. now exists e, s.
    + reflexivity.
  - split; split; try discriminate.
    + intros (st & s' & H & _). discriminate.
    + intros [(st & s' & H & _)|(e & s' & H)]; discriminate.
Qed.

(** * Further properties of the code *)

(** ** The aggregator: what it collects *)

Lemma dict_append_get (k x : string) (d d' : Dict.t (list string)) (c : string) :
  dict_append k x d = inr d' ->
  Dict.get c d'
  = option_map (fun l => (l ++ if String.eqb c k then [x] else [])%list)
      (Dict.get c d).
Proof.
  unfold dict_append. destruct (Dict.get k d) as [l|] eqn:E; [|discriminate].
  intros [= <-]. destruct (String.eqb_spec c k) as [->|Hne].
  - now rewrite dict_get_set_same, E.
  - rewrite dict_get_set_other by assumption.
    destruct (Dict.get c d); simpl; [now rewrite app_nil_r | reflexivity].
Qed.

Lemma collect_results_get (ft : string) (rs : list ValidationResult) :
  forall acc acc' c,
    fold_exn (collect_result ft) acc rs = inr acc' ->
    Dict.get c (fst acc')
    = option_map
        (fun l => (l ++ if String.eqb c ft
                        then map error_line (filter failed rs) else [])%list)
        (Dict.get c (fst acc)).
Proof.
  induction rs as [|r rs IH]; intros acc acc' c H.
  - simpl in H. injection H as <-.
    destruct (Dict.get c (fst acc)); simpl; [|reflexivity].
    destruct (String.eqb c ft); now rewrite app_nil_r.
  - cbn [fold_exn] in H.
    destruct (collect_result ft acc r) as [e|acc1] eqn:E; [discriminate|].
    rewrite (IH _ _ c H). clear IH H.
    destruct acc as [collected by_file]. unfold collect_result in E.
    cbn [filter]. unfold failed at 2.
    destruct (negb (passed r)).
    + destruct (dict_append ft (error_line r) collected) as [e|d'] eqn:Ed;
        [discriminate|].
      injection E as <-. cbn [fst].
      rewrite (dict_append_get _ _ _ _ c Ed).
      destruct (Dict.get c collected); simpl; [|reflexivity].
      destruct (String.eqb c ft); simpl; now rewrite <- app_assoc.
    + injection E as <-. reflexivity.
Qed.

Lemma aggregate_get (vr : Dict.t (list ValidationResult)) :
  forall acc out c,
    fold_exn
      (fun acc '(file_type, results) =>
         fold_exn (collect_result file_type) acc results)
      acc vr = inr out ->
    Dict.get c (fst out)
    = option_map
        (fun l => (l ++ map error_line (filter failed (results_of c vr)))%list)
        (Dict.get c (fst acc)).
Proof.
  induction vr as [|[ft rs] vr IH]; intros acc out c H.
  - simpl in H. injection H as <-.
    destruct (Dict.get c (fst acc)); simpl; [now rewrite app_nil_r|reflexivity].
  - cbn [fold_exn] in H.
    destruct (fold_exn (collect_result ft) acc rs) as [e|acc1] eqn:E;
      [discriminate|].
    rewrite (IH _ _ c H), (collect_results_get ft rs _ _ c E).
    unfold results_of. cbn [filter fst].
    rewrite (String.eqb_sym ft c).
    destruct (Dict.get c (fst acc)); simpl; [|reflexivity].
    destruct (String.eqb c ft); simpl.
    + now rewrite filter_app, map_app, app_assoc.
    + now rewrite app_nil_r.
Qed.

(** [X1] After aggregation the error list of each category is made of one
    line per failed result recorded under that category, in the order of
    the results; a result that passed contributes nothing. *)
Theorem collected_errors_are_failed_results (s s1 : CICDState) (c : string) :
  collect_errors s = inr s1 ->
  In c categories ->
  errors_of c s1
  = map error_line (filter failed (results_of c (validation_results s))).
Proof.
  intros H Hc. apply collect_errors_reads_results in H as [H _].
  unfold aggregate in H. apply aggregate_get with (c := c) in H.
  unfold errors_of. cbn [fst] in H. rewrite H.
  destruct Hc as [<-|[<-|[<-|[]]]]; reflexivity.
Qed.

Lemma collected_errors_are_failed_results_witness :
  errors_of "helm" two_failures_collected
  = map error_line
      (filter failed (results_of "helm" (validation_results two_failures))).
Proof.
  apply (collected_errors_are_failed_results two_failures).
  - reflexivity.
  - simpl. auto.
Defined.

Lemma extended_app (o : option (list string)) (a b : list ValidationResult) :
  extended (extended o a) b = extended o (a ++ b).
Proof.
  destruct a as [|x a]; [reflexivity|].
  destruct b as [|y b].
  - now rewrite app_nil_r.
  - cbn [extended app]. f_equal.
    change (x :: (a ++ y :: b)%list) with ((x :: a) ++ y :: b)%list.
    now rewrite flat_map_app, app_assoc.
Qed.

Lemma dict_extend_get (q : string) (xs : list string)
  (d : Dict.t (list string)) (p : string) :
  Dict.get p (dict_extend q xs d)
  = if String.eqb p q
    then Some ((match Dict.get q d with Some l => l | None => [] end) ++ xs)%list
    else Dict.get p d.
Proof.
  unfold dict_extend. destruct (String.eqb_spec p q) as [->|Hne].
  - destruct (Dict.get q d); now rewrite dict_get_set_same.
  - destruct (Dict.get q d); now rewrite dict_get_set_other.
Qed.

Lemma collect_results_by_file (ft : string) (rs : list ValidationResult) :
  forall acc acc' p,
    fold_exn (collect_result ft) acc rs = inr acc' ->
    Dict.get p (snd acc') = extended (Dict.get p (snd acc)) (failed_for p rs).
Proof.
  induction rs as [|r rs IH]; intros acc acc' p H.
  - simpl in H. now injection H as <-.
  - cbn [fold_exn] in H.
    destruct (collect_result ft acc r) as [e|acc1] eqn:E; [discriminate|].
    rewrite (IH _ _ p H). clear IH H.
    assert (failed_for p (r :: rs)
            = ((if failed r && String.eqb (file_path r) p then [r] else [])
               ++ failed_for p rs)%list) as ->.
    { unfold failed_for. cbn [filter].
      now destruct (failed r && String.eqb (file_path r) p). }
    rewrite <- extended_app. f_equal.
    destruct acc as [collected by_file]. unfold collect_result in E.
    unfold failed. destruct (negb (passed r)); cbn [andb].
    + destruct (dict_append ft (error_line r) collected); [discriminate|].
      injection E as <-. cbn [snd]. rewrite dict_extend_get.
      rewrite (String.eqb_sym (file_path r) p).
      destruct (String.eqb_spec p (file_path r)) as [->|Hne].
      * cbn [extended flat_map]. now rewrite app_nil_r.
      * reflexivity.
    + injection E as <-. reflexivity.
Qed.

Lemma aggregate_by_file (vr : Dict.t (list ValidationResult)) :
  forall acc out p,
    fold_exn
      (fun acc '(file_type, results) =>
         fold_exn (collect_result file_type) acc results)
      acc vr = inr out ->
    Dict.get p (snd out)
    = extended (Dict.get p (snd acc)) (failed_for p (all_results vr)).
Proof.
  induction vr as [|[ft rs] vr IH]; intros acc out p H.
  - simpl in H. now injection H as <-.
  - cbn [fold_exn] in H.
    destruct (fold_exn (collect_result ft) acc rs) as [e|acc1] eqn:E;
      [discriminate|].
    rewrite (IH _ _ p H), (collect_results_by_file ft rs _ _ p E).
    rewrite extended_app. unfold all_results, failed_for.
    cbn [flat_map snd]. now rewrite filter_app.
Qed.

(** [X2] After aggregation a path has an entry in [errors_by_file] exactly when
    some result about it failed, and the entry is the concatenation of the
    error lists of the failed results about it, over all categories, in the
    order of the results. *)
Theorem errors_by_file_are_failed_errors (s s1 : CICDState) (p : string) :
  collect_errors s = inr s1 ->
  Dict.get p (errors_by_file s1)
  = match failed_for p (all_results (validation_results s)) with
    | [] => None
    | frs => Some (flat_map errors frs)
    end.
Proof.
  intros H. apply collect_errors_reads_results in H as [H _].
  unfold aggregate in H. apply aggregate_by_file with (p := p) in H.
  cbn [snd Dict.get] in H. rewrite H.
  now destruct (failed_for p (all_results (validation_results s))).
Qed.

Lemma errors_by_file_are_failed_errors_witness :
  Dict.get "svc" (errors_by_file two_failures_collected)
  = Some ["unused variable"; "icon missing"].
Proof.
  exact (errors_by_file_are_failed_errors two_failures two_failures_collected
           "svc" eq_refl).
Defined.

(** ** The aggregator: how it fails *)

Lemma collect_results_raise (ft : string) (rs : list ValidationResult) :
  forall acc e,
    has_categories (fst acc) ->
    fold_exn (collect_result ft) acc rs = inl e ->
    e = KeyError ft /\ ~ In ft categories
    /\ exists r, In r rs /\ passed r = false.
Proof.
  induction rs as [|r rs IH]; intros acc e Hacc H; [discriminate|].
  cbn [fold_exn] in H.
  destruct (collect_result ft acc r) as [e1|acc1] eqn:E.
  - injection H as <-. destruct acc as [collected by_file].
    unfold collect_result in E.
    destruct (passed r) eqn:Hp; cbn [negb] in E; [discriminate|].
    unfold dict_append in E.
    destruct (Dict.get ft collected) eqn:G; [discriminate|].
    injection E as <-. split; [reflexivity|]. split.
    + intros Hin. exact (Hacc ft Hin G).
    + exists r. split; [now left | exact Hp].
  - assert (has_categories (fst acc1)) as H1.
    { destruct acc as [collected by_file]. unfold collect_result in E.
      destruct (negb (passed r)); [|now injection E as <-].
      destruct (dict_append ft (error_line r) collected) as [|d'] eqn:Ed;
        [discriminate|].
      injection E as <-. exact (dict_append_keeps Ed Hacc). }
    destruct (IH acc1 e H1 H) as (He & Hft & r' & Hin & Hp).
    split; [exact He|]. split; [exact Hft|].
    exists r'. split; [now right | exact Hp].
Qed.

Lemma collect_results_keep (ft : string) (rs : list ValidationResult) :
  forall acc acc',
    has_categories (fst acc) ->
    fold_exn (collect_result ft) acc rs = inr acc' ->
    has_categories (fst acc').
Proof.
  intros acc acc' Hacc H c Hc.
  rewrite (collect_results_get ft rs acc acc' c H).
  specialize (Hacc c Hc). now destruct (Dict.get c (fst acc)).
Qed.

(** [X3] The aggregator raises nothing but a [KeyError], and only for a key of
    [validation_results] that is none of the three categories and has a
    failed result under it. *)
Theorem collect_errors_raises_only_on_foreign_key (s : CICDState) (e : Exn) :
  collect_errors s = inl e ->
  exists k rs r,
    In (k, rs) (validation_results s) /\ In r rs /\ passed r = false
    /\ ~ In k categories /\ e = KeyError k.
Proof.
  unfold collect_errors.
  destruct (aggregate (validation_results s)) as [e0|[c b]] eqn:E;
    [|discriminate].
  intros [= <-]. unfold aggregate in E.
  assert (has_categories
            (fst ([("terraform", @nil string); ("docker", []); ("helm", [])],
                  @nil (string * list string)))) as H0.
  { intros c [<-|[<-|[<-|[]]]]; discriminate. }
  revert H0 E.
  generalize ([("terraform", @nil string); ("docker", []); ("helm", [])],
              @nil (string * list string)).
  induction (validation_results s) as [|[k rs] vr IH]; intros acc Hacc H;
    [discriminate|].
  cbn [fold_exn] in H.
  destruct (fold_exn (collect_result k) acc rs) as [e1|acc1] eqn:E1.
  - injection H as <-.
    destruct (collect_results_raise k rs acc e1 Hacc E1)
      as (-> & Hk & r & Hin & Hp).
    exists k, rs, r. repeat split; auto. now left.
  - destruct (IH acc1 (collect_results_keep k rs acc acc1 Hacc E1) H)
      as (k' & rs' & r & Hin & Hr & Hp & Hk & He).
    exists k', rs', r. repeat split; auto. now right.
Qed.

Lemma collect_errors_raises_only_on_foreign_key_witness :
  exists k rs r,
    In (k, rs) (validation_results foreign_key_failure) /\ In r rs
    /\ passed r = false /\ ~ In k categories /\ KeyError "kustomize" = KeyError k.
Proof.
  exact (collect_errors_raises_only_on_foreign_key foreign_key_failure
           (KeyError "kustomize") eq_refl).
Defined.

(** ** The aggregator and the decision *)

Lemma dict_set_total (k : string) (l v : list string)
  (d : Dict.t (list string)) :
  Dict.get k d = Some l ->
  values_total (Dict.set k v d) + List.length l
  = values_total d + List.length v.
Proof.
  unfold values_total, Dict.values.
  induction d as [|[k' v'] r IH]; simpl; [discriminate|].
  destruct (String.eqb k k'); simpl.
  - intros [= ->]. lia.
  - intros H. specialize (IH H). lia.
Qed.

Lemma collect_results_total_count (ft : string) (rs : list ValidationResult) :
  forall acc acc',
    fold_exn (collect_result ft) acc rs = inr acc' ->
    values_total (fst acc')
    = values_total (fst acc) + List.length (filter failed rs).
Proof.
  induction rs as [|r rs IH]; intros acc acc' H.
  - simpl in H. injection H as <-. simpl. lia.
  - cbn [fold_exn] in H.
    destruct (collect_result ft acc r) as [e|acc1] eqn:E; [discriminate|].
    rewrite (IH _ _ H). clear IH H.
    destruct acc as [collected by_file]. unfold collect_result in E.
    cbn [filter]. unfold failed at 2.
    destruct (negb (passed r)).
    + unfold dict_append in E.
      destruct (Dict.get ft collected) as [l|] eqn:G; [|discriminate].
      injection E as <-. cbn [fst].
      pose proof (dict_set_total ft l (l ++ [error_line r]) collected G) as Hs.
      rewrite length_app in Hs. simpl in *. lia.
    + injection E as <-. simpl. lia.
Qed.

Lemma aggregate_total_count (vr : Dict.t (list ValidationResult)) :
  forall acc out,
    fold_exn
      (fun acc '(file_type, results) =>
         fold_exn (collect_result file_type) acc results)
      acc vr = inr out ->
    values_total (fst out)
    = values_total (fst acc) + List.length (filter failed (all_results vr)).
Proof.
  induction vr as [|[ft rs] vr IH]; intros acc out H.
  - simpl in H. injection H as <-. simpl. lia.
  - cbn [fold_exn] in H.
    destruct (fold_exn (collect_result ft) acc rs) as [e|acc1] eqn:E;
      [discriminate|].
    rewrite (IH _ _ H), (collect_results_total_count ft rs _ _ E).
    unfold all_results. cbn [flat_map snd].
    rewrite filter_app, length_app. lia.
Qed.

(** [X4] Aggregation followed by the decision: the number of errors the
    decision counts is the number of failed results, so the workflow is
    routed to the release exactly when every validation result passed. *)
Theorem release_iff_every_result_passed (s s1 : CICDState) :
  collect_errors s = inr s1 ->
  total_errors s1
  = List.length (filter failed (all_results (validation_results s)))
  /\ (fst (decide_next_action s1) = "release" <->
      Forall (fun r => passed r = true) (all_results (validation_results s))).
Proof.
  intros H. apply collect_errors_reads_results in H as [H _].
  unfold aggregate in H. apply aggregate_total_count in H.
  change (values_total (fst (collected_errors s1, errors_by_file s1)))
    with (total_errors s1) in H.
  cbn in H. split; [exact H|].
  unfold decide_next_action. rewrite H.
  set (rs := all_results (validation_results s)).
  assert (List.length (filter failed rs) = 0
          <-> Forall (fun r => passed r = true) rs) as Hall.
  { induction rs as [|r rs IH]; simpl.
    - split; [constructor | reflexivity].
    - unfold failed at 1. destruct (passed r) eqn:Hp; simpl.
      + rewrite IH. split; [now constructor | now inversion 1].
      + split; [discriminate|]. inversion 1. congruence. }
  destruct (Nat.eqb_spec (List.length (filter failed rs)) 0) as [E|E].
  - split; [intros _; now apply Hall | reflexivity].
  - split.
    + destruct (fold_left _ _ _); discriminate.
    + intros Hf. apply Hall in Hf. contradiction.
Qed.

Lemma release_iff_every_result_passed_witness :
  total_errors two_failures_collected = 2
  /\ (fst (decide_next_action two_failures_collected) = "release" <->
      Forall (fun r => passed r = true)
        (all_results (validation_results two_failures))).
Proof.
  exact (release_iff_every_result_passed two_failures two_failures_collected
           eq_refl).
Defined.

(** ** The validators *)

Section Validators.
Context {W : Type} {os : OS W}.

Lemma commands_ran_app (w w1 w2 : W) (evs evs2 : list Event) :
  commands_ran w evs w1 -> commands_ran w1 evs2 w2 ->
  commands_ran w (evs ++ evs2)%list w2.
Proof.
  intros Hfirst Hthen.
  induction Hfirst; cbn [app]; [exact Hthen|]. econstructor; eauto.
Qed.

(** A loop that appends to its list of results what the commands of each
    round gave, and records these commands. *)
Lemma for_each_checks {B C R : Type}
  (body : list R -> B -> M W (list R))
  (res : B * C -> list R) (runs : B * C -> list Event) (ok : C -> Prop) :
  (forall acc x s,
      exists c s',
        ok c
        /\ body acc x s = Ok (acc ++ res (x, c))%list s'
        /\ trace s' = (trace s ++ runs (x, c))%list
        /\ commands_ran (world s) (runs (x, c)) (world s')) ->
  forall xs acc s,
    exists cs s',
      List.length cs = List.length xs
      /\ Forall ok cs
      /\ for_each body acc xs s
         = Ok (acc ++ flat_map res (combine xs cs))%list s'
      /\ trace s' = (trace s ++ flat_map runs (combine xs cs))%list
      /\ commands_ran (world s) (flat_map runs (combine xs cs)) (world s').
Proof.
  intros Hbody. induction xs as [|x xs IH]; intros acc s.
  - exists [], s. cbn. rewrite !app_nil_r. repeat split; constructor.
  - destruct (Hbody acc x s) as (c & s1 & Hok & H1 & T1 & R1).
    destruct (IH (acc ++ res (x, c))%list s1)
      as (cs & s2 & Hlen & Hall & H2 & T2 & R2).
    exists (c :: cs), s2. cbn [for_each combine flat_map List.length].
    unfold bind. rewrite H1, H2, T2, T1, <- !app_assoc.
    repeat split; [now rewrite Hlen | now constructor|].
    eapply commands_ran_app; eauto.
Qed.

End Validators.

Section ValidatorResults.
Context {W : Type} {os : OS W}.

Ltac run_step :=
  unfold bind at 1; rewrite run_command_eq;
  let r := fresh "r" in
  let w := fresh "w" in
  let E := fresh "E" in
  match goal with
  | |- context [subprocess_run ?c ?d ?x] =>
      destruct (subprocess_run c d x) as [r w] eqn:E
  end;
  cbn [world trace].

Ltac ran := repeat (econstructor; [eassumption|]); constructor.

(** [X5] [validate_docker] returns whenever the state has a ["docker"] file
    list, and changes only its own entry of [validation_results].  For
    each Dockerfile in turn it runs [hadolint] on the file and the test
    build in the directory of the file, and removes the test image exactly
    when the build passed; it runs nothing else and writes no file.  The
    entry holds, per Dockerfile, the result of [hadolint] and then that of
    the build, each with [passed], [errors] and [warnings] as the command
    gave them. *)
Theorem validate_docker_results (state : CICDState) (s : Sys W)
  (fs : list string) :
  files_of "docker" state = inr fs ->
  exists (checks : list DockerCheck) s',
    List.length checks = List.length fs
    /\ Forall cleaned_up checks
    /\ validate_docker state s
       = Ok (set_validation "docker"
               (flat_map docker_results (combine fs checks)) state) s'
    /\ trace s' = (trace s ++ flat_map docker_runs (combine fs checks))%list
    /\ commands_ran (world s) (flat_map docker_runs (combine fs checks))
         (world s').
Proof.
  intros Hfs. unfold validate_docker. rewrite Hfs.
  unfold bind at 1. cbn [lift]. unfold ret at 1.
  destruct fs as [|f0 fs0].
  { exists [], s. cbn. rewrite app_nil_r. repeat split; constructor. }
  match goal with
  | |- context [for_each ?b _ _] => set (body := b)
  end.
  destruct (for_each_checks body docker_results docker_runs cleaned_up)
    with (xs := f0 :: fs0) (acc := @nil ValidationResult) (s := s)
    as (checks & s' & Hlen & Hall & Hrun & Htr & Hran).
  { intros acc f s0. subst body. cbv beta.
    run_step. run_step.
    destruct (proc_passed r0) eqn:Hp.
    - unfold bind at 1. run_step.
      exists (r, r0, Some r1). eexists.
      split; [exact Hp|]. cbn [docker_results docker_runs].
      unfold reported, reported_with_output. rewrite Hp.
      split; [reflexivity|]. cbn [trace world].
      split; [now rewrite <- !app_assoc | ran].
    - exists (r, r0, None). eexists.
      split; [exact Hp|]. cbn [docker_results docker_runs].
      unfold reported, reported_with_output. rewrite Hp.
      split; [reflexivity|]. cbn [trace world].
      split; [now rewrite <- !app_assoc | ran]. }
  exists checks, s'. unfold bind at 1. rewrite Hrun. now repeat split.
Qed.

(** [X6] [validate_terraform] returns whenever the state has a ["terraform"]
    file list, and changes only its own entry of [validation_results].
    For each distinct directory of the Terraform files in turn it runs
    [terraform validate], [tflint] and [checkov] in that directory, and
    nothing else; the entry holds the three results per directory, in this
    order, each as the command gave it. *)
Theorem validate_terraform_results (state : CICDState) (s : Sys W)
  (fs : list string) :
  files_of "terraform" state = inr fs ->
  exists (checks : list TfCheck) s',
    List.length checks = List.length (tf_dirs_of fs)
    /\ validate_terraform state s
       = Ok (set_validation "terraform"
               (flat_map tf_results (combine (tf_dirs_of fs) checks)) state)
            s'
    /\ trace s'
       = (trace s ++ flat_map tf_runs (combine (tf_dirs_of fs) checks))%list
    /\ commands_ran (world s)
         (flat_map tf_runs (combine (tf_dirs_of fs) checks)) (world s').
Proof.
  intros Hfs. unfold validate_terraform. rewrite Hfs.
  unfold bind at 1. cbn [lift]. unfold ret at 1.
  destruct fs as [|f0 fs0].
  { exists [], s. cbn. rewrite app_nil_r. repeat split; constructor. }
  cbn [tf_dirs_of].
  match goal with
  | |- context [for_each ?b _ _] => set (body := b)
  end.
  destruct (for_each_checks body tf_results tf_runs (fun _ => True))
    with (xs := set_iter (map OsPath.dirname (f0 :: fs0)))
         (acc := @nil ValidationResult) (s := s)
    as (checks & s' & Hlen & _ & Hrun & Htr & Hran).
  { intros acc d s0. subst body. cbv beta.
    run_step. run_step. run_step.
    exists (r, r0, r1). eexists. split; [exact I|].
    split; [reflexivity|]. cbn [trace world tf_runs].
    split; [now rewrite <- !app_assoc | ran]. }
  exists checks, s'. unfold bind at 1. rewrite Hrun. now repeat split.
Qed.

(** [X7] [validate_helm], once its chart search has returned the directories
    [dirs], returns and changes only its own entry of
    [validation_results].  For each chart directory in turn it runs
    [helm lint] and [helm template] on it, and nothing else; the entry
    holds the two results per directory, in this order, each as the
    command gave it. *)
Theorem validate_helm_results (fuel : nat) (state : CICDState) (s : Sys W)
  (f : string) (fs dirs : list string) :
  files_of "helm" state = inr (f :: fs) ->
  chart_dirs_of fuel (f :: fs) s = Ok dirs s ->
  exists (checks : list HelmCheck) s',
    List.length checks = List.length dirs
    /\ validate_helm fuel state s
       = Ok (set_validation "helm"
               (flat_map helm_results (combine dirs checks)) state) s'
    /\ trace s' = (trace s ++ flat_map helm_runs (combine dirs checks))%list
    /\ commands_ran (world s) (flat_map helm_runs (combine dirs checks))
         (world s').
Proof.
  intros Hfs Hdirs. unfold validate_helm. rewrite Hfs.
  unfold bind at 1. cbn [lift]. unfold ret at 1.
  unfold bind at 1. rewrite Hdirs.
  match goal with
  | |- context [for_each ?b _ _] => set (body := b)
  end.
  destruct (for_each_checks body helm_results helm_runs (fun _ => True))
    with (xs := dirs) (acc := @nil ValidationResult) (s := s)
    as (checks & s' & Hlen & _ & Hrun & Htr & Hran).
  { intros acc d s0. subst body. cbv beta.
    run_step. run_step.
    exists (r, r0). eexists. split; [exact I|].
    split; [reflexivity|]. cbn [trace world helm_runs].
    split; [now rewrite <- !app_assoc | ran]. }
  exists checks, s'. unfold bind at 1. rewrite Hrun. now repeat split.
Qed.

End ValidatorResults.

Lemma validate_docker_results_witness :
  exists (checks : list DockerCheck) s',
    List.length checks = 2
    /\ validate_docker docker_and_chart all_tools_fail
       = Ok (set_validation "docker"
               (flat_map docker_results
                  (combine ["api/Dockerfile"; "web/Dockerfile"] checks))
               docker_and_chart) s'.
Proof.
  destruct (validate_docker_results docker_and_chart all_tools_fail
              ["api/Dockerfile"; "web/Dockerfile"] eq_refl)
    as (checks & s' & Hlen & _ & Hrun & _ & _).
  now exists checks, s'.
Defined.

Lemma validate_terraform_results_witness :
  exists (checks : list TfCheck) s',
    List.length checks = 2
    /\ validate_terraform two_tf_dirs fails_in_b
       = Ok (set_validation "terraform"
               (flat_map tf_results (combine ["a"; "b"] checks))
               two_tf_dirs) s'.
Proof.
  destruct (validate_terraform_results two_tf_dirs fails_in_b
              ["a/main.tf"; "b/main.tf"; "a/vars.tf"] eq_refl)
    as (checks & s' & Hlen & Hrun & _ & _).
  now exists checks, s'.
Defined.

Lemma validate_helm_results_witness :
  exists (checks : list HelmCheck) s',
    List.length checks = 1
    /\ validate_helm 30 docker_and_chart all_tools_fail
       = Ok (set_validation "helm"
               (flat_map helm_results (combine ["charts/web"] checks))
               docker_and_chart) s'.
Proof.
  assert (chart_dirs_of 30 ["charts/web/values.yaml"] all_tools_fail
          = Ok ["charts/web"] all_tools_fail) as Hdirs
    by (vm_compute; reflexivity).
  destruct (validate_helm_results 30 docker_and_chart all_tools_fail
              "charts/web/values.yaml" [] ["charts/web"] eq_refl Hdirs)
    as (checks & s' & Hlen & Hrun & _ & _).
  now exists checks, s'.
Defined.

(** ** The chart search, where it returns *)

Section ChartSearchResults.
Context {W : Type} {os : OS W}.

Lemma nearest_chart_dir_steps (fuel : nat) :
  forall (p : string) (s : Sys W) d s',
    nearest_chart_dir fuel p s = Ok d s' ->
    exists k,
      d = Nat.iter k OsPath.dirname p
      /\ (d = "" \/ path_exists (OsPath.join d "Chart.yaml") (world s) = true)
      /\ forall j, j < k ->
           Nat.iter j OsPath.dirname p <> ""
           /\ path_exists
                (OsPath.join (Nat.iter j OsPath.dirname p) "Chart.yaml")
                (world s) = false.
Proof.
  induction fuel as [|n IH]; intros p s d s' H; [discriminate|].
  cbn [nearest_chart_dir] in H.
  destruct (String.eqb_spec p "") as [E0|Hne].
  - apply ret_ok in H as [-> _]. exists 0. split; [reflexivity|].
    split; [now left|]. intros j Hj. lia.
  - unfold bind, exists_ in H.
    destruct (path_exists (OsPath.join p "Chart.yaml") (world s)) eqn:E.
    + apply ret_ok in H as [-> _]. exists 0. split; [reflexivity|].
      split; [now right|]. intros j Hj. lia.
    + destruct (IH _ _ _ _ H) as (k & Hd & Hc & Hbefore).
      exists (S k). rewrite Nat.iter_succ_r. split; [exact Hd|].
      split; [exact Hc|]. intros [|j] Hj.
      * now split.
      * rewrite Nat.iter_succ_r. apply Hbefore. lia.
Qed.

Lemma nearest_chart_unique (w : W) (p d d' : string) :
  nearest_chart w p d -> nearest_chart w p d' -> d = d'.
Proof.
  intros (k & -> & _ & Hc & Hb) (k' & -> & _ & Hc' & Hb').
  destruct (Nat.lt_trichotomy k k') as [Hlt|[->|Hlt]]; [|reflexivity|].
  - destruct (Hb' k Hlt) as [_ Hno]. congruence.
  - destruct (Hb k' Hlt) as [_ Hno]. congruence.
Qed.

(** The loop of [chart_dirs_of] before the set is built. *)
Lemma chart_search_found (fuel : nat) (fs : list string) (s : Sys W) :
  forall acc found s',
    for_each
      (fun chart_dirs f =>
         chart_dir <- nearest_chart_dir fuel (OsPath.dirname f) ;;
         if String.eqb chart_dir "" then ret chart_dirs
         else ret (chart_dirs ++ [chart_dir])%list)
      acc fs s = Ok found s' ->
    s' = s
    /\ forall d,
        In d found <->
        In d acc
        \/ exists f, In f fs /\ nearest_chart (world s) (OsPath.dirname f) d.
Proof.
  induction fs as [|f fs IH]; intros acc found s' H.
  - cbn [for_each] in H. apply ret_ok in H as [-> ->]. split; [reflexivity|].
    intros d. split; [auto|]. intros [H|(f & [] & _)]. exact H.
  - cbn [for_each] in H. apply bind_ok in H as (acc1 & s1 & E & H).
    apply bind_ok in E as (d1 & s2 & E & E1).
    pose proof (nearest_chart_dir_ok _ _ _ _ _ E) as [-> _].
    destruct (nearest_chart_dir_steps _ _ _ _ _ E) as (k & Hd & Hc & Hb).
    assert (s1 = s /\
            forall d, In d acc1 <->
                      In d acc \/ nearest_chart (world s) (OsPath.dirname f) d)
      as [-> Hacc1].
    { destruct (String.eqb_spec d1 "") as [E0|Hne];
        apply ret_ok in E1 as [-> ->]; (split; [reflexivity|]); intros d.
      - split; [auto|]. intros [Hin|Hn]; [exact Hin|]. exfalso.
        destruct Hn as (k' & Hd' & Hne' & Hc' & Hb').
        destruct (Nat.lt_trichotomy k k') as [Hlt|[->|Hlt]].
        + destruct (Hb' k Hlt) as [Hnz _]. congruence.
        + congruence.
        + destruct (Hb k' Hlt) as [_ Hno]. congruence.
      - assert (nearest_chart (world s) (OsPath.dirname f) d1) as Hn1.
        { exists k. repeat split; auto; try apply Hb; auto.
          destruct Hc; [contradiction | assumption]. }
        rewrite in_app_iff. split.
        + intros [Hin|[<-|[]]]; auto.
        + intros [Hin|Hn]; [auto|]. right. left.
          exact (nearest_chart_unique _ _ _ _ Hn1 Hn). }
    destruct (IH _ _ _ H) as [-> Hfound]. split; [reflexivity|].
    intros d. rewrite Hfound, Hacc1. split.
    + intros [[Hin|Hn]|(f' & Hin & Hn)]; auto.
      * right. exists f. split; [now left | exact Hn].
      * right. exists f'. split; [now right | exact Hn].
    + intros [Hin|(f' & [<-|Hin] & Hn)]; auto.
      right. now exists f'.
Qed.

(** [X8] The chart search of [validate_helm], [fix_helm] and [release_helm],
    whenever it returns: it has changed nothing, it lists no directory
    twice, and it lists exactly the directories that are, for one of the
    files, the nearest directory above it that holds a [Chart.yaml]. *)
Theorem chart_dirs_of_nearest (fuel : nat) (fs dirs : list string)
  (s s' : Sys W) :
  chart_dirs_of fuel fs s = Ok dirs s' ->
  s' = s /\ NoDup dirs
  /\ forall d,
      In d dirs <->
      exists f, In f fs /\ nearest_chart (world s) (OsPath.dirname f) d.
Proof.
  unfold chart_dirs_of. intros H.
  apply bind_ok in H as (found & s1 & E & H).
  apply ret_ok in H as [-> ->].
  destruct (chart_search_found _ _ _ _ _ _ E) as [-> Hfound].
  split; [reflexivity|]. split; [apply set_iter_nodup|].
  intros d. rewrite set_iter_in, Hfound. split.
  - intros [[]|H]. exact H.
  - auto.
Qed.

End ChartSearchResults.

Lemma chart_dirs_of_nearest_witness :
  exists f,
    In f ["charts/web/values.yaml"]
    /\ nearest_chart (world all_tools_fail) (OsPath.dirname f) "charts/web".
Proof.
  assert (chart_dirs_of 30 ["charts/web/values.yaml"] all_tools_fail
          = Ok ["charts/web"] all_tools_fail) as Hdirs
    by (vm_compute; reflexivity).
  apply (proj2 (proj2 (chart_dirs_of_nearest 30 _ _ _ _ Hdirs))).
  now left.
Defined.

(** ** [find_chart_dirs] of [utils/helm.py] *)

Section GuardedSearch.
Context {W : Type} {os : OS W}.

Lemma guarded_chart_dir_ok (fuel : nat) :
  forall (p : string) (s : Sys W) d s',
    guarded_chart_dir fuel p s = Ok d s' ->
    s' = s /\ exists k, d = Nat.iter k OsPath.dirname p.
Proof.
  induction fuel as [|n IH]; intros p s d s' H; [discriminate|].
  cbn [guarded_chart_dir] in H.
  destruct (String.eqb_spec p "") as [E0|Hne].
  - apply ret_ok in H as [-> ->]. split; [reflexivity | now exists 0].
  - unfold bind, exists_ in H.
    destruct (path_exists (OsPath.join p "Chart.yaml") (world s)).
    + apply ret_ok in H as [-> ->]. split; [reflexivity | now exists 0].
    + destruct (String.eqb (OsPath.dirname p) p).
      * apply ret_ok in H as [-> ->]. split; [reflexivity | now exists 0].
      * destruct (IH _ _ _ _ H) as [-> (k & ->)]. split; [reflexivity|].
        exists (S k). now rewrite Nat.iter_succ_r.
Qed.

(** [X9] [find_chart_dirs] returns on every list of paths, given a loop budget
    above their lengths; it changes nothing, lists no directory twice, and
    every directory it lists holds a [Chart.yaml] and lies above one of the
    files. *)
Theorem find_chart_dirs_total (fuel : nat) (fs : list string) (s : Sys W) :
  Forall (fun f => String.length f < fuel) fs ->
  exists dirs,
    find_chart_dirs fuel fs s = Ok dirs s
    /\ NoDup dirs
    /\ forall d,
        In d dirs ->
        path_exists (OsPath.join d "Chart.yaml") (world s) = true
        /\ exists f k,
            In f fs /\ d = Nat.iter (S k) OsPath.dirname f.
Proof.
  intros Hlen. unfold find_chart_dirs.
  match goal with
  | |- context [for_each ?b _ _] => set (body := b)
  end.
  set (good := fun d =>
                 path_exists (OsPath.join d "Chart.yaml") (world s) = true
                 /\ exists f k,
                     In f fs /\ d = Nat.iter (S k) OsPath.dirname f).
  assert (forall rest, incl rest fs ->
           forall acc, (forall d, In d acc -> good d) ->
           exists found,
             for_each body acc rest s = Ok found s
             /\ forall d, In d found -> good d) as Hloop.
  { induction rest as [|f rest IH]; intros Hsub acc Hacc.
    - exists acc. split; [reflexivity | exact Hacc].
    - assert (In f fs) as Hf by (apply Hsub; now left).
      assert (incl rest fs) as Hrest by (intros x Hx; apply Hsub; now right).
      cbn [for_each]. unfold bind at 1. unfold body at 1. unfold bind at 1.
      destruct (guarded_chart_dir_total fuel (OsPath.dirname f) s) as (d & Hd).
      { pose proof (PyStrFacts.dirname_length f).
        rewrite Forall_forall in Hlen. specialize (Hlen f Hf). lia. }
      rewrite Hd.
      destruct (guarded_chart_dir_ok _ _ _ _ _ Hd) as [_ (k & Hk)].
      destruct (String.eqb d "").
      + now apply IH.
      + unfold bind at 1, exists_ at 1.
        destruct (path_exists (OsPath.join d "Chart.yaml") (world s)) eqn:E.
        * apply IH; [exact Hrest|].
          intros d' Hin. apply in_app_iff in Hin as [Hin|[<-|[]]];
            [now apply Hacc|].
          split; [exact E|]. exists f, k. split; [exact Hf|].
          now rewrite Nat.iter_succ_r.
        * now apply IH. }
  destruct (Hloop fs (incl_refl fs) []) as (found & Hrun & Hfound);
    [intros d []|].
  exists (set_iter found). unfold bind at 1. rewrite Hrun.
  split; [reflexivity|]. split; [apply set_iter_nodup|].
  intros d Hin. apply Hfound. now apply set_iter_in.
Qed.


Lemma nearest_chart_dir_stuck (fuel : nat) (p : string) (s : Sys W) :
  OsPath.dirname p = p -> p <> "" ->
  path_exists (OsPath.join p "Chart.yaml") (world s) = false ->
  nearest_chart_dir fuel p s = OutOfFuel.
Proof.
  intros Hfix Hne Hno. induction fuel as [|n IH]; [reflexivity|].
  cbn [nearest_chart_dir].
  destruct (String.eqb_spec p "") as [E0|_]; [contradiction|].
  unfold bind, exists_. rewrite Hno, Hfix. exact IH.
Qed.

Lemma guarded_agrees (fuel : nat) :
  forall (p : string) (s : Sys W) d s',
    nearest_chart_dir fuel p s = Ok d s' ->
    guarded_chart_dir fuel p s = Ok d s'.
Proof.
  induction fuel as [|n IH]; intros p s d s' H; [discriminate|].
  cbn [nearest_chart_dir] in H. cbn [guarded_chart_dir].
  destruct (String.eqb_spec p "") as [E0|Hne]; [exact H|].
  unfold bind, exists_ in *.
  destruct (path_exists (OsPath.join p "Chart.yaml") (world s)) eqn:E;
    [exact H|].
  destruct (String.eqb_spec (OsPath.dirname p) p) as [Hfix|_].
  - rewrite Hfix in H.
    now rewrite (nearest_chart_dir_stuck n p s Hfix Hne E) in H.
  - now apply IH.
Qed.

Lemma chart_search_agrees (fuel : nat) (fs : list string) :
  forall (s : Sys W) acc found s1,
    for_each
      (fun chart_dirs f =>
         chart_dir <- nearest_chart_dir fuel (OsPath.dirname f) ;;
         if String.eqb chart_dir "" then ret chart_dirs
         else ret (chart_dirs ++ [chart_dir])%list)
      acc fs s = Ok found s1 ->
    for_each
      (fun chart_dirs f =>
         chart_dir <- guarded_chart_dir fuel (OsPath.dirname f) ;;
         if String.eqb chart_dir "" then ret chart_dirs
         else
           e <- exists_ (OsPath.join chart_dir "Chart.yaml") ;;
           if e then ret (chart_dirs ++ [chart_dir])%list else ret chart_dirs)
      acc fs s = Ok found s1.
Proof.
  induction fs as [|f fs IH]; intros s acc found s1 E; [exact E|].
  cbn [for_each] in *. apply bind_ok in E as (acc1 & s2 & E & Hrest).
  apply bind_ok in E as (d & s3 & E & E1).
  pose proof (nearest_chart_dir_ok _ _ _ _ _ E) as [-> Hd].
  apply guarded_agrees in E.
  unfold bind at 1. unfold bind at 1. rewrite E.
  revert E1.
  destruct (String.eqb_spec d "") as [E0|Hne]; intros E1;
    apply ret_ok in E1 as [-> ->].
  - now apply IH.
  - destruct Hd as [Hd|Hd]; [contradiction|].
    unfold bind at 1, exists_ at 1. rewrite Hd. now apply IH.
Qed.

(** [X10] Whenever the chart search of the three nodes returns, the guarded
    search of [utils/helm.py] returns the same directories: the two differ
    only where the former does not end. *)
Theorem find_chart_dirs_agrees (fuel : nat) (fs dirs : list string)
  (s s' : Sys W) :
  chart_dirs_of fuel fs s = Ok dirs s' ->
  find_chart_dirs fuel fs s = Ok dirs s'.
Proof.
  unfold chart_dirs_of, find_chart_dirs. intros H.
  apply bind_ok in H as (found & s1 & E & H).
  apply ret_ok in H as [-> ->].
  apply chart_search_agrees in E. unfold bind at 1. now rewrite E.
Qed.

End GuardedSearch.

Lemma find_chart_dirs_total_witness :
  let s := SimpleOS.uniform
             [("/srv/app/templates/deploy.yaml", "kind: Deployment")] true in
  exists dirs,
    find_chart_dirs 40 ["/srv/app/templates/deploy.yaml"] s = Ok dirs s.
Proof.
  intros s.
  destruct (find_chart_dirs_total 40 ["/srv/app/templates/deploy.yaml"] s)
    as (dirs & Hrun & _).
  - repeat constructor.
  - now exists dirs.
Defined.

Lemma find_chart_dirs_agrees_witness :
  find_chart_dirs 30 ["charts/web/values.yaml"] all_tools_fail
  = Ok ["charts/web"] all_tools_fail.
Proof.
  apply find_chart_dirs_agrees. vm_compute. reflexivity.
Defined.

(** ** The fix budget: entries *)

(** [X11] [get_or_create_fix_attempt] is a lookup that fills in a missing entry:
    the entry it returns is the one the state then holds under the key, a
    second call returns it again and changes nothing, an existing entry is
    returned as it is with the state untouched, a missing one is created as
    zero attempts out of three, and no other key is affected. *)
Theorem get_or_create_is_lookup (state : CICDState) (ft : string) :
  Dict.get ft (fix_attempts (snd (get_or_create_fix_attempt state ft)))
  = Some (fst (get_or_create_fix_attempt state ft))
  /\ get_or_create_fix_attempt (snd (get_or_create_fix_attempt state ft)) ft
     = get_or_create_fix_attempt state ft
  /\ (forall a, Dict.get ft (fix_attempts state) = Some a ->
                get_or_create_fix_attempt state ft = (a, state))
  /\ (Dict.get ft (fix_attempts state) = None ->
      fst (get_or_create_fix_attempt state ft) = mkFixAttempt ft 0 3 None)
  /\ (forall k, k <> ft ->
                Dict.get k (fix_attempts
                              (snd (get_or_create_fix_attempt state ft)))
                = Dict.get k (fix_attempts state)).
Proof.
  split; [apply get_or_create_entry|]. split; [|split; [|split]].
  - pose proof (get_or_create_entry state ft) as He.
    destruct (get_or_create_fix_attempt state ft) as [a st1] eqn:E.
    cbn [fst snd] in *. unfold get_or_create_fix_attempt at 1. now rewrite He.
  - intros a Ha. unfold get_or_create_fix_attempt. now rewrite Ha.
  - intros Hnone. unfold get_or_create_fix_attempt. now rewrite Hnone.
  - intros k Hk. unfold get_or_create_fix_attempt.
    destruct (Dict.get ft (fix_attempts state)); [reflexivity|].
    cbn [snd fix_attempts set_fix_attempts]. now apply dict_get_set_other.
Qed.

Section Increment.
Context {W : Type} {os : OS W}.

(** [X12] [increment_fix_attempt] always returns.  It reads the clock, adds one
    to the attempts of its category whatever the maximum is, stamps the
    entry with the time and leaves the maximum and every other category as
    they were. *)
Theorem increment_fix_attempt_adds_one (state : CICDState) (ft : string)
  (s : Sys W) :
  exists st' s' a',
    increment_fix_attempt state ft s = Ok st' s'
    /\ trace s' = trace s
    /\ Dict.get ft (fix_attempts st') = Some a'
    /\ attempts a' = (attempts_of ft state + 1)%Z
    /\ max_attempts a' = max_attempts_of ft state
    /\ last_fix_time a'
       = Some (isoformat (fst (datetime_now (world s))))
    /\ forall k, k <> ft ->
         attempts_of k st' = attempts_of k state
         /\ max_attempts_of k st' = max_attempts_of k state.
Proof.
  unfold increment_fix_attempt.
  pose proof (get_or_create_entry state ft) as He.
  pose proof (get_or_create_budget state ft) as Hb.
  destruct (get_or_create_fix_attempt state ft) as [a st1].
  cbn [fst snd] in He, Hb.
  unfold bind, now. destruct (datetime_now (world s)) as [t w1].
  do 3 eexists. split; [reflexivity|]. cbn [trace fst].
  split; [reflexivity|].
  cbn [fix_attempts set_fix_attempts]. rewrite dict_get_set_same.
  split; [reflexivity|]. cbn [attempts max_attempts last_fix_time].
  destruct (Hb ft) as [Ha Hm]. unfold attempts_of, max_attempts_of in Ha, Hm.
  rewrite He in Ha, Hm.
  split; [unfold attempts_of at 1; now rewrite <- Ha|].
  split; [exact Hm|]. split; [reflexivity|].
  intros k Hk. unfold attempts_of, max_attempts_of.
  cbn [fix_attempts set_fix_attempts].
  rewrite dict_get_set_other by assumption. apply Hb.
Qed.

End Increment.

(** ** A round of a fixer *)

Lemma get_or_create_frame (st : CICDState) (ft : string) :
  files (snd (get_or_create_fix_attempt st ft)) = files st
  /\ files_fixed (snd (get_or_create_fix_attempt st ft)) = files_fixed st.
Proof.
  unfold get_or_create_fix_attempt.
  destruct (Dict.get ft (fix_attempts st)); now split.
Qed.

Lemma fixed_state_fields (st : CICDState) (ft t : string) (fs : list string) :
  fix_applied (fixed_state ft t fs st) = true
  /\ files_fixed (fixed_state ft t fs st) = (files_fixed st ++ fs)%list.
Proof.
  unfold fixed_state.
  pose proof (get_or_create_frame st ft) as [_ Hf].
  destruct (get_or_create_fix_attempt st ft) as [a st1].
  cbn [snd] in Hf. cbn. now rewrite Hf.
Qed.

Section FixerRound.
Context {W : Type} {os : OS W}.

(** The tail of a fixer: the clock is read once, the attempt is counted
    and stamped, the files are logged. *)
Lemma finish_fix_eq (ft : string) (fs : list string) (state : CICDState)
  (s : Sys W) :
  finish_fix ft fs state s
  = Ok (fixed_state ft (isoformat (fst (datetime_now (world s)))) fs state)
      (mkSys (snd (datetime_now (world s))) (trace s)).
Proof.
  unfold finish_fix, increment_fix_attempt, fixed_state, bind, now, ret.
  destruct (get_or_create_fix_attempt state ft) as [attempt st1].
  destruct (datetime_now (world s)) as [t w1]. reflexivity.
Qed.

Lemma dockerfiles_loop_run (fs : list string) (w w1 : W)
  (evs : list Event) :
  dockerfiles_rewritten fs w evs w1 ->
  forall tr,
    for_each
      (fun _ dockerfile =>
         content <- read_file dockerfile ;;
         fixed <- lift (fix_dockerfile content) ;;
         write_file dockerfile fixed)
      tt fs (mkSys w tr) = Ok tt (mkSys w1 (tr ++ evs)).
Proof.
  induction 1 as [w|f rest w c fixed w2 evs w1 Hr Hf Hw _ IH]; intros tr.
  - cbn. now rewrite app_nil_r.
  - cbn [for_each]. unfold bind at 1. unfold bind at 1.
    unfold read_file at 1. cbn [world]. rewrite Hr.
    unfold bind at 1. rewrite Hf. cbn [lift]. unfold ret at 1.
    unfold write_file at 1. cbn [world trace]. rewrite Hw.
    rewrite IH. now rewrite <- app_assoc.
Qed.

Lemma dockerfiles_loop_ok (fs : list string) :
  forall (s s1 : Sys W) (u : unit),
    for_each
      (fun _ dockerfile =>
         content <- read_file dockerfile ;;
         fixed <- lift (fix_dockerfile content) ;;
         write_file dockerfile fixed)
      tt fs s = Ok u s1 ->
    exists w1 evs,
      dockerfiles_rewritten fs (world s) evs w1
      /\ s1 = mkSys w1 (trace s ++ evs).
Proof.
  induction fs as [|f fs IH]; intros s s1 u H; cbn [for_each] in H.
  - apply ret_ok in H as [_ ->].
    exists (world s), []. split; [constructor|].
    destruct s. cbn. now rewrite app_nil_r.
  - apply bind_ok in H as (u1 & s2 & E & H).
    apply bind_ok in E as (c & s3 & Er & E).
    unfold read_file in Er.
    destruct (read_text f (world s)) as [c0|] eqn:Hr; [|discriminate].
    injection Er as <- <-.
    apply bind_ok in E as (fixed & s3 & El & E).
    apply lift_ok in El as [Hf ->].
    unfold write_file in E.
    destruct (write_text f fixed (world s)) as [w2|] eqn:Hw; [|discriminate].
    injection E as <- <-.
    apply IH in H as (w1 & evs & Hrel & ->). cbn [world trace].
    exists w1, (EvWrite f fixed :: evs).
    split; [econstructor; eauto|]. now rewrite <- app_assoc.
Qed.

(** [X13] A round of the Docker fixer that has budget and a non-empty file
    list returns exactly when every Dockerfile of the list, taken in
    order, can be read, edited by [fix_dockerfile] without an exception
    and written back.  It then has written each of them once, with the
    edit of the content it had at that moment, and nothing else; the clock
    was read once afterwards, the attempts of the category went up by one,
    the files are appended to [files_fixed] and [fix_applied] is set. *)
Theorem fix_docker_rewrites_each_file (state st' : CICDState)
  (s s' : Sys W) (f : string) (fs : list string) :
  (attempts_of "docker" state < max_attempts_of "docker" state)%Z ->
  files_of "docker" state = inr (f :: fs) ->
  (fix_docker state s = Ok st' s'
   <-> exists w1 evs,
         dockerfiles_rewritten (f :: fs) (world s) evs w1
         /\ s' = mkSys (snd (datetime_now w1)) (trace s ++ evs)
         /\ st' = fixed_state "docker" (isoformat (fst (datetime_now w1)))
                    (f :: fs) (snd (get_or_create_fix_attempt state "docker")))
  /\ (fix_docker state s = Ok st' s' ->
      attempts_of "docker" st' = (attempts_of "docker" state + 1)%Z
      /\ max_attempts_of "docker" st' = max_attempts_of "docker" state
      /\ fix_applied st' = true
      /\ files_fixed st' = (files_fixed state ++ f :: fs)%list).
Proof.
  intros Hlt Hfs.
  pose proof (can_attempt_fix_fst state "docker") as Hcan.
  pose proof (can_attempt_fix_snd state "docker") as Hsnd.
  apply Z.ltb_lt in Hlt. rewrite Hlt in Hcan.
  pose proof (get_or_create_frame state "docker") as [Hfiles Hfixed].
  pose proof (get_or_create_budget state "docker" "docker") as [Hatt Hmax].
  set (st1 := snd (get_or_create_fix_attempt state "docker")) in *.
  assert (files_of "docker" st1 = inr (f :: fs)) as Hfs1
    by (unfold files_of in *; now rewrite Hfiles).
  assert (fix_docker state s = Ok st' s'
          <-> exists w1 evs,
                dockerfiles_rewritten (f :: fs) (world s) evs w1
                /\ s' = mkSys (snd (datetime_now w1)) (trace s ++ evs)
                /\ st' = fixed_state "docker"
                           (isoformat (fst (datetime_now w1))) (f :: fs) st1)
    as Hiff.
  { unfold fix_docker.
    destruct (can_attempt_fix state "docker") as [can st0].
    cbn [fst snd] in Hcan, Hsnd. subst can st0. cbn [negb].
    rewrite Hfs1. unfold bind at 1. cbn [lift]. unfold ret at 1.
    split.
    - intros H. apply bind_ok in H as (u & s1 & E & H).
      apply dockerfiles_loop_ok in E as (w1 & evs & Hrel & ->).
      rewrite finish_fix_eq in H. cbn [world trace] in H.
      injection H as <- <-. now exists w1, evs.
    - intros (w1 & evs & Hrel & -> & ->).
      unfold bind at 1. destruct s as [w tr]. cbn [world trace] in *.
      rewrite (dockerfiles_loop_run _ _ _ _ Hrel tr).
      now rewrite finish_fix_eq. }
  split; [exact Hiff|].
  intros H. apply Hiff in H as (w1 & evs & _ & _ & ->).
  destruct (fixed_state_budget st1 "docker"
              (isoformat (fst (datetime_now w1))) (f :: fs) "docker")
    as [Ha Hm].
  destruct (fixed_state_fields st1 "docker"
              (isoformat (fst (datetime_now w1))) (f :: fs)) as [Hap Hff].
  rewrite String.eqb_refl in Ha.
  split; [now rewrite Ha, Hatt|]. split; [now rewrite Hm, Hmax|].
  split; [exact Hap|]. now rewrite Hff, Hfixed.
Qed.

End FixerRound.

Lemma fix_docker_rewrites_each_file_witness :
  exists st' s',
    fix_docker docker_and_chart all_tools_fail = Ok st' s'
    /\ attempts_of "docker" st' = 1%Z
    /\ files_fixed st' = ["api/Dockerfile"; "web/Dockerfile"].
Proof.
  destruct (fix_docker docker_and_chart all_tools_fail) as [st' s'| |] eqn:E;
    [|vm_compute in E; discriminate ..].
  destruct (proj2 (fix_docker_rewrites_each_file docker_and_chart st'
                     all_tools_fail s' "api/Dockerfile" ["web/Dockerfile"]
                     eq_refl eq_refl) E) as (Ha & _ & _ & Hf).
  exists st', s'. repeat split; assumption.
Defined.

(** ** Discovery *)

Section NeverRaises.
Context {W : Type}.

Lemma holds_bind {A B} (Q : A -> Sys W -> Prop) (P : B -> Sys W -> Prop)
  (c : M W A) (k : A -> M W B) (s : Sys W) :
  holds Q (c s) ->
  (forall a s1, Q a s1 -> holds P (k a s1)) ->
  holds P (bind c k s).
Proof.
  unfold bind. destruct (c s) as [a s1|e s1|]; simpl; intros Hc Hk;
    [now apply Hk | contradiction | exact I].
Qed.

Lemma holds_weaken {A} (P Q : A -> Sys W -> Prop) (o : Outcome W A) :
  (forall a s, P a s -> Q a s) -> holds P o -> holds Q o.
Proof. destruct o; simpl; auto. Qed.

End NeverRaises.

Lemma sorted_by_ext (F G : string -> string -> Prop)
  (d : Dict.t (list string)) :
  (forall r f, F r f <-> G r f) -> sorted_by F d -> sorted_by G d.
Proof.
  intros Hext (tf & dk & hl & -> & Htf & Hdk & Hhl).
  assert (forall c p, found F c p <-> found G c p) as Hfound.
  { intros c p. unfold found. split; intros (Hc & r & f & Hs & ->);
      (split; [exact Hc|]); exists r, f; (split; [now apply Hext | reflexivity]). }
  exists tf, dk, hl. split; [reflexivity|].
  split; [|split]; intros p; rewrite <- Hfound; auto.
Qed.

(** Filing one more file: its path goes to the end of the list of its
    category, if it has one. *)
Lemma classify_sorted_by (F : string -> string -> Prop) (root file : string)
  (d : Dict.t (list string)) :
  sorted_by F d ->
  exists d',
    classify (OsPath.join root file) d = inr d'
    /\ sorted_by (fun r f => F r f \/ (r = root /\ f = file)) d'.
Proof.
  intros (tf & dk & hl & -> & Htf & Hdk & Hhl).
  set (p0 := OsPath.join root file).
  set (F' := fun r f => F r f \/ (r = root /\ f = file)).
  assert (forall c p, found F' c p <->
                      found F c p \/ (category_of p0 = Some c /\ p = p0))
    as Hfound.
  { intros c p. unfold found, F'. split.
    - intros (Hc & r & f & [Hs|[-> ->]] & ->).
      + left. split; [exact Hc|]. now exists r, f.
      + right. now split.
    - intros [(Hc & r & f & Hs & ->)|[Hc ->]].
      + split; [exact Hc|]. exists r, f. split; [now left | reflexivity].
      + split; [exact Hc|]. exists root, file. split; [now right | reflexivity]. }
  assert (forall c l,
             (forall p, In p l <-> found F c p) ->
             category_of p0 = Some c ->
             forall p, In p (l ++ [p0])%list <-> found F' c p) as Hadd.
  { intros c l Hl Hc p. rewrite in_app_iff, Hfound, Hl. cbn [In].
    split; intros [H|H]; auto.
    - destruct H as [<-|[]]. now right.
    - destruct H as [_ ->]. right. now left. }
  assert (forall c l,
             (forall p, In p l <-> found F c p) ->
             category_of p0 <> Some c ->
             forall p, In p l <-> found F' c p) as Hsame.
  { intros c l Hl Hc p. rewrite Hfound, Hl.
    split; [now left|]. intros [H|[H _]]; [exact H | contradiction]. }
  unfold classify. fold p0.
  pose proof (eq_refl (category_of p0)) as Hc.
  unfold category_of at 2 in Hc.
  destruct (is_terraform_file p0).
  - eexists. split; [reflexivity|].
    exists (tf ++ [p0])%list, dk, hl. split; [reflexivity|].
    split; [now apply Hadd|].
    split; apply Hsame; auto; rewrite Hc; discriminate.
  - destruct (is_docker_file p0).
    + eexists. split; [reflexivity|].
      exists tf, (dk ++ [p0])%list, hl. split; [reflexivity|].
      split; [apply Hsame; auto; rewrite Hc; discriminate|].
      split; [now apply Hadd|].
      apply Hsame; auto; rewrite Hc; discriminate.
    + destruct (is_helm_file p0).
      * eexists. split; [reflexivity|].
        exists tf, dk, (hl ++ [p0])%list. split; [reflexivity|].
        split; [apply Hsame; auto; rewrite Hc; discriminate|].
        split; [apply Hsame; auto; rewrite Hc; discriminate|].
        now apply Hadd.
      * eexists. split; [reflexivity|].
        exists tf, dk, hl. split; [reflexivity|].
        split; [|split]; apply Hsame; auto; rewrite Hc; discriminate.
Qed.

Section Walk.
Context {W : Type} {os : OS W}.

(** A directory visited from [top] is [top], or is visited from a kept,
    non-link subdirectory listed in [top]. *)
Lemma walked_head (w : W) (top r : string) :
  walked w top r ->
  r = top
  \/ exists dirs nondirs x,
       scandir top w = Some (dirs, nondirs) /\ In x dirs
       /\ keep_dir x = true
       /\ path_islink (OsPath.join top x) w = false
       /\ walked w (OsPath.join top x) r.
Proof.
  induction 1 as [|root dirs nondirs d _ IH Hscan Hin Hkeep Hlink];
    [now left|].
  right. destruct IH as [->|(ds & nds & x & Hs & Hx & Hk & Hl & Hw)].
  - exists dirs, nondirs, d. repeat split; auto. constructor.
  - exists ds, nds, x. repeat split; auto.
    now apply walked_sub with dirs nondirs.
Qed.

Lemma walked_under (w : W) (top x r : string) (dirs nondirs : list string) :
  scandir top w = Some (dirs, nondirs) -> In x dirs ->
  keep_dir x = true -> path_islink (OsPath.join top x) w = false ->
  walked w (OsPath.join top x) r -> walked w top r.
Proof.
  intros Hs Hx Hk Hl. induction 1 as [|root ds nds d _ IH Hscan Hin Hkeep Hlink].
  - apply walked_sub with dirs nondirs; auto. constructor.
  - now apply walked_sub with ds nds.
Qed.

(** The loop over the files of one directory. *)
Lemma files_loop (root : string) (files : list string) :
  forall (F : string -> string -> Prop) (d : Dict.t (list string))
         (s : Sys W),
    sorted_by F d ->
    holds
      (fun d' s' =>
         sorted_by (fun r f => F r f \/ (r = root /\ In f files)) d'
         /\ s' = s)
      (for_each
         (fun discovered file =>
            lift (classify (OsPath.join root file) discovered))
         d files s).
Proof.
  induction files as [|file files IH]; intros F d s Hd; cbn [for_each].
  - split; [|reflexivity]. revert Hd. apply sorted_by_ext.
    intros r f. cbn [In]. tauto.
  - destruct (classify_sorted_by F root file d Hd) as (d1 & E & Hd1).
    unfold bind at 1. rewrite E. cbn [lift]. unfold ret at 1.
    eapply holds_weaken; [|apply (IH _ _ s Hd1)].
    intros d' s' [Hs ->]. split; [|reflexivity].
    revert Hs. apply sorted_by_ext. intros r f. cbn [In].
    split; intros H.
    + destruct H as [[H|[-> ->]]|[-> H]]; auto.
    + destruct H as [H|[-> [<-|H]]]; auto.
Qed.

(** [os.walk] as [discover_files] uses it: when it returns it has filed
    the files of every directory it visits, it has raised nothing and
    changed nothing. *)
Lemma walk_sorted (w : W) (fuel : nat) :
  forall (root : string) (F : string -> string -> Prop)
         (d : Dict.t (list string)) (tr : list Event),
    sorted_by F d ->
    holds
      (fun d' s' =>
         sorted_by (fun r f => F r f \/ (walked w root r /\ listed w r f)) d'
         /\ s' = mkSys w tr)
      (walk fuel (filter keep_dir)
         (fun discovered '(root, _, fs) =>
            for_each
              (fun discovered file =>
                 lift (classify (OsPath.join root file) discovered))
              discovered fs)
         root d (mkSys w tr)).
Proof.
  induction fuel as [|n IH]; intros root F d tr Hd; [exact I|].
  cbn [walk]. unfold bind at 1, listdir. cbn [world].
  destruct (scandir root w) as [[dirs nondirs]|] eqn:Hscan.
  - eapply holds_bind; [apply (files_loop root nondirs F d _ Hd)|].
    intros d1 s1 [Hd1 ->].
    set (F1 := fun r f => F r f \/ (r = root /\ In f nondirs)) in *.
    assert (forall ds,
               incl ds (filter keep_dir dirs) ->
               forall G d2,
                 sorted_by G d2 ->
                 holds
                   (fun d' s' =>
                      sorted_by
                        (fun r f =>
                           G r f
                           \/ exists x,
                                In x ds
                                /\ path_islink (OsPath.join root x) w = false
                                /\ walked w (OsPath.join root x) r
                                /\ listed w r f) d'
                      /\ s' = mkSys w tr)
                   (for_each
                      (fun a x =>
                         l <- islink (OsPath.join root x) ;;
                         if l then ret a
                         else
                           walk n (filter keep_dir)
                             (fun discovered '(root, _, fs) =>
                                for_each
                                  (fun discovered file =>
                                     lift (classify (OsPath.join root file)
                                             discovered))
                                  discovered fs)
                             (OsPath.join root x) a)
                      d2 ds (mkSys w tr))) as Hsub.
    { induction ds as [|x ds IHds]; intros Hincl G d2 Hd2; cbn [for_each].
      - split; [|reflexivity]. revert Hd2. apply sorted_by_ext.
        intros r f. split; [now left|].
        intros [H|(x & [] & _)]. exact H.
      - unfold bind at 1. unfold bind at 1, islink at 1. cbn [world].
        destruct (path_islink (OsPath.join root x) w) eqn:Hl.
        + unfold ret at 1. eapply holds_weaken;
            [|apply IHds; [intros y Hy; apply Hincl; now right | exact Hd2]].
          intros d' s' [Hs ->]. split; [|reflexivity].
          revert Hs. apply sorted_by_ext. intros r f. split.
          * intros [H|(y & Hy & Hrest)]; [now left|].
            right. exists y. split; [now right | exact Hrest].
          * intros [H|(y & [<-|Hy] & Hly & Hrest)]; [now left | congruence|].
            right. now exists y.
        + eapply holds_bind; [apply (IH _ G d2 tr Hd2)|].
          intros d3 s3 [Hd3 ->].
          eapply holds_weaken;
            [|apply IHds; [intros y Hy; apply Hincl; now right | exact Hd3]].
          intros d' s' [Hs ->]. split; [|reflexivity].
          revert Hs. apply sorted_by_ext. intros r f. split.
          * intros [[H|[Hw Hf]]|(y & Hy & Hrest)]; [now left | |].
            -- right. exists x. repeat split; auto. now left.
            -- right. exists y. split; [now right | exact Hrest].
          * intros [H|(y & [<-|Hy] & Hly & Hw & Hf)].
            -- left. now left.
            -- left. right. now split.
            -- right. now exists y. }
    eapply holds_weaken; [|apply (Hsub _ (incl_refl _) F1 d1 Hd1)].
    intros d' s' [Hs ->]. split; [|reflexivity].
    revert Hs. apply sorted_by_ext. intros r f. subst F1. cbv beta. split.
    + intros [[H|[-> Hf]]|(x & Hx & Hl & Hw & Hf)].
      * now left.
      * right. split; [constructor | now exists dirs, nondirs].
      * right. apply filter_In in Hx as [Hx Hk].
        split; [|exact Hf]. now apply walked_under with x dirs nondirs.
    + intros [H|[Hw Hf]]; [left; now left|].
      apply walked_head in Hw
        as [->|(ds & nds & x & Hs & Hx & Hk & Hl & Hw)].
      * left. right. split; [reflexivity|].
        destruct Hf as (ds & nds & Hs & Hin). congruence.
      * right. exists x. rewrite Hscan in Hs. injection Hs as <- <-.
        repeat split; auto. apply filter_In. now split.
  - unfold ret. split; [|reflexivity]. revert Hd. apply sorted_by_ext.
    intros r f. split; [now left|]. intros [H|[Hw Hf]]; [exact H|].
    apply walked_head in Hw as [->|(ds & nds & x & Hs & _)]; [|congruence].
    destruct Hf as (ds & nds & Hs & _). congruence.
Qed.

End Walk.

Section Discovery.
Context {W : Type} {os : OS W}.

(** [X14] [discover_files] never raises and has no side effect.  When it returns,
    only [files] has changed; it holds exactly the three category lists,
    and a path is in a list exactly when it is of that category by the
    first test it passes (Terraform before Docker before Helm) and is the
    path of a file listed in a directory reached from an existing given
    path through kept directories: not through a directory whose name
    starts with a dot, through [node_modules] or through a link. *)
Theorem discover_files_sorts_what_it_finds (fuel : nat) (state : CICDState)
  (s : Sys W) :
  holds
    (fun st' s' =>
       s' = s
       /\ st' = set_files (files st') state
       /\ sorted_files (world s) (user_paths state) (files st'))
    (discover_files fuel state s).
Proof.
  destruct s as [w tr]. unfold discover_files. cbn [world].
  set (tops := user_paths state).
  assert (forall ps F d,
             sorted_by F d ->
             holds
               (fun d' s' =>
                  sorted_by (fun r f => F r f \/ seen_below w ps r f) d'
                  /\ s' = mkSys w tr)
               (for_each
                  (fun discovered path =>
                     e <- exists_ path ;;
                     if negb e then ret discovered
                     else
                       walk fuel (filter keep_dir)
                         (fun discovered '(root, _, fs) =>
                            for_each
                              (fun discovered file =>
                                 lift (classify (OsPath.join root file)
                                         discovered))
                              discovered fs)
                         path discovered)
                  d ps (mkSys w tr))) as Hloop.
  { induction ps as [|path ps IH]; intros F d Hd; cbn [for_each].
    - split; [|reflexivity]. revert Hd. apply sorted_by_ext.
      intros r f. split; [now left|].
      intros [H|(top & [] & _)]. exact H.
    - unfold bind at 1. unfold bind at 1, exists_ at 1. cbn [world].
      destruct (path_exists path w) eqn:He; cbn [negb].
      + eapply holds_bind; [apply (walk_sorted w fuel path F d tr Hd)|].
        intros d1 s1 [Hd1 ->].
        eapply holds_weaken; [|apply (IH _ _ Hd1)].
        intros d' s' [Hs ->]. split; [|reflexivity].
        revert Hs. apply sorted_by_ext. intros r f. split.
        * intros [[H|[Hw Hf]]|(top & Hin & Hrest)]; [now left | |].
          -- right. exists path. repeat split; auto. now left.
          -- right. exists top. split; [now right | exact Hrest].
        * intros [H|(top & [<-|Hin] & He' & Hw & Hf)].
          -- left. now left.
          -- left. right. now split.
          -- right. now exists top.
      + unfold ret at 1. eapply holds_weaken; [|apply (IH _ _ Hd)].
        intros d' s' [Hs ->]. split; [|reflexivity].
        revert Hs. apply sorted_by_ext. intros r f. split.
        * intros [H|(top & Hin & Hrest)]; [now left|].
          right. exists top. split; [now right | exact Hrest].
        * intros [H|(top & [<-|Hin] & He' & Hrest)];
            [now left | congruence|].
          right. now exists top. }
  eapply holds_bind.
  - apply (Hloop tops (fun _ _ => False)).
    exists [], [], []. split; [reflexivity|].
    split; [|split]; intros p; split;
      [intros [] | intros (_ & r & f & [] & _)
      |intros [] | intros (_ & r & f & [] & _)
      |intros [] | intros (_ & r & f & [] & _)].
  - intros d s1 [(tf & dk & hl & -> & Htf & Hdk & Hhl) ->].
    cbn. split; [reflexivity|]. split; [reflexivity|].
    assert (forall c p,
               found (fun r f => False \/ seen_below w tops r f) c p
               <-> category_of p = Some c /\ listed_below w tops p)
      as Hfound.
    { intros c p. unfold found, listed_below. split.
      - intros (Hc & r & f & [[]|Hs] & ->). split; [exact Hc|].
        now exists r, f.
      - intros (Hc & r & f & Hs & ->). split; [exact Hc|].
        exists r, f. split; [now right | reflexivity]. }
    exists tf, dk, hl. split; [reflexivity|].
    split; [|split]; intros p; rewrite <- Hfound; auto.
Qed.

End Discovery.

Lemma discover_files_sorts_what_it_finds_witness :
  exists st',
    discover_files 10 (create_initial_state ["infra"; "app"; "charts"])
      healthy_repo = Ok st' healthy_repo
    /\ sorted_files (world healthy_repo) ["infra"; "app"; "charts"]
         (files st').
Proof.
  pose proof (discover_files_sorts_what_it_finds 10
                (create_initial_state ["infra"; "app"; "charts"])
                healthy_repo) as H.
  destruct (discover_files 10 (create_initial_state ["infra"; "app"; "charts"])
              healthy_repo) as [st' s'| |] eqn:E;
    [|vm_compute in E; discriminate ..].
  destruct H as (-> & _ & Hs). now exists st'.
Defined.

(** ** A round of the Terraform fixer *)

Section TerraformFixer.
Context {W : Type} {os : OS W}.

Lemma tf_fixed_app (dirs : list string) (w w1 w2 : W)
  (evs evs2 : list Event) :
  tf_fixed dirs w evs w1 -> tf_fixed dirs w1 evs2 w2 ->
  tf_fixed dirs w (evs ++ evs2)%list w2.
Proof.
  intros Hfirst Hthen.
  induction Hfirst; cbn [app]; [exact Hthen | |]; econstructor; eauto.
Qed.

(** What every round of a walk's body keeps, the walk keeps. *)
Lemma walk_inv {A} (P : A -> Sys W -> Prop)
  (prune : list string -> list string)
  (body : A -> string * list string * list string -> M W A) :
  (forall a x s a' s', P a s -> body a x s = Ok a' s' -> P a' s') ->
  forall fuel top a s a' s',
    P a s -> walk fuel prune body top a s = Ok a' s' -> P a' s'.
Proof.
  intros Hbody. induction fuel as [|n IH]; intros top a s a' s' Hp H;
    [discriminate|].
  cbn [walk] in H. unfold bind at 1, listdir in H.
  destruct (scandir top (world s)) as [[dirs nondirs]|] eqn:Hscan.
  - apply bind_ok in H as (a1 & s1 & E & H).
    apply Hbody in E; [|exact Hp].
    revert H. apply for_each_inv; [|exact E].
    intros a2 d s2 a3 s3 _ Hp2 H.
    unfold bind at 1, islink in H.
    destruct (path_islink (OsPath.join top d) (world s2)).
    + apply ret_ok in H as [-> ->]. exact Hp2.
    + now apply IH in H.
  - apply ret_ok in H as [-> ->]. exact Hp.
Qed.

(** The walk of [fix_terraform] in one directory: it runs no command, and
    each of its writes is the edit of a [.tf] file as it was then. *)
Lemma tf_walk_writes (dirs : list string) (fuel : nat) (top : string)
  (l l' : list string) (s s' : Sys W) :
  walk fuel (fun ds => ds)
    (fun _ '(root, _, fs) =>
       for_each
         (fun _ file =>
            if PyStr.endswith file ".tf" then
              let file_path := OsPath.join root file in
              content <- read_file file_path ;;
              write_file file_path (fix_tf_content content)
            else ret tt)
         tt fs ;;;
       ret fs)
    top l s = Ok l' s' ->
  exists evs,
    tf_fixed dirs (world s) evs (world s')
    /\ trace s' = (trace s ++ evs)%list
    /\ filter is_command evs = [].
Proof.
  apply (walk_inv
           (fun _ s1 =>
              exists evs,
                tf_fixed dirs (world s) evs (world s1)
                /\ trace s1 = (trace s ++ evs)%list
                /\ filter is_command evs = []));
    [|exists []; split; [constructor|]; split;
      [now rewrite app_nil_r | reflexivity]].
  intros l0 [[root ds] nondirs] s0 l1 s1 Hinv H.
  apply bind_ok in H as (u & s2 & E & Hret).
  apply ret_ok in Hret as [-> ->].
  revert E.
  apply (for_each_inv
           (fun _ s1 =>
              exists evs,
                tf_fixed dirs (world s) evs (world s1)
                /\ trace s1 = (trace s ++ evs)%list
                /\ filter is_command evs = [])); [|exact Hinv].
  intros u0 file s3 u1 s4 _ (evs & Hrel & Htr & Hcmd) E.
  destruct (PyStr.endswith file ".tf") eqn:Htf;
    [|apply ret_ok in E as [_ ->]; now exists evs].
  cbv zeta in E. apply bind_ok in E as (c & s5 & Er & E).
  unfold read_file in Er.
  destruct (read_text (OsPath.join root file) (world s3)) as [c0|] eqn:Hr;
    [|discriminate].
  injection Er as <- <-.
  unfold write_file in E.
  destruct (write_text (OsPath.join root file) (fix_tf_content c0)
              (world s3)) as [w1|] eqn:Hw; [|discriminate].
  injection E as _ <-. cbn [world trace].
  exists (evs ++ [EvWrite (OsPath.join root file) (fix_tf_content c0)])%list.
  split; [|split].
  - eapply tf_fixed_app; [exact Hrel|].
    eapply tf_fixed_write; eauto. constructor.
  - now rewrite Htr, app_assoc.
  - rewrite filter_app, Hcmd. reflexivity.
Qed.


End TerraformFixer.


(** ** The Docker and Helm release stages, command by command *)

Lemma success_if_any_passing {A} (f : A * ProcResult -> string)
  (xs : list (A * ProcResult)) :
  success_if_any (map f (passing xs)) = stage_status xs.
Proof.
  unfold stage_status, passing.
  induction xs as [|x xs IH]; [reflexivity|].
  simpl. destruct (proc_passed (snd x)); [reflexivity | exact IH].
Qed.

Section ReleaseRecords.
Context {W : Type} {os : OS W}.

Lemma build_images_records (timestamp : string) (fs : list string) :
  forall (acc : list string) (s : Sys W),
  exists brs s',
    List.length brs = List.length fs
    /\ images_built timestamp fs (world s) brs (world s')
    /\ for_each (build_image timestamp) acc fs s
       = Ok (acc ++ map fst (passing brs))%list s'
    /\ trace s' = (trace s ++ map build_run (combine fs brs))%list.
Proof.
  induction fs as [|f fs IH]; intros acc s.
  - exists [], s. cbn. rewrite !app_nil_r. repeat split; constructor.
  - cbn [for_each]. unfold bind at 1. unfold build_image at 1.
    unfold bind at 1. unfold abspath at 1. unfold bind at 1.
    rewrite run_command_eq.
    set (name := PyStr.lower
                   (OsPath.basename
                      (path_abspath (docker_dir_of f) (world s)))).
    set (tag := (name ++ ":" ++ timestamp)%string).
    match goal with
    | |- context [subprocess_run ?c ?d ?w] =>
        destruct (subprocess_run c d w) as [r w1] eqn:E
    end.
    destruct (IH (if proc_passed r then (acc ++ [tag])%list else acc)
                (mkSys w1
                   (trace s
                    ++ [EvRun ["docker"; "build"; "-t"; tag; "."]
                          (Some (docker_dir_of f)) r])))
      as (brs & s' & Hlen & Hall & Hrun & Htr).
    exists ((tag, r) :: brs), s'.
    split; [simpl; now rewrite Hlen|].
    split; [exact (built_next timestamp f fs r (world s) w1 brs (world s')
                     E Hall)|].
    split.
    + unfold passing. cbn [filter snd].
      destruct (proc_passed r); cbn [map fst].
      * rewrite <- app_assoc in Hrun. exact Hrun.
      * exact Hrun.
    + rewrite Htr. cbn [trace combine map build_run].
      now rewrite <- app_assoc.
Qed.

Lemma package_charts_records (dirs : list string) :
  forall (acc : list string) (s : Sys W),
  exists rs s',
    List.length rs = List.length dirs
    /\ for_each package_chart acc dirs s
       = Ok (acc ++ map (fun e => OsPath.basename (fst e))
                      (passing (combine dirs rs)))%list s'
    /\ trace s' = (trace s ++ map package_run (combine dirs rs))%list
    /\ commands_ran (world s) (map package_run (combine dirs rs)) (world s').
Proof.
  induction dirs as [|d dirs IH]; intros acc s.
  - exists [], s. cbn. rewrite !app_nil_r. repeat split. constructor.
  - cbn [for_each]. unfold bind at 1. unfold package_chart at 1.
    unfold bind at 1. rewrite run_command_eq.
    match goal with
    | |- context [subprocess_run ?c ?d ?w] =>
        destruct (subprocess_run c d w) as [r w1] eqn:E
    end.
    destruct (IH (if proc_passed r
                  then (acc ++ [OsPath.basename d])%list else acc)
                (mkSys w1
                   (trace s
                    ++ [EvRun ["helm"; "package"; d; "--destination";
                               "./dist"] None r])))
      as (rs & s' & Hlen & Hrun & Htr & Hran).
    exists (r :: rs), s'.
    split; [simpl; now rewrite Hlen|].
    split; [|split].
    + unfold passing. cbn [combine filter snd].
      destruct (proc_passed r); cbn [map fst].
      * rewrite <- app_assoc in Hrun. exact Hrun.
      * exact Hrun.
    + rewrite Htr. cbn [trace combine map package_run].
      now rewrite <- app_assoc.
    + cbn [combine map package_run]. econstructor; [exact E | exact Hran].
Qed.



End ReleaseRecords.



(** ** The Terraform release stage: what it leaves in the state *)

Lemma done_has_apply (n : nat) (dirs : list string)
  (rs : list (ProcResult * ProcResult)) :
  List.length rs = n -> n <= List.length dirs -> Forall both_passed rs ->
  existsb is_passed_apply
    (flat_map planned_applied (combine (firstn n dirs) rs))
  = negb (Nat.eqb n 0).
Proof.
  intros Hlen Hle Hall. destruct rs as [|[rp ra] rs]; simpl in Hlen; subst n.
  - now rewrite combine_nil.
  - destruct dirs as [|d dirs]; simpl in Hle; [lia|].
    inversion Hall as [|? ? [_ Ha] _]; subst. cbn [snd] in Ha.
    cbn [firstn combine flat_map planned_applied app existsb
           is_passed_apply Nat.eqb negb].
    change (cmd_eqb plan_cmd apply_cmd) with false.
    change (cmd_eqb apply_cmd apply_cmd) with true.
    rewrite Ha. reflexivity.
Qed.

Section TerraformFlag.
Context {W : Type} {os : OS W}.


End TerraformFlag.


(** ** The text edits, applied twice *)

Lemma fix_chart_content_has_fields (chart_dir content : string) :
  has_chart_fields (fix_chart_content chart_dir content) = true.
Proof.
  rewrite fix_chart_content_eq. cbv zeta. unfold has_chart_fields.
  set (c1 := if negb (PyStr.contains "apiVersion:" content)
             then api_version_line ++ content else content).
  assert (PyStr.contains "apiVersion:" c1 = true) as H1.
  { subst c1. destruct (PyStr.contains "apiVersion:" content) eqn:E;
      [exact E | reflexivity]. }
  clearbody c1.
  set (c2 := if negb (PyStr.contains "name:" c1)
             then c1 ++ name_line chart_dir else c1).
  assert (PyStr.contains "apiVersion:" c2 = true
          /\ PyStr.contains "name:" c2 = true) as [H2a H2n].
  { subst c2. destruct (PyStr.contains "name:" c1) eqn:E; cbn [negb].
    - now split.
    - split; [now apply PyStrFacts.contains_app_l|].
      apply PyStrFacts.contains_app_r. reflexivity. }
  clearbody c2.
  destruct (PyStr.contains "version:" c2) eqn:V; cbn [negb].
  - now rewrite H2a, H2n, V.
  - rewrite (PyStrFacts.contains_app_l _ _ _ H2a),
      (PyStrFacts.contains_app_l _ _ _ H2n).
    cbn [andb]. apply PyStrFacts.contains_app_r. reflexivity.
Qed.

Lemma fix_chart_content_fixed (chart_dir content : string) :
  has_chart_fields content = true ->
  fix_chart_content chart_dir content = content.
Proof.
  unfold has_chart_fields. intros H.
  apply andb_prop in H as [H Hv]. apply andb_prop in H as [Ha Hn].
  unfold fix_chart_content. rewrite Ha. cbn [negb]. rewrite Hn.
  cbn [negb]. now rewrite Hv.
Qed.

(** [X20] The edit of [fix_helm] settles after one application: applied to its
    own result it changes nothing, and it leaves a text as it is exactly
    when the three field names are already in it. *)
Theorem fix_chart_content_settles (chart_dir content : string) :
  fix_chart_content chart_dir (fix_chart_content chart_dir content)
  = fix_chart_content chart_dir content
  /\ (fix_chart_content chart_dir content = content
      <-> has_chart_fields content = true).
Proof.
  split; [apply fix_chart_content_fixed, fix_chart_content_has_fields|].
  split; [|apply fix_chart_content_fixed].
  intros H. rewrite <- H. apply fix_chart_content_has_fields.
Qed.

Lemma replace_from_absent (old new s : string) :
  PyStr.contains old s = false -> PyStr.replace_from old new 0 s = s.
Proof.
  induction s as [|c t IH]; [reflexivity|].
  cbn [PyStr.contains PyStr.replace_from]. intros H.
  apply orb_false_iff in H as [Hs Ht]. rewrite Hs. now rewrite IH.
Qed.

Lemma replace_from_present (old new s : string) :
  old <> "" -> PyStr.contains old s = true ->
  exists pre post,
    PyStr.replace_from old new 0 s = pre ++ new ++ post.
Proof.
  intros Hne. induction s as [|c t IH].
  - destruct old; [congruence | discriminate].
  - cbn [PyStr.contains PyStr.replace_from]. intros H.
    destruct (PyStr.startswith (String c t) old) eqn:Hs.
    + now exists "", (PyStr.replace_from old new (String.length old - 1) t).
    + cbn [orb] in H. destruct (IH H) as (pre & post & ->).
      now exists (String c pre), post.
Qed.

Lemma startswith_longer (a b : string) :
  forall s, PyStr.startswith s (a ++ b) = true -> PyStr.startswith s a = true.
Proof.
  induction a as [|c a IH]; intros s H; [reflexivity|].
  destruct s as [|d s]; [discriminate|].
  cbn [append PyStr.startswith] in *.
  apply andb_prop in H as [Hc H]. rewrite Hc. now apply IH.
Qed.

Lemma contains_longer (a b s : string) :
  PyStr.contains (a ++ b) s = true -> PyStr.contains a s = true.
Proof.
  induction s as [|c t IH]; cbn [PyStr.contains]; intros H.
  - apply orb_prop in H as [H|H]; [|discriminate].
    now rewrite (startswith_longer _ _ _ H).
  - apply orb_prop in H as [H|H].
    + now rewrite (startswith_longer _ _ _ H).
    + rewrite (IH H). apply orb_true_r.
Qed.

(** [X21] The edit of [fix_terraform] settles after one application.  It
    changes a text exactly when the text does not mention
    [required_providers] and has a [provider "] in it, and its result
    mentions [required_providers] exactly when the text did or has a
    [provider "] in it. *)
Theorem fix_tf_content_settles (content : string) :
  fix_tf_content (fix_tf_content content) = fix_tf_content content
  /\ (fix_tf_content content = content
      <-> PyStr.contains "required_providers" content = true
          \/ PyStr.contains ("provider " ++ PyStr.dquote) content = false)
  /\ PyStr.contains "required_providers" (fix_tf_content content)
     = PyStr.contains "required_providers" content
       || PyStr.contains ("provider " ++ PyStr.dquote) content.
Proof.
  assert (PyStr.contains "required_providers" content = true ->
          fix_tf_content content = content) as Hkeep.
  { intros H. unfold fix_tf_content. now rewrite H. }
  assert (PyStr.contains ("provider " ++ PyStr.dquote) content = false ->
          fix_tf_content content = content) as Hnone.
  { intros H. unfold fix_tf_content.
    destruct (negb (PyStr.contains "required_providers" content)
              && PyStr.contains "provider " content); [|reflexivity].
    unfold PyStr.replace.
    match goal with
    | |- context [String.eqb ?o ""] => change (String.eqb o "") with false
    end.
    cbv iota. now apply replace_from_absent. }
  assert (PyStr.contains "required_providers" content = false ->
          PyStr.contains ("provider " ++ PyStr.dquote) content = true ->
          PyStr.contains "required_providers" (fix_tf_content content)
          = true) as Hadds.
  { intros Hrp Hp. unfold fix_tf_content.
    rewrite Hrp, (contains_longer _ _ _ Hp). cbn [negb andb].
    unfold PyStr.replace.
    match goal with
    | |- context [PyStr.replace_from ?o ?n 0 content] =>
        set (new := n); set (old := o)
    end.
    change (String.eqb old "") with false. cbv iota.
    destruct (replace_from_present old new content) as (pre & post & ->);
      [discriminate | exact Hp |].
    apply PyStrFacts.contains_app_r, PyStrFacts.contains_app_l.
    reflexivity. }
  destruct (PyStr.contains "required_providers" content) eqn:Hrp.
  - rewrite !(Hkeep eq_refl), Hrp. repeat split; auto.
  - destruct (PyStr.contains ("provider " ++ PyStr.dquote) content) eqn:Hp.
    + pose proof (Hadds eq_refl eq_refl) as Hnew.
      split; [|split].
      * unfold fix_tf_content at 1. now rewrite Hnew.
      * split; [|intros [H|H]; discriminate].
        intros E. rewrite E in Hnew. congruence.
      * exact Hnew.
    + rewrite !(Hnone eq_refl), Hrp. repeat split; auto.
Qed.

(** ** [suggest_base_image_update] *)

Lemma first_update_absent (updates : list (string * string)) (img : string) :
  forallb (fun e => negb (PyStr.contains (fst e) img)) updates = true ->
  first_update updates img = img.
Proof.
  induction updates as [|[old new] rest IH]; [reflexivity|].
  cbn [forallb first_update fst]. intros H.
  apply andb_prop in H as [H Hrest]. apply negb_true_iff in H.
  rewrite H. now apply IH.
Qed.

Lemma first_update_present (updates : list (string * string)) (img : string) :
  forallb (fun e => negb (PyStr.contains (fst e) img)) updates = false ->
  In (first_update updates img) (map snd updates).
Proof.
  induction updates as [|[old new] rest IH]; [discriminate|].
  cbn [forallb first_update fst map snd]. intros H.
  destruct (PyStr.contains old img); [now left|].
  right. now apply IH.
Qed.

(** [X22] [suggest_base_image_update] returns its argument exactly when none of
    the eleven image names of its table occurs in it, and one of the four
    images the table suggests otherwise.  What it returns it would return
    again: a suggested image is never itself out of date.  For each name
    of the table it returns the image the table gives for that name. *)
Theorem suggest_base_image_update_settles (current_image : string) :
  (suggest_base_image_update current_image = current_image
   <-> forallb (fun e => negb (PyStr.contains (fst e) current_image))
         image_updates = true)
  /\ (suggest_base_image_update current_image = current_image
      \/ In (suggest_base_image_update current_image) suggested_images)
  /\ suggest_base_image_update (suggest_base_image_update current_image)
     = suggest_base_image_update current_image
  /\ Forall (fun e => suggest_base_image_update (fst e) = snd e)
       image_updates.
Proof.
  unfold suggest_base_image_update.
  assert (forall img, In img (map snd image_updates) ->
            In img suggested_images
            /\ forallb (fun e => negb (PyStr.contains (fst e) img))
                 image_updates = true) as Hnew.
  { intros img Hin. unfold image_updates in Hin. cbn [map snd In] in Hin.
    repeat (destruct Hin as [<-|Hin];
            [split; [cbn; tauto | reflexivity]|]).
    contradiction. }
  split; [|split; [|split]].
  - split; [|apply first_update_absent].
    intros E.
    destruct (forallb (fun e => negb (PyStr.contains (fst e) current_image))
                image_updates) eqn:Hk; [reflexivity|].
    pose proof (first_update_present _ _ Hk) as Hin. rewrite E in Hin.
    apply Hnew in Hin as [_ Hin]. congruence.
  - destruct (forallb (fun e => negb (PyStr.contains (fst e) current_image))
                image_updates) eqn:Hk.
    + left. now apply first_update_absent.
    + right. now apply first_update_present, Hnew in Hk.
  - destruct (forallb (fun e => negb (PyStr.contains (fst e) current_image))
                image_updates) eqn:Hk.
    + now rewrite !(first_update_absent _ _ Hk).
    + apply first_update_present, Hnew in Hk as [_ Hk].
      now apply first_update_absent.
  - repeat constructor.
Qed.

(** ** A Dockerfile the fixer leaves alone *)

Lemma concat_readlines_from (s : string) :
  forall cur, String.concat "" (readlines_from cur s) = cur ++ s.
Proof.
  induction s as [|c t IH]; intros cur; cbn [readlines_from].
  - rewrite PyStrFacts.append_empty_r.
    destruct (String.eqb_spec cur "") as [->|_]; reflexivity.
  - destruct (Ascii.eqb c (ascii_of_nat 10)).
    + specialize (IH ""). cbn [String.concat].
      destruct (readlines_from "" t) as [|l ls].
      * cbn in IH. subst t. reflexivity.
      * rewrite IH. cbn [append].
        now rewrite PyStrFacts.append_assoc.
    + rewrite IH. now rewrite PyStrFacts.append_assoc.
Qed.

Lemma update_base_image_keeps (line : string) :
  negb (is_from line)
  || PyStr.contains "latest" line
  || forallb (fun e => negb (PyStr.contains (fst e) line)) base_image_updates
  = true ->
  fold_exn update_base_image line base_image_updates = inr line.
Proof.
  intros H.
  assert (forall e, In e base_image_updates ->
                    update_base_image line e = inr line) as Hone.
  { intros [old new] Hin. unfold update_base_image.
    fold (is_from line).
    apply orb_prop in H as [H|H]; [apply orb_prop in H as [H|H]|].
    - apply negb_true_iff in H. now rewrite H.
    - rewrite H. cbn [negb].
      destruct (is_from line && PyStr.contains old line); reflexivity.
    - rewrite forallb_forall in H. specialize (H _ Hin). cbn [fst] in H.
      apply negb_true_iff in H. rewrite H. now rewrite andb_false_r. }
  revert Hone. generalize base_image_updates as l.
  induction l as [|e l IH]; intros Hone; [reflexivity|].
  cbn [fold_exn]. rewrite (Hone e (or_introl eq_refl)).
  apply IH. intros e' He'. apply Hone. now right.
Qed.

(** [X23] A Dockerfile none of whose lines calls for an edit is written back as
    it was read: [fix_dockerfile] returns the very content, and in
    particular reading the lines and writing them loses nothing. *)
Theorem fix_dockerfile_keeps_settled (content : string) :
  settled_dockerfile (readlines content) = true ->
  fix_dockerfile content = inr content.
Proof.
  intros H. unfold fix_dockerfile.
  set (lines := readlines content) in *.
  assert (forall rest acc,
             incl rest lines ->
             fold_exn (fix_docker_line lines) acc rest
             = inr (acc ++ rest)%list) as Hloop.
  { induction rest as [|line rest IH]; intros acc Hincl.
    - cbn. now rewrite app_nil_r.
    - cbn [fold_exn].
      assert (In line lines) as Hin by (apply Hincl; now left).
      unfold settled_dockerfile in H. rewrite forallb_forall in H.
      specialize (H _ Hin).
      apply andb_prop in H as [H Hu]. apply andb_prop in H as [Hb Hw].
      unfold fix_docker_line at 1. rewrite (update_base_image_keeps _ Hb).
      assert (is_from line
              && negb (existsb (PyStr.contains "WORKDIR") lines) = false)
        as ->.
      { destruct (is_from line); [|reflexivity].
        cbn [negb orb] in Hw. now rewrite Hw. }
      assert (is_cmd line
              && negb (existsb (PyStr.contains "USER") lines) = false)
        as ->.
      { destruct (is_cmd line); [|reflexivity].
        cbn [negb orb] in Hu. now rewrite Hu. }
      rewrite IH by (intros x Hx; apply Hincl; now right).
      now rewrite <- app_assoc. }
  rewrite (Hloop lines [] (incl_refl _)). cbn [app].
  unfold lines, readlines. rewrite concat_readlines_from. reflexivity.
Qed.

Lemma fix_dockerfile_keeps_settled_witness :
  fix_dockerfile go_dockerfile = inr go_dockerfile.
Proof. apply fix_dockerfile_keeps_settled. reflexivity. Defined.

(** ** A round of the Helm fixer *)

Section HelmFixerRound.
Context {W : Type} {os : OS W}.

Lemma charts_loop_run (dirs : list string) (w w1 : W) (evs : list Event) :
  charts_rewritten dirs w evs w1 ->
  forall tr,
    for_each
      (fun _ chart_dir =>
         let chart_yaml := OsPath.join chart_dir "Chart.yaml" in
         e <- exists_ chart_yaml ;;
         if e then
           content <- read_file chart_yaml ;;
           write_file chart_yaml (fix_chart_content chart_dir content)
         else ret tt)
      tt dirs (mkSys w tr) = Ok tt (mkSys w1 (tr ++ evs)).
Proof.
  induction 1 as [w|d rest w evs w1 He _ IH
                 |d rest w c w2 evs w1 He Hr Hw _ IH]; intros tr.
  - cbn. now rewrite app_nil_r.
  - cbn [for_each]. unfold bind at 1. cbv zeta.
    unfold bind at 1, exists_ at 1. cbn [world]. rewrite He.
    unfold ret at 1. apply IH.
  - cbn [for_each]. unfold bind at 1. cbv zeta.
    unfold bind at 1, exists_ at 1. cbn [world]. rewrite He.
    unfold bind at 1. unfold read_file at 1. cbn [world]. rewrite Hr.
    unfold write_file at 1. cbn [world trace]. rewrite Hw.
    rewrite IH. now rewrite <- app_assoc.
Qed.

Lemma charts_loop_ok (dirs : list string) :
  forall (s s1 : Sys W) (u : unit),
    for_each
      (fun _ chart_dir =>
         let chart_yaml := OsPath.join chart_dir "Chart.yaml" in
         e <- exists_ chart_yaml ;;
         if e then
           content <- read_file chart_yaml ;;
           write_file chart_yaml (fix_chart_content chart_dir content)
         else ret tt)
      tt dirs s = Ok u s1 ->
    exists w1 evs,
      charts_rewritten dirs (world s) evs w1
      /\ s1 = mkSys w1 (trace s ++ evs).
Proof.
  induction dirs as [|d dirs IH]; intros s s1 u H; cbn [for_each] in H.
  - apply ret_ok in H as [_ ->].
    exists (world s), []. split; [constructor|].
    destruct s. cbn. now rewrite app_nil_r.
  - apply bind_ok in H as (u1 & s2 & E & H). cbv zeta in E.
    apply bind_ok in E as (e & s3 & Ee & E).
    unfold exists_ in Ee. injection Ee as <- <-.
    destruct (path_exists (OsPath.join d "Chart.yaml") (world s)) eqn:He.
    + apply bind_ok in E as (c & s3 & Er & E).
      unfold read_file in Er.
      destruct (read_text (OsPath.join d "Chart.yaml") (world s))
        as [c0|] eqn:Hr; [|discriminate].
      injection Er as <- <-.
      unfold write_file in E.
      destruct (write_text (OsPath.join d "Chart.yaml")
                  (fix_chart_content d c0) (world s)) as [w2|] eqn:Hw;
        [|discriminate].
      injection E as <- <-.
      apply IH in H as (w1 & evs & Hrel & ->). cbn [world trace].
      eexists w1, (_ :: evs).
      split; [eapply charts_next; eauto|]. now rewrite <- app_assoc.
    + apply ret_ok in E as [-> ->].
      apply IH in H as (w1 & evs & Hrel & ->).
      exists w1, evs. split; [now apply charts_skip | reflexivity].
Qed.

(** [X16] A round of the Helm fixer that has budget and a non-empty file list,
    once its chart search has returned the directories [dirs], returns
    exactly when the [Chart.yaml] of every directory that has one can be
    read and written back.  It then has written each of these files once,
    in the order of [dirs], with [fix_chart_content] applied to the
    content the file had at that moment, and nothing else.  The attempts
    of the category went up by one and [fix_applied] is set; what is
    appended to [files_fixed] is the list of all Helm files of the state,
    not the [Chart.yaml] files written. *)
Theorem fix_helm_round (fuel : nat) (state st' : CICDState)
  (s s' : Sys W) (f : string) (fs dirs : list string) :
  (attempts_of "helm" state < max_attempts_of "helm" state)%Z ->
  files_of "helm" state = inr (f :: fs) ->
  chart_dirs_of fuel (f :: fs) s = Ok dirs s ->
  (fix_helm fuel state s = Ok st' s'
   <-> exists w1 evs,
         charts_rewritten dirs (world s) evs w1
         /\ s' = mkSys (snd (datetime_now w1)) (trace s ++ evs)
         /\ st' = fixed_state "helm" (isoformat (fst (datetime_now w1)))
                    (f :: fs) (snd (get_or_create_fix_attempt state "helm")))
  /\ (fix_helm fuel state s = Ok st' s' ->
      attempts_of "helm" st' = (attempts_of "helm" state + 1)%Z
      /\ max_attempts_of "helm" st' = max_attempts_of "helm" state
      /\ fix_applied st' = true
      /\ files_fixed st' = (files_fixed state ++ f :: fs)%list).
Proof.
  intros Hlt Hfs Hdirs.
  pose proof (can_attempt_fix_fst state "helm") as Hcan.
  pose proof (can_attempt_fix_snd state "helm") as Hsnd.
  apply Z.ltb_lt in Hlt. rewrite Hlt in Hcan.
  pose proof (get_or_create_frame state "helm") as [Hfiles Hfixed].
  pose proof (get_or_create_budget state "helm" "helm") as [Hatt Hmax].
  set (st1 := snd (get_or_create_fix_attempt state "helm")) in *.
  assert (files_of "helm" st1 = inr (f :: fs)) as Hfs1
    by (unfold files_of in *; now rewrite Hfiles).
  assert (fix_helm fuel state s = Ok st' s'
          <-> exists w1 evs,
                charts_rewritten dirs (world s) evs w1
                /\ s' = mkSys (snd (datetime_now w1)) (trace s ++ evs)
                /\ st' = fixed_state "helm"
                           (isoformat (fst (datetime_now w1))) (f :: fs) st1)
    as Hiff.
  { unfold fix_helm.
    destruct (can_attempt_fix state "helm") as [can st0].
    cbn [fst snd] in Hcan, Hsnd. subst can st0. cbn [negb].
    rewrite Hfs1. unfold bind at 1. cbn [lift]. unfold ret at 1.
    unfold bind at 1. rewrite Hdirs.
    split.
    - intros H. apply bind_ok in H as (u & s1 & E & H).
      apply charts_loop_ok in E as (w1 & evs & Hrel & ->).
      rewrite finish_fix_eq in H. cbn [world trace] in H.
      injection H as <- <-. now exists w1, evs.
    - intros (w1 & evs & Hrel & -> & ->).
      unfold bind at 1. destruct s as [w tr]. cbn [world trace] in *.
      pose proof (charts_loop_run _ _ _ _ Hrel tr) as E.
      cbv zeta in E. cbv zeta. rewrite E.
      now rewrite finish_fix_eq. }
  split; [exact Hiff|].
  intros H. apply Hiff in H as (w1 & evs & _ & _ & ->).
  destruct (fixed_state_budget st1 "helm"
              (isoformat (fst (datetime_now w1))) (f :: fs) "helm")
    as [Ha Hm].
  destruct (fixed_state_fields st1 "helm"
              (isoformat (fst (datetime_now w1))) (f :: fs)) as [Hap Hff].
  rewrite String.eqb_refl in Ha.
  split; [now rewrite Ha, Hatt|]. split; [now rewrite Hm, Hmax|].
  split; [exact Hap|]. now rewrite Hff, Hfixed.
Qed.

End HelmFixerRound.

Lemma fix_helm_round_witness :
  exists st' s',
    fix_helm 30 docker_and_chart all_tools_fail = Ok st' s'
    /\ attempts_of "helm" st' = 1%Z
    /\ files_fixed st' = ["charts/web/values.yaml"].
Proof.
  assert (chart_dirs_of 30 ["charts/web/values.yaml"] all_tools_fail
          = Ok ["charts/web"] all_tools_fail) as Hdirs
    by (vm_compute; reflexivity).
  destruct (fix_helm 30 docker_and_chart all_tools_fail) as [st' s'| |] eqn:E;
    [|vm_compute in E; discriminate ..].
  destruct (proj2 (fix_helm_round 30 docker_and_chart st' all_tools_fail s'
                     "charts/web/values.yaml" [] ["charts/web"]
                     eq_refl eq_refl Hdirs) E) as (Ha & _ & _ & Hf).
  exists st', s'. repeat split; assumption.
Defined.

(** ** The status a run can end with *)

Section StatusValues.
Context {W : Type} {os : OS W}.

(** [X24] No node function writes ["success"].  Whatever the order in which
    node functions are applied to a seeded initial state, and whatever the
    environment answers, the status is one of ["running"], ["fixing"],
    ["failed"] and ["releasing"]; a result with such a state makes [main]
    exit with code 1. *)
Theorem status_never_success (m : Z) (st : CICDState) (s : Sys W) :
  reachable m st ->
  In (status st) ["running"; "fixing"; "failed"; "releasing"]
  /\ exit_code (Ok st s) = Some 1%Z.
Proof.
  intros Hreach.
  assert (In (status st) ["running"; "fixing"; "failed"; "releasing"]) as Hin.
  { induction Hreach as [paths|st fuel n s0 st' s' _ IH Hrun].
    - left. reflexivity.
    - apply run_node_effect, node_effect_status in Hrun.
      destruct Hrun as [->|Hnew]; [exact IH|]. right. exact Hnew. }
  split; [exact Hin|]. cbn [exit_code].
  destruct Hin as [<-|[<-|[<-|[<-|[]]]]]; reflexivity.
Qed.

End StatusValues.

Lemma status_never_success_witness :
  In (status (prepare_release
                (seed_fix_attempts 3 (create_initial_state ["."]))))
    ["running"; "fixing"; "failed"; "releasing"]
  /\ exit_code
       (Ok (prepare_release
              (seed_fix_attempts 3 (create_initial_state ["."])))
          healthy_repo)
     = Some 1%Z.
Proof.
  apply (status_never_success 3).
  eapply (reach_step (W := SimpleOS.World) 3 _ 0 n_prepare_release
            healthy_repo).
  - apply reach_init.
  - reflexivity.
Defined.

(** ** The Terraform fixer when [terraform] cannot be started *)

Section TerraformFixerRaises.
Context {W : Type} {os : OS W}.


End TerraformFixerRaises.

